(** * Email productivity agent: the agent pipeline, embedded and verified

    A shallow embedding of the Python back end (backend/models,
    backend/services, backend/agents) and the proofs of its stated
    properties.

    Conventions of the embedding.
    - A Python [str] is a Rocq [string]; a character is one of the 256 code
      points that [ascii] offers (the Latin-1 range of Python's code points).
    - A [datetime] is a naive one, the kind [datetime.now()] produces, which
      is the only constructor the back end uses.
    - An [async def] is run to completion: one logical thread per request.
    - A method that talks to the document store, the vector index, the clock
      or the language model is a function of the [World]; a method that can
      raise returns [Exn + A] next to the world it leaves behind, so that what
      was written before the exception stays written.
    - The MongoDB client is taken to answer (no transport failure); the
      language-model endpoint, the embedding model and the vector index may
      fail on any call, and [json.loads] may raise on any text. *)

From Stdlib Require Import List String Ascii Bool Arith NArith ZArith Lia.
From Stdlib Require Import Permutation Sorted DecimalString.
Import ListNotations.

Local Open Scope string_scope.
Local Open Scope list_scope.

Infix "+++" := String.append (right associativity, at level 60).

(* ================================================================== *)
(** * Python string operations *)
(* ================================================================== *)

Module PyStr.

Definition chars : string -> list ascii := list_ascii_of_string.
Definition of_chars : list ascii -> string := string_of_list_ascii.

(** The double quote and the line feed, which string literals here avoid. *)
Definition dq : string := String "034"%char EmptyString.
Definition nl : string := String "010"%char EmptyString.
Definition quoted (s : string) : string := dq +++ s +++ dq.

(** [str.isspace] on one character, for the code points below 256:
    U+0009..U+000D, U+001C..U+0020, U+0085 and U+00A0. *)
Definition isspace (c : ascii) : bool :=
  let n := N_of_ascii c in
  ((9 <=? n) && (n <=? 13) || (28 <=? n) && (n <=? 32)
   || (n =? 133) || (n =? 160))%N.

Fixpoint lstrip_chars (p : ascii -> bool) (l : list ascii) : list ascii :=
  match l with
  | [] => []
  | c :: r => if p c then lstrip_chars p r else l
  end.

Definition rstrip_chars (p : ascii -> bool) (l : list ascii) : list ascii :=
  rev (lstrip_chars p (rev l)).

(** [s.strip()] *)
Definition strip (s : string) : string :=
  of_chars (rstrip_chars isspace (lstrip_chars isspace (chars s))).

(** [s.lstrip(set)] *)
Definition lstrip_set (set : string) (s : string) : string :=
  of_chars
    (lstrip_chars (fun c => existsb (Ascii.eqb c) (chars set)) (chars s)).

Fixpoint is_prefix (p l : list ascii) : bool :=
  match p, l with
  | [], _ => true
  | _ :: _, [] => false
  | a :: p', b :: l' => Ascii.eqb a b && is_prefix p' l'
  end.

(** [s.startswith(p)] and [s.endswith(p)] *)
Definition startswith (s p : string) : bool := is_prefix (chars p) (chars s).
Definition endswith (s p : string) : bool :=
  is_prefix (rev (chars p)) (rev (chars s)).

(** [s[n:]], [s[:n]] and [s[:-n]] (for [n > 0]) *)
Definition slice_from (n : nat) (s : string) : string :=
  of_chars (skipn n (chars s)).
Definition slice_to (n : nat) (s : string) : string :=
  of_chars (firstn n (chars s)).
Definition slice_drop_last (n : nat) (s : string) : string :=
  of_chars (firstn (List.length (chars s) - n) (chars s)).

(** [s.split(sep)] for a one-character separator: the pieces, in order;
    [cur] holds the piece being read, reversed. *)
Fixpoint split_chars (sep : ascii) (cur : list ascii) (l : list ascii)
  : list string :=
  match l with
  | [] => [of_chars (rev cur)]
  | c :: r =>
      if Ascii.eqb c sep then of_chars (rev cur) :: split_chars sep [] r
      else split_chars sep (c :: cur) r
  end.

Definition split (sep : ascii) (s : string) : list string :=
  split_chars sep [] (chars s).

(** Truthiness of a [str]: the empty string is falsy. *)
Definition truthy (s : string) : bool := negb (String.eqb s "").

(** [a or b] on an [Optional[str]] and a [str] *)
Definition or_else (a : option string) (b : string) : string :=
  match a with
  | Some s => if truthy s then s else b
  | None => b
  end.

End PyStr.

(* ================================================================== *)
(** * Naive datetimes and their ISO-8601 text *)
(* ================================================================== *)

Module DateTime.

Local Open Scope N_scope.

Record datetime : Type := mk_datetime {
  year : N; month : N; day : N;
  hour : N; minute : N; second : N; microsecond : N
}.

Definition is_leap (y : N) : bool :=
  (y mod 4 =? 0) && (negb (y mod 100 =? 0) || (y mod 400 =? 0)).

Definition days_in_month (y m : N) : N :=
  match m with
  | 1 | 3 | 5 | 7 | 8 | 10 | 12 => 31
  | 4 | 6 | 9 | 11 => 30
  | 2 => if is_leap y then 29 else 28
  | _ => 0
  end.

(** The ranges every Python [datetime] object obeys. *)
Definition valid_datetime (d : datetime) : bool :=
  (1 <=? year d) && (year d <=? 9999)
  && (1 <=? month d) && (month d <=? 12)
  && (1 <=? day d) && (day d <=? days_in_month (year d) (month d))
  && (hour d <? 24) && (minute d <? 60) && (second d <? 60)
  && (microsecond d <? 1000000).

Definition digit (n : N) : ascii := ascii_of_N (48 + n).

(** [%0wd]: the [w] decimal digits of [n], for [n < 10 ^ w]. *)
Fixpoint zfill (w : nat) (n : N) : list ascii :=
  match w with
  | O => []
  | S w' =>
      digit (n / 10 ^ N.of_nat w') :: zfill w' (n mod 10 ^ N.of_nat w')
  end.

(** [d.isoformat(sep)]: [YYYY-MM-DD<sep>HH:MM:SS], followed by [.ffffff]
    when the microsecond is not zero. *)
Definition isoformat_chars (sep : ascii) (d : datetime) : list ascii :=
  (zfill 4 (year d) ++ "-"%char :: zfill 2 (month d) ++ "-"%char
    :: zfill 2 (day d) ++ sep :: zfill 2 (hour d) ++ ":"%char
    :: zfill 2 (minute d) ++ ":"%char :: zfill 2 (second d)
    ++ (if microsecond d =? 0 then []
        else "."%char :: zfill 6 (microsecond d)))%list.

Definition isoformat (d : datetime) : string :=
  PyStr.of_chars (isoformat_chars "T"%char d).

(** [str(d)], which is [d.isoformat(' ')] *)
Definition str (d : datetime) : string :=
  PyStr.of_chars (isoformat_chars " "%char d).

Definition digit_val (c : ascii) : option N :=
  let n := N_of_ascii c in
  if (48 <=? n) && (n <=? 57) then Some (n - 48) else None.

Fixpoint read_digits (w : nat) (acc : N) (l : list ascii)
  : option (N * list ascii) :=
  match w with
  | O => Some (acc, l)
  | S w' =>
      match l with
      | [] => None
      | c :: r =>
          match digit_val c with
          | Some v => read_digits w' (10 * acc + v) r
          | None => None
          end
      end
  end.

Definition expect (c : ascii) (l : list ascii) : option (list ascii) :=
  match l with
  | x :: r => if Ascii.eqb x c then Some r else None
  | [] => None
  end.

Definition read_field (w : nat) (close : ascii) (l : list ascii)
  : option (N * list ascii) :=
  match read_digits w 0 l with
  | Some (v, r) =>
      match expect close r with Some r' => Some (v, r') | None => None end
  | None => None
  end.

(** The fraction: nothing, or a dot and six digits, and then the end. *)
Definition read_fraction (l : list ascii) : option N :=
  match l with
  | [] => Some 0
  | c :: r =>
      if Ascii.eqb c "."%char then
        match read_digits 6 0 r with
        | Some (us, []) => Some us
        | _ => None
        end
      else None
  end.

(** The parse of a stored timestamp when a model is rebuilt from its
    document. It reads the two shapes [isoformat] writes for a naive
    datetime and rejects a text whose fields are out of range; the
    validating library accepts further spellings, which no document
    written by this back end contains. *)
Definition parse_datetime (s : string) : option datetime :=
  match read_field 4 "-"%char (PyStr.chars s) with
  | Some (y, l1) =>
  match read_field 2 "-"%char l1 with
  | Some (mo, l2) =>
  match read_field 2 "T"%char l2 with
  | Some (d, l3) =>
  match read_field 2 ":"%char l3 with
  | Some (h, l4) =>
  match read_field 2 ":"%char l4 with
  | Some (mi, l5) =>
  match read_digits 2 0 l5 with
  | Some (se, l6) =>
  match read_fraction l6 with
  | Some us =>
      let d := mk_datetime y mo d h mi se us in
      if valid_datetime d then Some d else None
  | None => None end
  | None => None end
  | None => None end
  | None => None end
  | None => None end
  | None => None end
  | None => None end.

End DateTime.
Export DateTime.

(* ================================================================== *)
(** * JSON values and exceptions *)
(* ================================================================== *)

(** What [json.loads] builds. A [JDict] lists the items of the dict in
    insertion order, each key once; [JFloat] keeps the literal of a number
    written with a fraction or an exponent. *)
#[warnings="-register-all"]
Inductive json : Type :=
| JNull
| JBool (b : bool)
| JInt (z : Z)
| JFloat (literal : string)
| JStr (s : string)
| JList (l : list json)
| JDict (items : list (string * json)).

(** The exceptions the back end meets. [JSONDecodeError] is what
    [json.loads] raises on a text that is not JSON; on a text nested deeper
    than the interpreter allows it raises [RecursionError] instead, and on an
    integer literal of more than 4300 digits a plain [ValueError].
    [IndexError] stands for whatever the embedding model or the vector index
    raises. *)
Inductive Exn : Type :=
| ValueError
| TypeError
| AttributeError
| ValidationError
| RetryError
| JSONDecodeError
| RecursionError
| IndexError (message : string)
| EndpointError (message : string).

(** The digits at the head of [l], and what follows them. *)
Fixpoint digits_run (l : list ascii) : list ascii * list ascii :=
  match l with
  | c :: r =>
      match digit_val c with
      | Some _ => let (ds, rest) := digits_run r in (c :: ds, rest)
      | None => ([], l)
      end
  | [] => ([], l)
  end.

Fixpoint digits_value (acc : N) (ds : list ascii) : N :=
  match ds with
  | c :: r =>
      match digit_val c with
      | Some v => digits_value (10 * acc + v) r
      | None => acc
      end
  | [] => acc
  end.

(** The exponent that ends a number literal: none, or [e], a sign and
    digits. *)
Definition literal_exponent (l : list ascii) : option Z :=
  match l with
  | [] => Some 0%Z
  | c :: r =>
      if Ascii.eqb c "e" || Ascii.eqb c "E" then
        let (negative, r1) :=
          match r with
          | c1 :: r' =>
              if Ascii.eqb c1 "-" then (true, r')
              else if Ascii.eqb c1 "+" then (false, r')
              else (false, r)
          | [] => (false, r)
          end in
        match digits_run r1 with
        | ((_ :: _) as ds, []) =>
            let e := Z.of_N (digits_value 0 ds) in
            Some (if negative then (- e)%Z else e)
        | _ => None
        end
      else None
  end.

(** The least magnitude that rounds to infinity: halfway between the
    largest double and [2 ^ 1024]. *)
Definition overflow_threshold : N := (2 ^ 1024 - 2 ^ 970)%N.

(** [m * 10 ^ k] lies below the threshold; [digits] is the number of digits
    [m] was written with. *)
Definition below_overflow (m : N) (digits : nat) (k : Z) : bool :=
  match k with
  | Z0 => (m <? overflow_threshold)%N
  | Zpos p =>
      if (m =? 0)%N then true
      else if (400 <? Npos p)%N then false
      else (m * 10 ^ Npos p <? overflow_threshold)%N
  | Zneg p =>
      if (N.of_nat digits <=? Npos p)%N then true
      else (m <? overflow_threshold * 10 ^ Npos p)%N
  end.

(** Whether the literal of a [JFloat] denotes a finite double: a number
    whose magnitude rounds to one. [NaN], [Infinity] and [-Infinity] do
    not, and neither does a number as large as [1e999]. *)
Definition float_finite (literal : string) : bool :=
  let l := PyStr.chars literal in
  let l :=
    match l with
    | c :: r => if Ascii.eqb c "-" then r else l
    | [] => l
    end in
  let (int_part, r1) := digits_run l in
  let (frac, r2) :=
    match r1 with
    | c :: r => if Ascii.eqb c "." then digits_run r else ([], r1)
    | [] => ([], r1)
    end in
  match int_part, literal_exponent r2 with
  | _ :: _, Some e =>
      below_overflow (digits_value 0 (int_part ++ frac))
        (List.length (int_part ++ frac)) (e - Z.of_nat (List.length frac))
  | _, _ => false
  end.

(** A value as [model_dump(mode='json')] writes it: a float that is not
    finite becomes [null]. *)
Fixpoint json_mode (v : json) : json :=
  match v with
  | JFloat literal => if float_finite literal then v else JNull
  | JList l => JList (map json_mode l)
  | JDict items => JDict (map (fun kv => (fst kv, json_mode (snd kv))) items)
  | _ => v
  end.

Fixpoint assoc {A : Type} (k : string) (items : list (string * A)) : option A :=
  match items with
  | [] => None
  | (k', v) :: rest => if String.eqb k' k then Some v else assoc k rest
  end.

(** [obj.get(key, default)]: only a dict has the method. *)
Definition py_get (obj : json) (key : string) (default : json) : Exn + json :=
  match obj with
  | JDict items =>
      inr (match assoc key items with Some v => v | None => default end)
  | _ => inl AttributeError
  end.

(** [for item in obj]: a list yields its elements, a dict its keys, a string
    its characters; nothing else is iterable. *)
Definition py_iter (obj : json) : Exn + list json :=
  match obj with
  | JList l => inr l
  | JDict items => inr (map (fun kv => JStr (fst kv)) items)
  | JStr s =>
      inr (map (fun c => JStr (String c EmptyString)) (PyStr.chars s))
  | _ => inl TypeError
  end.

(** Sequencing in [Exn + _]. *)
Definition bind_exn {A B : Type} (r : Exn + A) (k : A -> Exn + B) : Exn + B :=
  match r with
  | inr a => k a
  | inl e => inl e
  end.

Fixpoint map_exn {A B : Type} (f : A -> Exn + B) (l : list A) : Exn + list B :=
  match l with
  | [] => inr []
  | x :: r =>
      bind_exn (f x) (fun y => bind_exn (map_exn f r) (fun ys => inr (y :: ys)))
  end.

Fixpoint map_option {A B : Type} (f : A -> option B) (l : list A)
  : option (list B) :=
  match l with
  | [] => Some []
  | x :: r =>
      match f x, map_option f r with
      | Some y, Some ys => Some (y :: ys)
      | _, _ => None
      end
  end.

(* ================================================================== *)
(** * Models (backend/models) *)
(* ================================================================== *)

(** [class EmailCategory(str, Enum)] *)
Inductive EmailCategory : Type :=
| URGENT | ACTION_REQUIRED | INFORMATIONAL | SPAM | UNCATEGORIZED.

(** [category.value] *)
Definition category_value (c : EmailCategory) : string :=
  match c with
  | URGENT => "URGENT"
  | ACTION_REQUIRED => "ACTION_REQUIRED"
  | INFORMATIONAL => "INFORMATIONAL"
  | SPAM => "SPAM"
  | UNCATEGORIZED => "UNCATEGORIZED"
  end.

(** [for category in EmailCategory] *)
Definition all_categories : list EmailCategory :=
  [URGENT; ACTION_REQUIRED; INFORMATIONAL; SPAM; UNCATEGORIZED].

(** The by-value lookup of the enum, on a string. *)
Definition category_of_string (s : string) : option EmailCategory :=
  find (fun c => String.eqb (category_value c) s) all_categories.

(** [EmailCategory(value)]: the member whose value is [value], and
    [ValueError] when there is none; a value that is not a string equals no
    member's value. *)
Definition EmailCategory_call (value : json) : Exn + EmailCategory :=
  match value with
  | JStr s =>
      match category_of_string s with
      | Some c => inr c
      | None => inl ValueError
      end
  | _ => inl ValueError
  end.

Module ActionItem.
Record t : Type := mk {
  description : string;
  priority : string;
  deadline : option string;
  completed : bool
}.

Definition set_completed (b : bool) (a : t) : t :=
  mk (description a) (priority a) (deadline a) b.
End ActionItem.

Module Email.
Record t : Type := mk {
  id : string;
  sender : string;
  recipient : string;
  subject : string;
  body : string;
  timestamp : datetime;
  category : EmailCategory;
  (** [Optional[str]] by declaration; assignment is not validated, so the
      field holds whatever JSON value was assigned ([JNull] is [None]). *)
  category_reason : json;
  action_items : list ActionItem.t;
  has_attachments : bool;
  attachment_names : list string;
  thread_id : option string;
  is_read : bool;
  is_starred : bool;
  embedding_id : option string
}.

Definition set_category (c : EmailCategory) (e : t) : t :=
  mk (id e) (sender e) (recipient e) (subject e) (body e) (timestamp e)
     c (category_reason e) (action_items e) (has_attachments e)
     (attachment_names e) (thread_id e) (is_read e) (is_starred e)
     (embedding_id e).

Definition set_category_reason (r : json) (e : t) : t :=
  mk (id e) (sender e) (recipient e) (subject e) (body e) (timestamp e)
     (category e) r (action_items e) (has_attachments e)
     (attachment_names e) (thread_id e) (is_read e) (is_starred e)
     (embedding_id e).

Definition set_action_items (l : list ActionItem.t) (e : t) : t :=
  mk (id e) (sender e) (recipient e) (subject e) (body e) (timestamp e)
     (category e) (category_reason e) l (has_attachments e)
     (attachment_names e) (thread_id e) (is_read e) (is_starred e)
     (embedding_id e).

Definition set_embedding_id (i : option string) (e : t) : t :=
  mk (id e) (sender e) (recipient e) (subject e) (body e) (timestamp e)
     (category e) (category_reason e) (action_items e) (has_attachments e)
     (attachment_names e) (thread_id e) (is_read e) (is_starred e) i.
End Email.

(** An email as the [emails] collection holds it: the timestamp as its ISO
    text and the category as its value. *)
Module EmailDoc.
Record t : Type := mk {
  id : string;
  sender : string;
  recipient : string;
  subject : string;
  body : string;
  timestamp : string;
  category : string;
  category_reason : json;
  action_items : list ActionItem.t;
  has_attachments : bool;
  attachment_names : list string;
  thread_id : option string;
  is_read : bool;
  is_starred : bool;
  embedding_id : option string
}.
End EmailDoc.

(** [email.model_dump(mode='json')]. The reason is whatever was assigned to
    the field, written in JSON mode. *)
Definition Email_dump (e : Email.t) : EmailDoc.t :=
  EmailDoc.mk (Email.id e) (Email.sender e) (Email.recipient e)
    (Email.subject e) (Email.body e) (isoformat (Email.timestamp e))
    (category_value (Email.category e)) (json_mode (Email.category_reason e))
    (Email.action_items e) (Email.has_attachments e)
    (Email.attachment_names e) (Email.thread_id e) (Email.is_read e)
    (Email.is_starred e) (Email.embedding_id e).

(** [Email] built from the fields of a document: the document validated into a model; [None] stands for a
    validation error. *)
Definition Email_validate (d : EmailDoc.t) : option Email.t :=
  match parse_datetime (EmailDoc.timestamp d),
        category_of_string (EmailDoc.category d),
        EmailDoc.category_reason d with
  | Some ts, Some c, (JNull | JStr _) =>
      Some (Email.mk (EmailDoc.id d) (EmailDoc.sender d)
              (EmailDoc.recipient d) (EmailDoc.subject d) (EmailDoc.body d)
              ts c (EmailDoc.category_reason d) (EmailDoc.action_items d)
              (EmailDoc.has_attachments d) (EmailDoc.attachment_names d)
              (EmailDoc.thread_id d) (EmailDoc.is_read d)
              (EmailDoc.is_starred d) (EmailDoc.embedding_id d))
  | _, _, _ => None
  end.

Module EmailDraft.
Record t : Type := mk {
  id : string;
  original_email_id : option string;
  recipient : string;
  subject : string;
  body : string;
  created_at : datetime;
  updated_at : datetime;
  category : option string;
  action_items : list string;
  suggested_followups : list string;
  is_sent : bool;
  is_saved : bool
}.

Definition set_updated_at (d : datetime) (x : t) : t :=
  mk (id x) (original_email_id x) (recipient x) (subject x) (body x)
     (created_at x) d (category x) (action_items x)
     (suggested_followups x) (is_sent x) (is_saved x).
End EmailDraft.

Module DraftDoc.
Record t : Type := mk {
  id : string;
  original_email_id : option string;
  recipient : string;
  subject : string;
  body : string;
  created_at : string;
  updated_at : string;
  category : option string;
  action_items : list string;
  suggested_followups : list string;
  is_sent : bool;
  is_saved : bool
}.
End DraftDoc.

(** [draft.model_dump(mode='json')] *)
Definition EmailDraft_dump (x : EmailDraft.t) : DraftDoc.t :=
  DraftDoc.mk (EmailDraft.id x) (EmailDraft.original_email_id x)
    (EmailDraft.recipient x) (EmailDraft.subject x) (EmailDraft.body x)
    (isoformat (EmailDraft.created_at x))
    (isoformat (EmailDraft.updated_at x))
    (EmailDraft.category x) (EmailDraft.action_items x)
    (EmailDraft.suggested_followups x) (EmailDraft.is_sent x)
    (EmailDraft.is_saved x).

(** [EmailDraft] built from the fields of a document *)
Definition EmailDraft_validate (d : DraftDoc.t) : option EmailDraft.t :=
  match parse_datetime (DraftDoc.created_at d),
        parse_datetime (DraftDoc.updated_at d) with
  | Some c, Some u =>
      Some (EmailDraft.mk (DraftDoc.id d) (DraftDoc.original_email_id d)
              (DraftDoc.recipient d) (DraftDoc.subject d) (DraftDoc.body d)
              c u (DraftDoc.category d) (DraftDoc.action_items d)
              (DraftDoc.suggested_followups d) (DraftDoc.is_sent d)
              (DraftDoc.is_saved d))
  | _, _ => None
  end.

Module PromptConfig.
Record t : Type := mk {
  id : string;
  name : string;
  prompt_type : string;
  prompt_text : string;
  created_at : datetime;
  updated_at : datetime;
  is_active : bool;
  version : Z
}.
End PromptConfig.

Module PromptDoc.
Record t : Type := mk {
  id : string;
  name : string;
  prompt_type : string;
  prompt_text : string;
  created_at : string;
  updated_at : string;
  is_active : bool;
  version : Z
}.
End PromptDoc.

(** [PromptConfig] built from the fields of a document *)
Definition PromptConfig_validate (d : PromptDoc.t) : option PromptConfig.t :=
  match parse_datetime (PromptDoc.created_at d),
        parse_datetime (PromptDoc.updated_at d) with
  | Some c, Some u =>
      Some (PromptConfig.mk (PromptDoc.id d) (PromptDoc.name d)
              (PromptDoc.prompt_type d) (PromptDoc.prompt_text d) c u
              (PromptDoc.is_active d) (PromptDoc.version d))
  | _, _ => None
  end.

(** The three default prompts of [backend/config/settings.py], which the
    environment may override. *)
Record Settings : Type := mk_settings {
  default_category_prompt : string;
  default_action_prompt : string;
  default_reply_prompt : string
}.

(* ================================================================== *)
(** * The world: document store, vector index, clock and endpoint calls *)
(* ================================================================== *)

Module Vector.
(** The metadata [process_email] attaches to an indexed email. *)
Record Metadata : Type := mk_metadata {
  sender : string;
  subject : string;
  body_preview : string;
  category : string;
  timestamp : string
}.

(** One record of the index. The embedding is a function of the content
    computed by an external model; the record keeps the content. *)
Record t : Type := mk {
  id : string;
  content : string;
  metadata : Metadata
}.
End Vector.

(** The three collections are lists in natural (insertion) order.
    [clock_reads] and [llm_calls] count the readings of the clock and the
    calls of the endpoint made so far: they index the two oracles. *)
Record World : Type := mk_world {
  emails : list EmailDoc.t;
  prompts : list PromptDoc.t;
  drafts : list DraftDoc.t;
  vectors : list Vector.t;
  clock_reads : nat;
  llm_calls : nat
}.

Definition with_emails (l : list EmailDoc.t) (w : World) : World :=
  mk_world l (prompts w) (drafts w) (vectors w) (clock_reads w) (llm_calls w).
Definition with_drafts (l : list DraftDoc.t) (w : World) : World :=
  mk_world (emails w) (prompts w) l (vectors w) (clock_reads w) (llm_calls w).
Definition with_vectors (l : list Vector.t) (w : World) : World :=
  mk_world (emails w) (prompts w) (drafts w) l (clock_reads w) (llm_calls w).
Definition tick_clock (w : World) : World :=
  mk_world (emails w) (prompts w) (drafts w) (vectors w)
    (S (clock_reads w)) (llm_calls w).
Definition tick_llm (w : World) : World :=
  mk_world (emails w) (prompts w) (drafts w) (vectors w)
    (clock_reads w) (S (llm_calls w)).

(** A computation that may raise and may change the world; the world it
    leaves is returned in both cases. *)
Definition M (A : Type) : Type := World -> (Exn + A) * World.

Definition ret {A : Type} (a : A) : M A := fun w => (inr a, w).
Definition raise {A : Type} (e : Exn) : M A := fun w => (inl e, w).
Definition lift {A : Type} (r : Exn + A) : M A := fun w => (r, w).

Definition bind {A B : Type} (m : M A) (k : A -> M B) : M B :=
  fun w =>
    match m w with
    | (inr a, w') => k a w'
    | (inl e, w') => (inl e, w')
    end.

(** [try: m / except Exception as e: h e] *)
Definition try_except {A : Type} (m : M A) (h : Exn -> M A) : M A :=
  fun w =>
    match m w with
    | (inl e, w') => h e w'
    | (inr a, w') => (inr a, w')
    end.

Notation "x <- m ;; k" := (bind m (fun x => k))
  (at level 61, m at next level, right associativity).

(* ================================================================== *)
(** * Sorting *)
(* ================================================================== *)

(** [list.sort] and the cursor's [sort] as a stable insertion sort: [le x y]
    says that [x] may stand before [y]; an element goes before the first one
    it may stand before, so elements that compare equal keep their order. *)
Section Sorting.
Context {A : Type}.
Variable le : A -> A -> bool.

Fixpoint insert (x : A) (l : list A) : list A :=
  match l with
  | [] => [x]
  | y :: r => if le x y then x :: l else y :: insert x r
  end.

Fixpoint sort (l : list A) : list A :=
  match l with
  | [] => []
  | x :: r => insert x (sort r)
  end.
End Sorting.

(** [l.sort(key=key)] with integer keys *)
Definition key_leb {A : Type} (key : A -> nat) (x y : A) : bool :=
  Nat.leb (key x) (key y).

Definition sort_by_key {A : Type} (key : A -> nat) (l : list A) : list A :=
  sort (key_leb key) l.

(* ================================================================== *)
(** * DatabaseService (backend/services/database_service.py) *)
(* ================================================================== *)

(** [collection.update_one({"id": id}, {"$set": doc}, upsert=True)], where
    [doc] carries every field of the collection's documents: the first
    document with that id is replaced, and the document is appended when
    there is none. *)
Fixpoint update_one {D : Type} (id_of : D -> string) (id : string) (doc : D)
  (coll : list D) : list D :=
  match coll with
  | [] => [doc]
  | d :: rest =>
      if String.eqb (id_of d) id then doc :: rest
      else d :: update_one id_of id doc rest
  end.

(** [collection.find_one({"id": id})] *)
Definition find_one {D : Type} (id_of : D -> string) (id : string)
  (coll : list D) : option D :=
  find (fun d => String.eqb (id_of d) id) coll.

Definition save_email (email : Email.t) : M string :=
  fun w =>
    (inr (Email.id email),
     with_emails
       (update_one EmailDoc.id (Email.id email) (Email_dump email) (emails w))
       w).

(** An email that fails validation is logged and reported as absent. *)
Definition get_email (email_id : string) (w : World) : option Email.t :=
  match find_one EmailDoc.id email_id (emails w) with
  | Some doc => Email_validate doc
  | None => None
  end.

(** [cursor.limit(n)]: a limit of zero asks for no limit. *)
Definition cursor_limit {D : Type} (limit : nat) (l : list D) : list D :=
  match limit with
  | O => l
  | S _ => firstn limit l
  end.

(** [find(query).sort("timestamp", DESCENDING).skip(skip).limit(limit)]; one
    document of the page that fails validation makes the whole call return
    the empty list. *)
Definition get_all_emails (skip limit : nat) (category : option EmailCategory)
  (w : World) : list Email.t :=
  let query (d : EmailDoc.t) :=
    match category with
    | Some c => String.eqb (EmailDoc.category d) (category_value c)
    | None => true
    end in
  let cursor :=
    cursor_limit limit
      (skipn skip
         (sort (fun a b => String.leb (EmailDoc.timestamp b) (EmailDoc.timestamp a))
            (filter query (emails w)))) in
  match map_option Email_validate cursor with
  | Some l => l
  | None => []
  end.

Definition get_active_prompt (prompt_type : string) (w : World)
  : option PromptConfig.t :=
  match find (fun d => String.eqb (PromptDoc.prompt_type d) prompt_type
                       && PromptDoc.is_active d) (prompts w) with
  | Some doc => PromptConfig_validate doc
  | None => None
  end.

Definition get_draft (draft_id : string) (w : World) : option EmailDraft.t :=
  match find_one DraftDoc.id draft_id (drafts w) with
  | Some doc => EmailDraft_validate doc
  | None => None
  end.

(* ================================================================== *)
(** * Sample collaborators *)
(* ================================================================== *)

(** Concrete collaborators on which the back end can be run: a decoder of
    JSON texts in the 256 characters of this development, with the limits
    of the interpreter (nesting, digits of an integer), a clock, a scripted
    endpoint, two indexes and the default settings. The theorems below hold
    for every decoder, clock, endpoint and index; these serve to evaluate
    the back end on concrete inputs. *)
Module Sample.

Definition is_ws (c : ascii) : bool :=
  Ascii.eqb c " " || Ascii.eqb c "009" || Ascii.eqb c "010" || Ascii.eqb c "013".

Fixpoint skip_ws (l : list ascii) : list ascii :=
  match l with
  | c :: r => if is_ws c then skip_ws r else l
  | [] => []
  end.

Definition hex_val (c : ascii) : option N :=
  let n := N_of_ascii c in
  if ((48 <=? n) && (n <=? 57))%N then Some (n - 48)%N
  else if ((65 <=? n) && (n <=? 70))%N then Some (n - 55)%N
  else if ((97 <=? n) && (n <=? 102))%N then Some (n - 87)%N
  else None.

(** The character an escape stands for. An escape [\uXXXX] above U+00FF
    denotes a character outside the strings of this development and is
    turned down. *)
Definition read_escape (l : list ascii) : option (ascii * list ascii) :=
  match l with
  | c :: r =>
      if Ascii.eqb c "034" then Some ("034"%char, r)
      else if Ascii.eqb c "\" then Some ("\"%char, r)
      else if Ascii.eqb c "/" then Some ("/"%char, r)
      else if Ascii.eqb c "b" then Some ("008"%char, r)
      else if Ascii.eqb c "f" then Some ("012"%char, r)
      else if Ascii.eqb c "n" then Some ("010"%char, r)
      else if Ascii.eqb c "r" then Some ("013"%char, r)
      else if Ascii.eqb c "t" then Some ("009"%char, r)
      else if Ascii.eqb c "u" then
        match r with
        | h1 :: h2 :: h3 :: h4 :: r' =>
            match hex_val h1, hex_val h2, hex_val h3, hex_val h4 with
            | Some 0%N, Some 0%N, Some a, Some b =>
                Some (ascii_of_N (16 * a + b), r')
            | _, _, _, _ => None
            end
        | _ => None
        end
      else None
  | [] => None
  end.

(** The characters up to the closing quote, escapes decoded; a control
    character is not allowed in a string. *)
Fixpoint read_string (fuel : nat) (acc : list ascii) (l : list ascii)
  : option (string * list ascii) :=
  match fuel with
  | O => None
  | S fuel' =>
      match l with
      | [] => None
      | c :: r =>
          if Ascii.eqb c "034" then Some (PyStr.of_chars (rev acc), r)
          else if Ascii.eqb c "\" then
            match read_escape r with
            | Some (c', r') => read_string fuel' (c' :: acc) r'
            | None => None
            end
          else if (N_of_ascii c <? 32)%N then None
          else read_string fuel' (c :: acc) r
      end
  end.

(** The integer part of a number: [0], or a run of digits that does not
    start with [0]. *)
Definition read_int_part (l : list ascii) : option (list ascii * list ascii) :=
  match l with
  | c :: r =>
      if Ascii.eqb c "0" then Some ([c], r)
      else
        match digits_run l with
        | ([], _) => None
        | (ds, rest) => Some (ds, rest)
        end
  | [] => None
  end.

(** [.digits], when it is there *)
Definition read_frac_part (l : list ascii) : list ascii * list ascii :=
  match l with
  | c :: r =>
      if Ascii.eqb c "." then
        match digits_run r with
        | ([], _) => ([], l)
        | (ds, rest) => (c :: ds, rest)
        end
      else ([], l)
  | [] => ([], l)
  end.

(** [e], a sign and digits, when they are there *)
Definition read_exp_part (l : list ascii) : list ascii * list ascii :=
  match l with
  | c :: r =>
      if Ascii.eqb c "e" || Ascii.eqb c "E" then
        let (sign, r1) :=
          match r with
          | c1 :: r' =>
              if Ascii.eqb c1 "+" || Ascii.eqb c1 "-" then ([c1], r') else ([], r)
          | [] => ([], r)
          end in
        match digits_run r1 with
        | ([], _) => ([], l)
        | (ds, rest) => (c :: sign ++ ds, rest)
        end
      else ([], l)
  | [] => ([], l)
  end.

(** A number without its sign: an integer unless a fraction or an exponent
    follows. The conversion of an integer of more than 4300 digits raises
    [ValueError]. *)
Definition read_number (negative : bool) (l : list ascii)
  : Exn + (json * list ascii) :=
  match read_int_part l with
  | None => inl JSONDecodeError
  | Some (int_part, r1) =>
      let (frac, r2) := read_frac_part r1 in
      let (exp, r3) := read_exp_part r2 in
      match frac, exp with
      | [], [] =>
          if Nat.ltb 4300 (List.length int_part) then inl ValueError
          else
            let n := Z.of_N (digits_value 0 int_part) in
            inr (JInt (if negative then (- n)%Z else n), r3)
      | _, _ =>
          inr (JFloat (PyStr.of_chars
                         ((if negative then ["-"%char] else [])
                            ++ int_part ++ frac ++ exp)), r3)
      end
  end.

(** [d[k] = v] on the items of a dict *)
Fixpoint dict_set (k : string) (v : json) (items : list (string * json))
  : list (string * json) :=
  match items with
  | [] => [(k, v)]
  | (k', v') :: rest =>
      if String.eqb k' k then (k', v) :: rest
      else (k', v') :: dict_set k v rest
  end.

Definition literal (word : string) (v : json) (l : list ascii)
  : option (json * list ascii) :=
  if PyStr.is_prefix (PyStr.chars word) l
  then Some (v, skipn (String.length word) l)
  else None.

(** The words of the language, those the decoder accepts beyond JSON
    included. *)
Definition read_literal (l : list ascii) : Exn + (json * list ascii) :=
  match literal "null" JNull l with
  | Some x => inr x
  | None =>
  match literal "true" (JBool true) l with
  | Some x => inr x
  | None =>
  match literal "false" (JBool false) l with
  | Some x => inr x
  | None =>
  match literal "NaN" (JFloat "NaN") l with
  | Some x => inr x
  | None =>
  match literal "Infinity" (JFloat "Infinity") l with
  | Some x => inr x
  | None =>
  match literal "-Infinity" (JFloat "-Infinity") l with
  | Some x => inr x
  | None => inl JSONDecodeError
  end end end end end end.

(** The scanner. [depth] is the nesting the interpreter still allows: an
    array or an object met when none is left raises [RecursionError], before
    the rest of the text is looked at. [fuel] bounds the length of the
    text. *)
Fixpoint value (fuel depth : nat) (l : list ascii) {struct fuel}
  : Exn + (json * list ascii) :=
  match fuel with
  | O => inl JSONDecodeError
  | S fuel' =>
      match l with
      | [] => inl JSONDecodeError
      | c :: r =>
          if Ascii.eqb c "{" then
            match depth with
            | O => inl RecursionError
            | S depth' =>
                match skip_ws r with
                | c' :: r' =>
                    if Ascii.eqb c' "}" then inr (JDict [], r')
                    else members fuel' depth' [] (c' :: r')
                | [] => inl JSONDecodeError
                end
            end
          else if Ascii.eqb c "[" then
            match depth with
            | O => inl RecursionError
            | S depth' =>
                match skip_ws r with
                | c' :: r' =>
                    if Ascii.eqb c' "]" then inr (JList [], r')
                    else elements fuel' depth' [] (c' :: r')
                | [] => inl JSONDecodeError
                end
            end
          else if Ascii.eqb c "034" then
            match read_string fuel' [] r with
            | Some (s, r') => inr (JStr s, r')
            | None => inl JSONDecodeError
            end
          else if Ascii.eqb c "-" then
            match r with
            | c' :: _ =>
                match digit_val c' with
                | Some _ => read_number true r
                | None => read_literal l
                end
            | [] => inl JSONDecodeError
            end
          else
            match digit_val c with
            | Some _ => read_number false l
            | None => read_literal l
            end
      end
  end
with members (fuel depth : nat) (acc : list (string * json)) (l : list ascii)
  {struct fuel} : Exn + (json * list ascii) :=
  match fuel with
  | O => inl JSONDecodeError
  | S fuel' =>
      match l with
      | c :: r =>
          if Ascii.eqb c "034" then
            match read_string fuel' [] r with
            | Some (k, r1) =>
                match skip_ws r1 with
                | c1 :: r2 =>
                    if Ascii.eqb c1 ":" then
                      match value fuel' depth (skip_ws r2) with
                      | inr (v, r3) =>
                          match skip_ws r3 with
                          | c3 :: r4 =>
                              if Ascii.eqb c3 "," then
                                members fuel' depth (dict_set k v acc) (skip_ws r4)
                              else if Ascii.eqb c3 "}" then
                                inr (JDict (dict_set k v acc), r4)
                              else inl JSONDecodeError
                          | [] => inl JSONDecodeError
                          end
                      | inl e => inl e
                      end
                    else inl JSONDecodeError
                | [] => inl JSONDecodeError
                end
            | None => inl JSONDecodeError
            end
          else inl JSONDecodeError
      | [] => inl JSONDecodeError
      end
  end
with elements (fuel depth : nat) (acc : list json) (l : list ascii)
  {struct fuel} : Exn + (json * list ascii) :=
  match fuel with
  | O => inl JSONDecodeError
  | S fuel' =>
      match value fuel' depth l with
      | inr (v, r) =>
          match skip_ws r with
          | c :: r' =>
              if Ascii.eqb c "," then elements fuel' depth (acc ++ [v]) (skip_ws r')
              else if Ascii.eqb c "]" then inr (JList (acc ++ [v]), r')
              else inl JSONDecodeError
          | [] => inl JSONDecodeError
          end
      | inl e => inl e
      end
  end.

(** The nesting the sample interpreter allows. *)
Definition recursion_limit : nat := 990.

(** The sample decoder: the whole text is one value between whitespace. *)
Definition json_loads (s : string) : Exn + json :=
  match value (S (String.length s)) recursion_limit (skip_ws (PyStr.chars s)) with
  | inr (v, rest) =>
      match skip_ws rest with
      | [] => inr v
      | _ :: _ => inl JSONDecodeError
      end
  | inl e => inl e
  end.

Definition pydantic_bool (v : json) : option bool :=
  match v with
  | JBool b => Some b
  | JInt 0 => Some false
  | JInt 1 => Some true
  | _ => None
  end.

Definition now_at (n : nat) : datetime :=
  mk_datetime 2024 3 1 12 0 (N.of_nat n mod 60) 250000.

Definition timestamp_str (d : datetime) : string :=
  PyStr.of_chars
    (zfill 2 (hour d) ++ zfill 2 (minute d) ++ zfill 2 (second d)
       ++ "."%char :: zfill 6 (microsecond d)).

(** An endpoint that answers its [n]-th call with the [n]-th entry of a
    script, and fails once the script is used up. *)
Definition endpoint (script : list (Exn + string)) (n : nat) (prompt : string)
  : Exn + string :=
  nth n script (inl (EndpointError "unavailable")).

(** An index that takes every record, and one that is out of reach. *)
Definition index_up (w : World) (record : Vector.t) : Exn + unit := inr tt.


(** The defaults of [backend/config/settings.py]. *)
Definition settings : Settings :=
  mk_settings
    (String.concat PyStr.nl
       ["You are an email categorization assistant. ";
        "    Categorize the email into one of these categories: ";
        "    - URGENT: Requires immediate attention";
        "    - ACTION_REQUIRED: Needs response or action";
        "    - INFORMATIONAL: FYI, no action needed";
        "    - SPAM: Unwanted or promotional";
        "    ";
        "    Provide category and brief reason."])
    (String.concat PyStr.nl
       ["Extract action items from this email. ";
        "    List each action item with:";
        "    - Description of the task";
        "    - Priority (High/Medium/Low)";
        "    - Deadline if mentioned";
        "    ";
        "    If no action items, respond with "
          +++ PyStr.quoted "No action items found" +++ "."])
    (String.concat PyStr.nl
       ["Draft a professional email reply based on:";
        "    - Original email context";
        "    - Professional and courteous tone";
        "    - Address all key points";
        "    - Keep it concise (2-3 paragraphs)";
        "    ";
        "    Do not include subject line."]).

(** A store, an email, a draft and two answers of the model. *)
Definition empty_world : World := mk_world [] [] [] [] 0 0.

Definition status_email : Email.t :=
  Email.mk "e1" "alice@example.com" "me@example.com" "Status Update"
    "Please send the report by Friday." (mk_datetime 2024 1 5 9 30 0 0)
    UNCATEGORIZED JNull [] false [] None false false None.

Definition report_doc : EmailDoc.t :=
  EmailDoc.mk "e1" "alice@example.com" "me@example.com" "Status Update"
    "Please send the report by Friday." "2024-01-05T09:30:00"
    "ACTION_REQUIRED" (JStr "asks for a report")
    [ActionItem.mk "Book room" "Low" None false;
     ActionItem.mk "Send report" "High" (Some "Friday") false;
     ActionItem.mk "Send report" "Medium" None false]
    false [] None false false None.

Definition memo_doc : EmailDoc.t :=
  EmailDoc.mk "e2" "bob@example.com" "me@example.com" "Memo"
    "Expenses are due." "2024-01-06T08:00:00.500000"
    "INFORMATIONAL" JNull
    [ActionItem.mk "Read memo" "Whenever" None false;
     ActionItem.mk "File expenses" "High" None true]
    false [] None true false None.

Definition inbox : World := mk_world [report_doc; memo_doc] [] [] [] 0 0.

Definition reply_draft : EmailDraft.t :=
  EmailDraft.mk "d1" (Some "e1") "alice@example.com" "Re: Status Update"
    "Will do." (mk_datetime 2024 1 5 10 0 0 0) (mk_datetime 2024 1 5 10 0 0 0)
    (Some "ACTION_REQUIRED") ["Send report"] [] false true.

(** A fenced JSON answer whose label is not a member of the enum. *)
Definition important_response : string :=
  "```json" +++ PyStr.nl
    +++ "{" +++ PyStr.quoted "category" +++ ": " +++ PyStr.quoted "IMPORTANT"
    +++ ", " +++ PyStr.quoted "reason" +++ ": "
    +++ PyStr.quoted "From the manager" +++ "}" +++ PyStr.nl
    +++ "```" +++ PyStr.nl.

Definition important_fields : list (string * json) :=
  [("category", JStr "IMPORTANT"); ("reason", JStr "From the manager")].

(** The answer the default action prompt asks for when there is nothing
    to extract: it is not JSON. *)
Definition plain_response : string := "No action items found".

(** An answer far from JSON: five thousand opening brackets. *)
Definition deep_response : string :=
  PyStr.of_chars (repeat "["%char (50 * 100)).

(** An answer with a label of the enum. *)
Definition urgent_response : string :=
  "{" +++ PyStr.quoted "category" +++ ": " +++ PyStr.quoted "URGENT"
    +++ ", " +++ PyStr.quoted "reason" +++ ": "
    +++ PyStr.quoted "Deadline on Friday" +++ "}".

(** A document written by another program, with a label the enum lacks. *)
Definition foreign_doc : EmailDoc.t :=
  EmailDoc.mk "e3" "carol@example.com" "me@example.com" "Invoice"
    "Invoice attached." "2024-01-07T10:00:00"
    "IMPORTANT" JNull [] false [] None false false None.

End Sample.

(* ================================================================== *)
(** * The back end, over its external collaborators *)
(* ================================================================== *)

Section Backend.

(** The settings in force. *)
Variable settings : Settings.

(** [json.loads]: the decoded value, or the exception it raises. *)
Variable json_loads : string -> Exn + json.

(** The validating library's reading of a JSON value as a [bool] field. *)
Variable pydantic_bool : json -> option bool.

(** [datetime.now()]: the reading the clock gives the [n]-th time it is
    asked; and [str(d.timestamp())], which depends on the local zone. *)
Variable now_at : nat -> datetime.
Variable timestamp_str : datetime -> string.

(** [model.generate_content(prompt, ...).text]: what the [n]-th call of
    the endpoint answers to [prompt], or the exception it raises. The
    sampling temperature and the token budget go to the endpoint only. *)
Variable endpoint : nat -> string -> Exn + string.

(** What computing the embedding of a record's content and writing the
    record to the index come to, in a given state: they go through, or one
    of them raises. *)
Variable index_upsert : World -> Vector.t -> Exn + unit.

Set Default Proof Using "Type".

Definition now : M datetime :=
  fun w => (inr (now_at (clock_reads w)), tick_clock w).

Definition lines (l : list string) : string := String.concat PyStr.nl l.

(* ---------------------------------------------------------------- *)
(** ** LLMService (backend/services/llm_service.py) *)

(** One call of the endpoint per attempt; [RetryError] when the attempts
    are used up. *)
Fixpoint generate_attempts (attempts : nat) (prompt : string) : M string :=
  match attempts with
  | O => raise RetryError
  | S n =>
      fun w =>
        match endpoint (llm_calls w) prompt with
        | inr text => (inr text, tick_llm w)
        | inl _ => generate_attempts n prompt (tick_llm w)
        end
  end.

(** [@retry(stop=stop_after_attempt(3), ...)] *)
Definition generate_text (prompt : string) : M string :=
  generate_attempts 3 prompt.

(** The cleaning both JSON helpers apply before [json.loads]. *)
Definition response_clean (response : string) : string :=
  let c := PyStr.strip response in
  let c := if PyStr.startswith c "```json" then PyStr.slice_from 7 c else c in
  let c := if PyStr.endswith c "```" then PyStr.slice_drop_last 3 c else c in
  PyStr.strip c.

Definition categorize_full_prompt (email_content : string)
  (custom_prompt : option string) : string :=
  let prompt := PyStr.or_else custom_prompt (default_category_prompt settings) in
  lines [prompt; ""; "Email Content:"; email_content; "";
         "Respond in JSON format:"; "{";
         "    " +++ PyStr.quoted "category" +++ ": "
           +++ PyStr.quoted "URGENT|ACTION_REQUIRED|INFORMATIONAL|SPAM" +++ ",";
         "    " +++ PyStr.quoted "reason" +++ ": "
           +++ PyStr.quoted "brief explanation";
         "}"].

Definition uncategorized_default : json :=
  JDict [("category", JStr "UNCATEGORIZED");
         ("reason", JStr "Unable to categorize")].

Definition categorize_email (email_content : string)
  (custom_prompt : option string) : M json :=
  response <- generate_text (categorize_full_prompt email_content custom_prompt) ;;
  match json_loads (response_clean response) with
  | inr result => ret result
  | inl JSONDecodeError => ret uncategorized_default
  | inl e => raise e
  end.

Definition extract_full_prompt (email_content : string)
  (custom_prompt : option string) : string :=
  let prompt := PyStr.or_else custom_prompt (default_action_prompt settings) in
  lines [prompt; ""; "Email Content:"; email_content; "";
         "Respond in JSON format:"; "{";
         "    " +++ PyStr.quoted "action_items" +++ ": [";
         "        {";
         "            " +++ PyStr.quoted "description" +++ ": "
           +++ PyStr.quoted "task description" +++ ",";
         "            " +++ PyStr.quoted "priority" +++ ": "
           +++ PyStr.quoted "High|Medium|Low" +++ ",";
         "            " +++ PyStr.quoted "deadline" +++ ": "
           +++ PyStr.quoted "deadline if mentioned or null";
         "        }";
         "    ]";
         "}"].

Definition extract_action_items (email_content : string)
  (custom_prompt : option string) : M json :=
  response <- generate_text (extract_full_prompt email_content custom_prompt) ;;
  match json_loads (response_clean response) with
  | inr result => lift (py_get result "action_items" (JList []))
  | inl JSONDecodeError => ret (JList [])
  | inl e => raise e
  end.

Definition draft_reply (original_email : string) (context : option string)
  (custom_prompt : option string) : M string :=
  let prompt := PyStr.or_else custom_prompt (default_reply_prompt settings) in
  let context_str :=
    match context with
    | Some c =>
        if PyStr.truthy c
        then PyStr.nl +++ PyStr.nl +++ "Additional Context:" +++ PyStr.nl +++ c
        else ""
    | None => ""
    end in
  response <- generate_text
    (lines [prompt; ""; "Original Email:"; original_email; context_str; "";
            "Draft Reply:"]) ;;
  ret (PyStr.strip response).

(* ---------------------------------------------------------------- *)
(** ** DatabaseService.save_draft *)

(** The method returns the id; it also assigns [updated_at] on the object
    it was given, so the model returns that object as it is left. *)
Definition save_draft (draft : EmailDraft.t) : M (string * EmailDraft.t) :=
  t <- now ;;
  let draft := EmailDraft.set_updated_at t draft in
  fun w =>
    (inr (EmailDraft.id draft, draft),
     with_drafts
       (update_one DraftDoc.id (EmailDraft.id draft) (EmailDraft_dump draft)
          (drafts w))
       w).

(* ---------------------------------------------------------------- *)
(** ** The prompt every agent resolves before it calls the model *)

(** [if not custom_prompt: prompt_config = get_active_prompt(prompt_type);
     if prompt_config: custom_prompt = prompt_config.prompt_text] *)
Definition resolve_prompt (prompt_type : string)
  (custom_prompt : option string) (w : World) : option string :=
  let given :=
    match custom_prompt with Some s => PyStr.truthy s | None => false end in
  if given then custom_prompt
  else
    match get_active_prompt prompt_type w with
    | Some prompt_config => Some (PromptConfig.prompt_text prompt_config)
    | None => custom_prompt
    end.

(* ---------------------------------------------------------------- *)
(** ** CategorizationAgent (backend/agents/categorization_agent.py) *)

Definition agent_email_content (email : Email.t) : string :=
  lines [""; "Subject: " +++ Email.subject email;
         "From: " +++ Email.sender email;
         "To: " +++ Email.recipient email;
         "Date: " +++ DateTime.str (Email.timestamp email);
         ""; "Body:"; Email.body email; ""].

(** [try: EmailCategory(result.get('category', 'UNCATEGORIZED'))
     except ValueError: EmailCategory.UNCATEGORIZED] *)
Definition category_or_uncategorized (result : json) : Exn + EmailCategory :=
  match bind_exn (py_get result "category" (JStr "UNCATEGORIZED"))
          EmailCategory_call with
  | inl ValueError => inr UNCATEGORIZED
  | r => r
  end.

(** The method returns the email it was given, after assigning to it. *)
Definition categorize_single_email (email : Email.t)
  (custom_prompt : option string) : M Email.t :=
  fun w =>
    let custom_prompt := resolve_prompt "categorization" custom_prompt w in
    (result <- categorize_email (agent_email_content email) custom_prompt ;;
     category <- lift (category_or_uncategorized result) ;;
     let email := Email.set_category category email in
     reason <- lift (py_get result "reason" (JStr "No reason provided")) ;;
     let email := Email.set_category_reason reason email in
     _ <- save_email email ;;
     ret email) w.

(* ---------------------------------------------------------------- *)
(** ** ActionItemAgent (backend/agents/action_item_agent.py) *)

(** One entry of the aggregate: the dict with the keys [email_id],
    [email_subject], [email_sender] and [action_item]. *)
Record Entry : Type := mk_entry {
  email_id : string;
  email_subject : string;
  email_sender : string;
  action_item : ActionItem.t
}.

(** The two nested loops that fill [all_action_items]. *)
Definition collect_action_items (include_completed : bool)
  (emails : list Email.t) : list Entry :=
  flat_map
    (fun email =>
       map (mk_entry (Email.id email) (Email.subject email) (Email.sender email))
         (filter
            (fun a => include_completed || negb (ActionItem.completed a))
            (Email.action_items email)))
    emails.

(** [priority_order.get(priority, 3)] with
    [priority_order = {"High": 0, "Medium": 1, "Low": 2}] *)
Definition priority_order (priority : string) : nat :=
  if String.eqb priority "High" then 0
  else if String.eqb priority "Medium" then 1
  else if String.eqb priority "Low" then 2
  else 3.

Definition entry_key (x : Entry) : nat :=
  priority_order (ActionItem.priority (action_item x)).

Definition get_all_action_items (include_completed : bool) (w : World)
  : list Entry :=
  let emails := get_all_emails 0 1000 None w in
  sort_by_key entry_key (collect_action_items include_completed emails).

(** The loop of [mark_action_item_complete]: the first item with that
    description gets [completed = True]; [None] when the loop finds none. *)
Fixpoint complete_first (description : string) (items : list ActionItem.t)
  : option (list ActionItem.t) :=
  match items with
  | [] => None
  | a :: rest =>
      if String.eqb (ActionItem.description a) description
      then Some (ActionItem.set_completed true a :: rest)
      else
        match complete_first description rest with
        | Some rest' => Some (a :: rest')
        | None => None
        end
  end.

Definition mark_action_item_complete (email_id : string)
  (action_item_description : string) (w : World) : bool * World :=
  match get_email email_id w with
  | None => (false, w)
  | Some email =>
      match complete_first action_item_description (Email.action_items email) with
      | Some items =>
          match save_email (Email.set_action_items items email) w with
          | (inr _, w') => (true, w')
          | (inl _, w') => (false, w')
          end
      | None => (false, w)
      end
  end.

(** [get_all_action_items()] is called with its default argument. *)
Definition get_action_items_by_priority (priority : string) (w : World)
  : list Entry :=
  let all_items := get_all_action_items false w in
  filter
    (fun item => String.eqb (ActionItem.priority (action_item item)) priority)
    all_items.

(* ---------------------------------------------------------------- *)
(** ** DraftAgent (backend/agents/draft_agent.py) *)

(** The characters [lstrip] removes from a follow-up line: the hyphen, the
    star, and those of the bullet as the source file spells it, of which
    U+00E2 and U+00A2 are within the 8-bit range. *)
Definition bullet_chars : string :=
  String "-" (String "226" (String "162" (String "*" EmptyString))).

Definition followup_lines (response : string) : list string :=
  firstn 3
    (map (fun line => PyStr.strip (PyStr.lstrip_set bullet_chars (PyStr.strip line)))
       (filter
          (fun line =>
             PyStr.truthy (PyStr.strip line)
             && negb (PyStr.startswith (PyStr.strip line) "#"))
          (PyStr.split "010" response))).

Definition _generate_followups (original_email : Email.t) (reply_body : string)
  : M (list string) :=
  try_except
    (response <- generate_text
       (lines ["Based on this email conversation, suggest 2-3 brief follow-up actions:";
               ""; "Original Email:";
               "Subject: " +++ Email.subject original_email;
               PyStr.slice_to 300 (Email.body original_email);
               ""; "Reply:"; PyStr.slice_to 300 reply_body; "";
               "List follow-up actions (one per line):"]) ;;
     ret (followup_lines response))
    (fun _ => ret []).

Definition generate_reply_draft (original_email : Email.t)
  (additional_context : option string) (custom_prompt : option string)
  : M EmailDraft.t :=
  fun w =>
    let custom_prompt := resolve_prompt "reply_draft" custom_prompt w in
    let original_content :=
      lines [""; "Subject: " +++ Email.subject original_email;
             "From: " +++ Email.sender original_email;
             "Date: " +++ DateTime.str (Email.timestamp original_email);
             ""; Email.body original_email; ""] in
    (reply_body <- draft_reply original_content additional_context custom_prompt ;;
     let subject :=
       if PyStr.startswith (Email.subject original_email) "Re: "
       then Email.subject original_email
       else "Re: " +++ Email.subject original_email in
     followups <- _generate_followups original_email reply_body ;;
     id_time <- now ;;
     created_at <- now ;;
     updated_at <- now ;;
     let draft :=
       EmailDraft.mk (timestamp_str id_time) (Some (Email.id original_email))
         (Email.sender original_email) subject reply_body created_at updated_at
         (Some (category_value (Email.category original_email)))
         (map ActionItem.description (Email.action_items original_email))
         followups false true in
     saved <- save_draft draft ;;
     ret (snd saved)) w.

(* ---------------------------------------------------------------- *)
(** ** EmailService.process_email (backend/services/email_service.py) *)

Definition str_field (fields : list (string * json)) (key : string)
  (default : option string) : Exn + string :=
  match assoc key fields, default with
  | Some (JStr s), _ => inr s
  | Some _, _ => inl ValidationError
  | None, Some d => inr d
  | None, None => inl ValidationError
  end.

Definition optional_str_field (fields : list (string * json)) (key : string)
  : Exn + option string :=
  match assoc key fields with
  | Some (JStr s) => inr (Some s)
  | Some JNull | None => inr None
  | Some _ => inl ValidationError
  end.

Definition bool_field (fields : list (string * json)) (key : string)
  (default : bool) : Exn + bool :=
  match assoc key fields with
  | Some v =>
      match pydantic_bool v with
      | Some b => inr b
      | None => inl ValidationError
      end
  | None => inr default
  end.

(** [ActionItem] built from the keywords of [item]: [description] is
    required, [priority] defaults to ["Medium"], [deadline] to [None],
    [completed] to [False]; other keys are ignored; what is not a dict
    cannot be unpacked. *)
Definition ActionItem_call (item : json) : Exn + ActionItem.t :=
  match item with
  | JDict fields =>
      bind_exn (str_field fields "description" None) (fun description =>
      bind_exn (str_field fields "priority" (Some "Medium")) (fun priority =>
      bind_exn (optional_str_field fields "deadline") (fun deadline =>
      bind_exn (bool_field fields "completed" false) (fun completed =>
      inr (ActionItem.mk description priority deadline completed)))))
  | _ => inl TypeError
  end.

(* ---------------------------------------------------------------- *)
(** ** VectorService.upsert_email (backend/services/vector_service.py) *)

(** The embedding is computed and the record written under its id,
    replacing the record of that id; an exception of either step is logged
    and raised again, and then the index is as it was. *)
Definition upsert_email (email_id email_content : string)
  (metadata : Vector.Metadata) : M string :=
  fun w =>
    let record := Vector.mk email_id email_content metadata in
    match index_upsert w record with
    | inr _ =>
        (inr email_id,
         with_vectors (update_one Vector.id email_id record (vectors w)) w)
    | inl e => (inl e, w)
    end.

Definition service_email_content (email : Email.t) : string :=
  "Subject: " +++ Email.subject email +++ PyStr.nl +++ PyStr.nl
    +++ "Body: " +++ Email.body email.

Definition process_email (email : Email.t)
  (categorization_prompt action_item_prompt : option string) : M Email.t :=
  let email_content := service_email_content email in
  category_result <- categorize_email email_content categorization_prompt ;;
  category <- lift (bind_exn (py_get category_result "category" (JStr "UNCATEGORIZED"))
                      EmailCategory_call) ;;
  let email := Email.set_category category email in
  reason <- lift (py_get category_result "reason" (JStr "")) ;;
  let email := Email.set_category_reason reason email in
  action_items <- extract_action_items email_content action_item_prompt ;;
  items <- lift (bind_exn (py_iter action_items) (map_exn ActionItem_call)) ;;
  let email := Email.set_action_items items email in
  _ <- save_email email ;;
  let metadata :=
    Vector.mk_metadata (Email.sender email) (Email.subject email)
      (PyStr.slice_to 200 (Email.body email))
      (category_value (Email.category email))
      (isoformat (Email.timestamp email)) in
  embedding_id <- upsert_email (Email.id email) email_content metadata ;;
  ret (Email.set_embedding_id (Some embedding_id) email).

(* ---------------------------------------------------------------- *)
(** ** DatabaseService: counts, prompts and drafts *)

(** [collection.delete_one({"id": id})]: the first document with that id
    goes; nothing changes when there is none. *)
Fixpoint delete_one {D : Type} (id_of : D -> string) (id : string)
  (coll : list D) : list D :=
  match coll with
  | [] => []
  | d :: rest =>
      if String.eqb (id_of d) id then rest
      else d :: delete_one id_of id rest
  end.

(** [count_documents(query)] *)
Definition get_email_count (category : option EmailCategory) (w : World) : nat :=
  List.length
    (filter
       (fun d : EmailDoc.t =>
          match category with
          | Some c => String.eqb (EmailDoc.category d) (category_value c)
          | None => true
          end)
       (emails w)).

(** [prompt.model_dump(mode='json')] *)
Definition PromptConfig_dump (p : PromptConfig.t) : PromptDoc.t :=
  PromptDoc.mk (PromptConfig.id p) (PromptConfig.name p)
    (PromptConfig.prompt_type p) (PromptConfig.prompt_text p)
    (isoformat (PromptConfig.created_at p))
    (isoformat (PromptConfig.updated_at p))
    (PromptConfig.is_active p) (PromptConfig.version p).

Definition with_prompts (l : list PromptDoc.t) (w : World) : World :=
  mk_world (emails w) l (drafts w) (vectors w) (clock_reads w) (llm_calls w).

Definition save_prompt (prompt : PromptConfig.t) : M string :=
  fun w =>
    (inr (PromptConfig.id prompt),
     with_prompts
       (update_one PromptDoc.id (PromptConfig.id prompt)
          (PromptConfig_dump prompt) (prompts w))
       w).

(** [find().sort("updated_at", DESCENDING).skip(skip).limit(limit)] *)
Definition get_all_drafts (skip limit : nat) (w : World) : list EmailDraft.t :=
  let cursor :=
    cursor_limit limit
      (skipn skip
         (sort (fun a b => String.leb (DraftDoc.updated_at b) (DraftDoc.updated_at a))
            (drafts w))) in
  match map_option EmailDraft_validate cursor with
  | Some l => l
  | None => []
  end.

Definition delete_draft (draft_id : string) : M unit :=
  fun w =>
    (inr tt, with_drafts (delete_one DraftDoc.id draft_id (drafts w)) w).

(* ---------------------------------------------------------------- *)
(** ** CategorizationAgent: the batch and the statistics *)

(** The loop of [recategorize_all_emails]: an email whose categorization
    raises is logged and skipped. *)
Fixpoint recategorize_loop (emails : list Email.t)
  (custom_prompt : option string) (count : nat) (w : World) : nat * World :=
  match emails with
  | [] => (count, w)
  | email :: rest =>
      match categorize_single_email email custom_prompt w with
      | (inr _, w') => recategorize_loop rest custom_prompt (S count) w'
      | (inl _, w') => recategorize_loop rest custom_prompt count w'
      end
  end.

Definition recategorize_all_emails (custom_prompt : option string) : M nat :=
  fun w =>
    let emails := get_all_emails 0 1000 None w in
    let (count, w') := recategorize_loop emails custom_prompt 0 w in
    (inr count, w').

(** The dict [stats], as its items in insertion order. *)
Definition get_category_statistics (w : World) : list (string * nat) :=
  map (fun category => (category_value category, get_email_count (Some category) w))
    all_categories.

(* ---------------------------------------------------------------- *)
(** ** ActionItemAgent.extract_action_items *)

Definition agent_extract_action_items (email : Email.t)
  (custom_prompt : option string) : M Email.t :=
  fun w =>
    let custom_prompt := resolve_prompt "action_item" custom_prompt w in
    (action_items_data <-
       extract_action_items (agent_email_content email) custom_prompt ;;
     items <- lift (bind_exn (py_iter action_items_data) (map_exn ActionItem_call)) ;;
     let email := Email.set_action_items items email in
     _ <- save_email email ;;
     ret email) w.

(* ---------------------------------------------------------------- *)
(** ** DraftAgent: new drafts and refinement *)

Definition EmailDraft_set_body (b : string) (x : EmailDraft.t) : EmailDraft.t :=
  EmailDraft.mk (EmailDraft.id x) (EmailDraft.original_email_id x)
    (EmailDraft.recipient x) (EmailDraft.subject x) b
    (EmailDraft.created_at x) (EmailDraft.updated_at x)
    (EmailDraft.category x) (EmailDraft.action_items x)
    (EmailDraft.suggested_followups x) (EmailDraft.is_sent x)
    (EmailDraft.is_saved x).

Definition new_draft_prompt (recipient subject instructions : string)
  (context : option string) : string :=
  lines ["Write a professional email with the following details:"; "";
         "Recipient: " +++ recipient;
         "Subject: " +++ subject;
         "Instructions: " +++ instructions;
         match context with
         | Some c => if PyStr.truthy c then "Context: " +++ c else ""
         | None => ""
         end;
         "";
         "Write only the email body (no subject line):"].

Definition generate_new_draft (recipient subject instructions : string)
  (context : option string) : M EmailDraft.t :=
  body <- generate_text (new_draft_prompt recipient subject instructions context) ;;
  id_time <- now ;;
  created_at <- now ;;
  updated_at <- now ;;
  let draft :=
    EmailDraft.mk (timestamp_str id_time) None recipient subject
      (PyStr.strip body) created_at updated_at None [] [] false true in
  saved <- save_draft draft ;;
  ret (snd saved).

Definition refine_prompt (draft : EmailDraft.t) (refinement_instruction : string)
  : string :=
  lines ["Refine this email draft based on the instruction:"; "";
         "Current Draft:";
         "Subject: " +++ EmailDraft.subject draft;
         "Body:";
         EmailDraft.body draft;
         "";
         "Instruction: " +++ refinement_instruction;
         "";
         "Refined email body:"].

(** The method returns the draft it was given, after assigning to it. *)
Definition refine_draft (draft : EmailDraft.t) (refinement_instruction : string)
  : M EmailDraft.t :=
  refined_body <- generate_text (refine_prompt draft refinement_instruction) ;;
  let draft := EmailDraft_set_body (PyStr.strip refined_body) draft in
  t <- now ;;
  let draft := EmailDraft.set_updated_at t draft in
  saved <- save_draft draft ;;
  ret (snd saved).

(* ---------------------------------------------------------------- *)
(** ** EmailService: the batch and the summary *)

(** The loop of [process_email_batch]: an email whose processing raises is
    logged and left out. *)
Fixpoint process_email_batch (emails : list Email.t)
  (categorization_prompt action_item_prompt : option string) (w : World)
  : list Email.t * World :=
  match emails with
  | [] => ([], w)
  | email :: rest =>
      match process_email email categorization_prompt action_item_prompt w with
      | (inr processed_email, w') =>
          let (processed_emails, w'') :=
            process_email_batch rest categorization_prompt action_item_prompt w' in
          (processed_email :: processed_emails, w'')
      | (inl _, w') =>
          process_email_batch rest categorization_prompt action_item_prompt w'
      end
  end.


(* ---------------------------------------------------------------- *)
(** ** The orchestrator (backend/main.py): operations by id *)



(* ---------------------------------------------------------------- *)
(** ** VectorService search and the RAG agent (backend/agents/rag_agent.py) *)

(** A similarity score is a float the index computes. *)
Variable Score : Type.

(** One match of a query: the dict with the keys [id], [score] and
    [metadata]. The metadata are string-valued, as [process_email] writes
    them, and may be missing. *)
Record Match : Type := mk_match {
  match_id : string;
  match_score : Score;
  match_metadata : option (list (string * string))
}.

(** What the index answers to a query: the embedding of the query and the
    ranking are computed outside, and either may fail. *)
Variable index_query : World -> string -> nat -> Exn + list Match.

(** [str(e)] for an exception *)
Variable exn_str : Exn -> string.

Definition search_similar_emails (query : string) (top_k : nat)
  : M (list Match) :=
  fun w => (index_query w query top_k, w).

(** [metadata.get(key, default)], where [metadata] may be [None] *)
Definition metadata_get (metadata : option (list (string * string)))
  (key default : string) : Exn + string :=
  match metadata with
  | Some items =>
      inr (match assoc key items with Some v => v | None => default end)
  | None => inl AttributeError
  end.

Definition context_part (result : Match) : Exn + string :=
  let metadata := match_metadata result in
  bind_exn (metadata_get metadata "subject" "N/A") (fun subject =>
  bind_exn (metadata_get metadata "sender" "N/A") (fun sender =>
  bind_exn (metadata_get metadata "body_preview" "N/A") (fun body_preview =>
  inr (PyStr.strip
         (lines [""; "Subject: " +++ subject; "From: " +++ sender;
                 "Content: " +++ body_preview; ""]))))).

Definition context_separator : string :=
  PyStr.nl +++ PyStr.nl +++ "---" +++ PyStr.nl +++ PyStr.nl.

Definition get_relevant_context (query : string) (top_k : nat) : M string :=
  results <- search_similar_emails query top_k ;;
  context_parts <- lift (map_exn context_part results) ;;
  ret (String.concat context_separator context_parts).

Definition answer_question (question context : string) : M string :=
  response <- generate_text
    (lines ["Based on the following context, answer the question concisely and accurately.";
            ""; "Context:"; context; ""; "Question: " +++ question; "";
            "Answer:"]) ;;
  ret (PyStr.strip response).

(** The dict [answer_query] returns. *)
Record Answer : Type := mk_answer {
  answer : string;
  sources : list Match;
  confidence : string
}.

Definition no_information : string :=
  "I don't have enough information to answer that question. Please try rephrasing or check if emails have been processed.".

(** Every exception is caught and turned into an answer. *)
Definition answer_query (query : string) (top_k : nat) (w : World)
  : Answer * World :=
  match
    (relevant_context <- get_relevant_context query top_k ;;
     if negb (PyStr.truthy relevant_context)
     then ret (mk_answer no_information [] "low")
     else
       answer <- answer_question query relevant_context ;;
       sources <- search_similar_emails query 3 ;;
       ret (mk_answer answer sources
              (if Nat.leb 2 (List.length sources) then "high" else "medium"))) w
  with
  | (inr a, w') => (a, w')
  | (inl e, w') =>
      (mk_answer ("Error processing query: " +++ exn_str e) [] "error", w')
  end.

(** [str(n)] for a natural number *)
Definition nat_str (n : nat) : string := NilZero.string_of_uint (Nat.to_uint n).

Definition inbox_line (email : Email.t) : string :=
  "- From " +++ Email.sender email +++ ": " +++ Email.subject email
    +++ " [" +++ category_value (Email.category email) +++ "]".

Definition summarize_prompt (emails : list Email.t) : string :=
  lines ["Summarize this inbox:"; "";
         "Total emails: " +++ nat_str (List.length emails); "";
         "Recent emails:";
         String.concat PyStr.nl (map inbox_line (firstn 10 emails));
         "";
         "Provide a brief summary (2-3 sentences) of the inbox status and key items:"].

Definition summarize_inbox (max_emails : nat) (w : World) : string * World :=
  let emails := get_all_emails 0 max_emails None w in
  match emails with
  | [] => ("Your inbox is empty.", w)
  | _ :: _ =>
      match generate_text (summarize_prompt emails) w with
      | (inr summary, w') => (summary, w')
      | (inl _, w') => ("Error generating inbox summary.", w')
      end
  end.

Definition urgent_line (result : Match) : Exn + string :=
  let metadata := match_metadata result in
  bind_exn (metadata_get metadata "subject" "No subject") (fun subject =>
  bind_exn (metadata_get metadata "sender" "Unknown") (fun sender =>
  inr ("- " +++ subject +++ " from " +++ sender))).

Definition find_urgent_emails (w : World) : string * World :=
  match
    (results <- search_similar_emails
                  "urgent important immediate action required critical" 5 ;;
     match results with
     | [] => ret "No urgent emails found."
     | _ :: _ =>
         urgent_items <- lift (map_exn urgent_line results) ;;
         ret ("Urgent/Important emails:" +++ PyStr.nl
                +++ String.concat PyStr.nl urgent_items)
     end) w
  with
  | (inr response, w') => (response, w')
  | (inl _, w') => ("Error finding urgent emails.", w')
  end.

(* ---------------------------------------------------------------- *)
(** ** Vocabulary of the statements *)

(** The order a sort by [key] establishes. *)
Definition key_le {A : Type} (key : A -> nat) (x y : A) : Prop :=
  key x <= key y.

(** In [l], every element that satisfies [P] stands before every element
    that satisfies [Q]. *)
Definition all_before {A : Type} (P Q : A -> Prop) (l : list A) : Prop :=
  forall i j x y,
    nth_error l i = Some x -> nth_error l j = Some y ->
    P x -> Q y -> i < j.

Definition entry_priority (x : Entry) : string :=
  ActionItem.priority (action_item x).

Definition known_priority (x : Entry) : Prop :=
  entry_priority x = "High" \/ entry_priority x = "Medium"
  \/ entry_priority x = "Low".

(** The category reasons a validated email can carry. *)
Definition reason_ok (r : json) : Prop :=
  match r with JNull | JStr _ => True | _ => False end.

(** The collections, the index and the clock of [w1] are those of [w]. *)
Definition same_stores (w w1 : World) : Prop :=
  emails w1 = emails w /\ prompts w1 = prompts w /\ drafts w1 = drafts w
  /\ vectors w1 = vectors w /\ clock_reads w1 = clock_reads w.

(** [s] consists of whitespace only. *)
Definition all_space (s : string) : Prop :=
  Forall (fun c => PyStr.isspace c = true) (PyStr.chars s).

(** [s] neither starts nor ends with whitespace. *)
Definition trimmed (s : string) : Prop :=
  match PyStr.chars s with
  | [] => True
  | c :: r => PyStr.isspace c = false /\ PyStr.isspace (last r c) = false
  end.

(** [l1] is [l2] with some elements left out, the others in their order. *)
Inductive subseq {A : Type} : list A -> list A -> Prop :=
| subseq_nil : subseq [] []
| subseq_skip x l1 l2 : subseq l1 l2 -> subseq l1 (x :: l2)
| subseq_keep x l1 l2 : subseq l1 l2 -> subseq (x :: l1) (x :: l2).

(** A datetime as one number: later datetimes have larger numbers. *)
Definition chronological (d : datetime) : N :=
  ((((((year d * 100 + month d) * 100 + day d) * 100 + hour d) * 100
      + minute d) * 100 + second d) * 1000000 + microsecond d)%N.

(** [a] is not earlier than [b]. *)
Definition not_earlier (a b : datetime) : Prop :=
  (chronological b <= chronological a)%N.

(** The ids of a collection are pairwise different, as its unique index
    demands. *)
Definition unique_ids {D : Type} (id_of : D -> string) (coll : list D) : Prop :=
  NoDup (map id_of coll).

(** [s] starts with [p], said without the code's test. *)
Definition has_prefix (p s : string) : Prop := exists rest, s = p +++ rest.

(** The timestamp of a stored email is the ISO text of a datetime, which
    is what [save_email] writes. *)
Definition canonical_timestamp (d : EmailDoc.t) : Prop :=
  exists t, valid_datetime t = true /\ EmailDoc.timestamp d = isoformat t.

(* ================================================================ *)
(** * Strings *)
(* ================================================================ *)

Lemma chars_of_chars (l : list ascii) : PyStr.chars (PyStr.of_chars l) = l.
Proof. apply list_ascii_of_string_of_list_ascii. Qed.

Lemma of_chars_chars (s : string) : PyStr.of_chars (PyStr.chars s) = s.
Proof. apply string_of_list_ascii_of_string. Qed.

Lemma chars_append (a b : string) :
  PyStr.chars (a +++ b) = PyStr.chars a ++ PyStr.chars b.
Proof.
  induction a as [|c a IH]; simpl; [reflexivity|].
  unfold PyStr.chars in *. simpl. now rewrite IH.
Qed.

Lemma chars_inj (a b : string) : PyStr.chars a = PyStr.chars b -> a = b.
Proof.
  intros H. rewrite <- (of_chars_chars a), <- (of_chars_chars b).
  now rewrite H.
Qed.

Lemma is_prefix_spec (p l : list ascii) :
  PyStr.is_prefix p l = true <-> exists r, l = p ++ r.
Proof.
  revert l. induction p as [|a p IH]; intros l; simpl.
  - split; [intros _; now exists l | reflexivity].
  - destruct l as [|b l].
    + split; [discriminate | intros [r Hr]; discriminate].
    + rewrite andb_true_iff, Ascii.eqb_eq, IH. split.
      * intros [-> [r ->]]. now exists r.
      * intros [r Hr]. injection Hr as -> ->. split; [reflexivity | now exists r].
Qed.

Lemma startswith_spec (s p : string) :
  PyStr.startswith s p = true <-> has_prefix p s.
Proof.
  unfold PyStr.startswith, has_prefix. rewrite is_prefix_spec. split.
  - intros [r Hr]. exists (PyStr.of_chars r). apply chars_inj.
    now rewrite chars_append, chars_of_chars.
  - intros [rest ->]. exists (PyStr.chars rest). apply chars_append.
Qed.

(* ================================================================ *)
(** * The ISO-8601 text of a datetime is read back *)
(* ================================================================ *)

Lemma digit_val_digit (k : N) : (k < 10)%N -> digit_val (digit k) = Some k.
Proof.
  intros Hk. unfold digit_val, digit.
  rewrite N_ascii_embedding by lia.
  replace ((48 <=? 48 + k)%N) with true by (symmetry; apply N.leb_le; lia).
  replace ((48 + k <=? 57)%N) with true by (symmetry; apply N.leb_le; lia).
  cbn [andb]. f_equal. lia.
Qed.

Lemma read_digits_zfill (w : nat) : forall (acc n : N) (rest : list ascii),
  (n < 10 ^ N.of_nat w)%N ->
  read_digits w acc (zfill w n ++ rest)
  = Some ((acc * 10 ^ N.of_nat w + n)%N, rest).
Proof.
  induction w as [|w IH]; intros acc n rest Hn.
  - simpl in *. f_equal. f_equal. lia.
  - assert (Hpow : (10 ^ N.of_nat (S w) = 10 * 10 ^ N.of_nat w)%N).
    { rewrite Nat2N.inj_succ, N.pow_succ_r'. reflexivity. }
    assert (Hpos : (0 < 10 ^ N.of_nat w)%N).
    { apply N.neq_0_lt_0, N.pow_nonzero. discriminate. }
    rewrite Hpow in *.
    cbn [zfill app read_digits].
    remember (10 ^ N.of_nat w)%N as P eqn:HP.
    pose proof (N.div_mod n P ltac:(lia)) as Hdm.
    assert (Hq : (n / P < 10)%N) by (apply N.Div0.div_lt_upper_bound; lia).
    assert (Hr : (n mod P < P)%N) by (apply N.mod_lt; lia).
    rewrite digit_val_digit by exact Hq.
    rewrite IH by exact Hr.
    f_equal. f_equal.
    set (q := (n / P)%N) in *. set (r := (n mod P)%N) in *.
    clearbody q r. subst n. ring.
Qed.

Lemma read_field_zfill (w : nat) (close : ascii) (n : N) (rest : list ascii) :
  (n < 10 ^ N.of_nat w)%N ->
  read_field w close (zfill w n ++ close :: rest) = Some (n, rest).
Proof.
  intros Hn. unfold read_field. rewrite read_digits_zfill by exact Hn.
  simpl. rewrite Ascii.eqb_refl. reflexivity.
Qed.

Lemma days_in_month_le (y m : N) : (days_in_month y m <= 31)%N.
Proof.
  unfold days_in_month.
  destruct m as [|p]; [lia|].
  destruct p as [p|p|]; try destruct p as [p|p|]; try destruct p as [p|p|];
    try destruct p as [p|p|]; try destruct (is_leap y); lia.
Qed.

Lemma valid_datetime_bounds (d : datetime) :
  valid_datetime d = true ->
  (year d < 10 ^ N.of_nat 4 /\ month d < 10 ^ N.of_nat 2
   /\ day d < 10 ^ N.of_nat 2 /\ hour d < 10 ^ N.of_nat 2
   /\ minute d < 10 ^ N.of_nat 2 /\ second d < 10 ^ N.of_nat 2
   /\ microsecond d < 10 ^ N.of_nat 6)%N.
Proof.
  unfold valid_datetime. rewrite !andb_true_iff, !N.leb_le, !N.ltb_lt.
  pose proof (days_in_month_le (year d) (month d)).
  change (10 ^ N.of_nat 4)%N with 10000%N.
  change (10 ^ N.of_nat 2)%N with 100%N.
  change (10 ^ N.of_nat 6)%N with 1000000%N.
  lia.
Qed.

(** Reading back what [isoformat] wrote gives the datetime again. *)
Lemma parse_datetime_isoformat (d : datetime) :
  valid_datetime d = true -> parse_datetime (isoformat d) = Some d.
Proof.
  intros Hv.
  destruct (valid_datetime_bounds d Hv) as (Hy & Hmo & Hd & Hh & Hmi & Hs & Hus).
  destruct d as [y mo da h mi se us]. cbn [year month day hour minute second microsecond] in *.
  unfold parse_datetime, isoformat, isoformat_chars.
  cbn [year month day hour minute second microsecond].
  rewrite chars_of_chars.
  rewrite (read_field_zfill 4) by exact Hy.
  rewrite (read_field_zfill 2) by exact Hmo.
  rewrite (read_field_zfill 2) by exact Hd.
  rewrite (read_field_zfill 2) by exact Hh.
  rewrite (read_field_zfill 2) by exact Hmi.
  rewrite (read_digits_zfill 2) by exact Hs.
  rewrite N.mul_0_l, N.add_0_l.
  destruct (us =? 0)%N eqn:E.
  - apply N.eqb_eq in E. subst us. cbn [read_fraction]. now rewrite Hv.
  - cbn [read_fraction]. rewrite Ascii.eqb_refl.
    rewrite <- (app_nil_r (zfill 6 us)).
    rewrite (read_digits_zfill 6) by exact Hus.
    rewrite N.mul_0_l, N.add_0_l. now rewrite Hv.
Qed.

(** What the parse accepts is a datetime within the ranges. *)
Lemma parse_datetime_valid (s : string) (d : datetime) :
  parse_datetime s = Some d -> valid_datetime d = true.
Proof.
  unfold parse_datetime.
  repeat match goal with
         | |- context [match read_field ?w ?c ?l with _ => _ end] =>
             destruct (read_field w c l) as [[? ?]|]; [|discriminate]
         | |- context [match read_digits ?w ?a ?l with _ => _ end] =>
             destruct (read_digits w a l) as [[? ?]|]; [|discriminate]
         | |- context [match read_fraction ?l with _ => _ end] =>
             destruct (read_fraction l); [|discriminate]
         end.
  match goal with
  | |- context [if valid_datetime ?x then _ else _] =>
      destruct (valid_datetime x) eqn:E; [|discriminate]
  end.
  intros H. injection H as <-. exact E.
Qed.

(* ================================================================ *)
(** * Models and their documents *)
(* ================================================================ *)

Lemma category_of_string_value (c : EmailCategory) :
  category_of_string (category_value c) = Some c.
Proof. destruct c; reflexivity. Qed.

Lemma category_of_string_sound (s : string) (c : EmailCategory) :
  category_of_string s = Some c -> s = category_value c.
Proof.
  unfold category_of_string. intros H.
  apply find_some in H. destruct H as [_ H].
  apply String.eqb_eq in H. now symmetry.
Qed.

Lemma category_value_inj (c c' : EmailCategory) :
  category_value c = category_value c' -> c = c'.
Proof. destruct c, c'; simpl; intros H; (reflexivity || discriminate). Qed.

Lemma Email_validate_dump (e : Email.t) :
  valid_datetime (Email.timestamp e) = true ->
  reason_ok (Email.category_reason e) ->
  Email_validate (Email_dump e) = Some e.
Proof.
  intros Hv Hr. unfold Email_validate, Email_dump. destruct e; simpl in *.
  rewrite parse_datetime_isoformat by exact Hv.
  rewrite category_of_string_value.
  destruct category_reason; simpl in Hr; try contradiction; reflexivity.
Qed.

Lemma Email_validate_inv (d : EmailDoc.t) (e : Email.t) :
  Email_validate d = Some e ->
  Email.id e = EmailDoc.id d
  /\ valid_datetime (Email.timestamp e) = true
  /\ reason_ok (Email.category_reason e)
  /\ Email.action_items e = EmailDoc.action_items d.
Proof.
  unfold Email_validate.
  destruct (parse_datetime (EmailDoc.timestamp d)) as [ts|] eqn:Ets; [|discriminate].
  destruct (category_of_string (EmailDoc.category d)) as [c|]; [|discriminate].
  destruct (EmailDoc.category_reason d) eqn:Er; try discriminate;
    intros H; injection H as <-; simpl; rewrite ?Er; simpl;
    (repeat split; try reflexivity; eapply parse_datetime_valid; exact Ets).
Qed.

Lemma EmailDraft_validate_dump (x : EmailDraft.t) :
  valid_datetime (EmailDraft.created_at x) = true ->
  valid_datetime (EmailDraft.updated_at x) = true ->
  EmailDraft_validate (EmailDraft_dump x) = Some x.
Proof.
  intros Hc Hu. unfold EmailDraft_validate, EmailDraft_dump.
  destruct x; simpl in *.
  now rewrite !parse_datetime_isoformat by assumption.
Qed.

(* ================================================================ *)
(** * The collections *)
(* ================================================================ *)

Section Collections.
Context {D : Type}.
Variable id_of : D -> string.

Lemma find_one_update_one (id : string) (doc : D) (coll : list D) :
  id_of doc = id ->
  find_one id_of id (update_one id_of id doc coll) = Some doc.
Proof.
  intros Hid. unfold find_one.
  induction coll as [|d rest IH]; simpl.
  - now rewrite Hid, String.eqb_refl.
  - destruct (String.eqb (id_of d) id) eqn:E; simpl.
    + now rewrite Hid, String.eqb_refl.
    + now rewrite E.
Qed.

Lemma update_one_twice (id : string) (doc : D) (coll : list D) :
  id_of doc = id ->
  update_one id_of id doc (update_one id_of id doc coll)
  = update_one id_of id doc coll.
Proof.
  intros Hid. induction coll as [|d rest IH]; simpl.
  - now rewrite Hid, String.eqb_refl.
  - destruct (String.eqb (id_of d) id) eqn:E; simpl.
    + now rewrite Hid, String.eqb_refl.
    + now rewrite E, IH.
Qed.

Lemma find_one_id (id : string) (doc : D) (coll : list D) :
  find_one id_of id coll = Some doc -> id_of doc = id.
Proof.
  unfold find_one. intros H. apply find_some in H.
  destruct H as [_ H]. now apply String.eqb_eq in H.
Qed.
End Collections.

(* ================================================================ *)
(** * The stable sort by key *)
(* ================================================================ *)

Section SortByKey.
Context {A : Type}.
Variable key : A -> nat.

Lemma insert_perm (x : A) (l : list A) :
  Permutation (x :: l) (insert (key_leb key) x l).
Proof.
  induction l as [|y r IH]; simpl; [reflexivity|].
  destruct (key_leb key x y); [reflexivity|].
  rewrite perm_swap. now apply perm_skip.
Qed.

Lemma sort_by_key_perm (l : list A) : Permutation l (sort_by_key key l).
Proof.
  unfold sort_by_key. induction l as [|x r IH]; simpl; [reflexivity|].
  rewrite <- insert_perm. now apply perm_skip.
Qed.

Lemma insert_sorted (x : A) (l : list A) :
  StronglySorted (key_le key) l ->
  StronglySorted (key_le key) (insert (key_leb key) x l).
Proof.
  induction 1 as [|y r Hs IH Hall]; simpl.
  - constructor; constructor.
  - unfold key_leb at 1; destruct (Nat.leb (key x) (key y)) eqn:E.
    + apply Nat.leb_le in E. constructor; [now constructor|].
      constructor; [exact E|].
      eapply Forall_impl; [|exact Hall].
      intros z Hz. unfold key_le in *. lia.
    + apply Nat.leb_gt in E. constructor; [exact IH|].
      eapply Permutation_Forall; [apply insert_perm|].
      constructor; [unfold key_le; lia | exact Hall].
Qed.

Lemma sort_by_key_sorted (l : list A) :
  StronglySorted (key_le key) (sort_by_key key l).
Proof.
  unfold sort_by_key. induction l as [|x r IH]; simpl.
  - constructor.
  - now apply insert_sorted.
Qed.

(** Where the new element lands, seen through a filter that keeps
    elements of one key only. *)
Lemma filter_insert_class (P : A -> bool) (x : A) (l : list A) :
  (forall a b, P a = true -> P b = true -> key a = key b) ->
  filter P (insert (key_leb key) x l)
  = if P x then x :: filter P l else filter P l.
Proof.
  intros Hclass. induction l as [|y r IH]; simpl; [reflexivity|].
  unfold key_leb at 1; destruct (Nat.leb (key x) (key y)) eqn:E; simpl.
  - reflexivity.
  - rewrite IH. apply Nat.leb_gt in E.
    destruct (P x) eqn:Px, (P y) eqn:Py; try reflexivity.
    specialize (Hclass _ _ Px Py). lia.
Qed.

(** Stability: the elements of one class keep their order. *)
Lemma sort_by_key_stable (P : A -> bool) (l : list A) :
  (forall a b, P a = true -> P b = true -> key a = key b) ->
  filter P (sort_by_key key l) = filter P l.
Proof.
  intros Hclass. unfold sort_by_key.
  induction l as [|x r IH]; simpl; [reflexivity|].
  rewrite filter_insert_class by exact Hclass. rewrite IH. reflexivity.
Qed.

Lemma insert_below_all (x : A) (l : list A) :
  Forall (key_le key x) l -> insert (key_leb key) x l = x :: l.
Proof.
  intros H. destruct l as [|y r]; simpl; [reflexivity|].
  inversion H as [|? ? Hy _]; subst. unfold key_le in Hy. unfold key_leb.
  apply Nat.leb_le in Hy. now rewrite Hy.
Qed.

Lemma Forall_filter (Q : A -> Prop) (P : A -> bool) (l : list A) :
  Forall Q l -> Forall Q (filter P l).
Proof.
  intros H. apply Forall_forall. intros z Hz.
  apply filter_In in Hz. destruct Hz as [Hz _].
  rewrite Forall_forall in H. now apply H.
Qed.

Lemma filter_insert_sorted (P : A -> bool) (x : A) (l : list A) :
  StronglySorted (key_le key) l ->
  filter P (insert (key_leb key) x l)
  = if P x then insert (key_leb key) x (filter P l) else filter P l.
Proof.
  induction 1 as [|y r Hs IH Hall]; simpl.
  - destruct (P x); reflexivity.
  - unfold key_leb at 1; destruct (Nat.leb (key x) (key y)) eqn:E; simpl.
    + destruct (P x) eqn:Px; [|reflexivity].
      symmetry. apply (insert_below_all x (filter P (y :: r))).
      apply Forall_filter. apply Nat.leb_le in E.
      constructor; [exact E|].
      eapply Forall_impl; [|exact Hall].
      intros z Hz. unfold key_le in *. lia.
    + rewrite IH. fold (key_leb key x y) in E.
      destruct (P x), (P y); simpl; rewrite ?E; reflexivity.
Qed.

(** Filtering before the sort or after it gives the same list. *)
Lemma sort_by_key_filter (P : A -> bool) (l : list A) :
  sort_by_key key (filter P l) = filter P (sort_by_key key l).
Proof.
  unfold sort_by_key. induction l as [|x r IH]; simpl; [reflexivity|].
  rewrite filter_insert_sorted by apply sort_by_key_sorted.
  destruct (P x); simpl; now rewrite IH.
Qed.

Lemma StronglySorted_nth (R : A -> A -> Prop) (l : list A) :
  StronglySorted R l ->
  forall i j x y, i < j ->
    nth_error l i = Some x -> nth_error l j = Some y -> R x y.
Proof.
  induction 1 as [|a r Hs IH Hall]; intros i j x y Hij Hi Hj.
  - destruct i; discriminate.
  - destruct j as [|j]; [lia|]. simpl in Hj. destruct i as [|i]; simpl in Hi.
    + injection Hi as <-. rewrite Forall_forall in Hall.
      apply Hall. eapply nth_error_In. exact Hj.
    + apply (IH i j); [lia | assumption | assumption].
Qed.

(** In a list sorted by key, a class of smaller key stands wholly
    before a class of larger key. *)
Lemma sorted_all_before (P Q : A -> Prop) (l : list A) :
  StronglySorted (key_le key) l ->
  (forall x y, P x -> Q y -> key x < key y) ->
  all_before P Q l.
Proof.
  intros Hs Hk i j x y Hi Hj Px Qy.
  specialize (Hk x y Px Qy).
  destruct (Nat.lt_trichotomy i j) as [Hlt|[Heq|Hgt]]; [exact Hlt| |].
  - subst j. rewrite Hi in Hj. injection Hj as ->. lia.
  - pose proof (StronglySorted_nth _ _ Hs j i y x Hgt Hj Hi) as H.
    unfold key_le in H. lia.
Qed.
End SortByKey.

(* ================================================================ *)
(** * The aggregate of action items *)
(* ================================================================ *)

Lemma priority_order_unknown (p : string) :
  p <> "High" -> p <> "Medium" -> p <> "Low" -> priority_order p = 3.
Proof.
  intros H1 H2 H3. unfold priority_order.
  destruct (String.eqb_spec p "High"); [contradiction|].
  destruct (String.eqb_spec p "Medium"); [contradiction|].
  destruct (String.eqb_spec p "Low"); [contradiction|]. reflexivity.
Qed.

Lemma entry_key_known (x : Entry) : known_priority x -> entry_key x <= 2.
Proof.
  unfold known_priority, entry_key, entry_priority.
  intros [H|[H|H]]; rewrite H; cbv; lia.
Qed.

Lemma entry_key_unknown (x : Entry) : ~ known_priority x -> entry_key x = 3.
Proof.
  unfold known_priority, entry_key, entry_priority. intros H.
  apply priority_order_unknown; intros E; apply H; tauto.
Qed.

Lemma filter_map_comm {A B : Type} (f : A -> B) (P : B -> bool) (l : list A) :
  filter P (map f l) = map f (filter (fun a => P (f a)) l).
Proof.
  induction l as [|a r IH]; simpl; [reflexivity|].
  destruct (P (f a)); simpl; now rewrite IH.
Qed.

Lemma filter_all {A : Type} (l : list A) : filter (fun _ => true) l = l.
Proof. induction l as [|a r IH]; simpl; [reflexivity | now rewrite IH]. Qed.

Lemma filter_filter {A : Type} (P Q : A -> bool) (l : list A) :
  filter P (filter Q l) = filter (fun a => P a && Q a) l.
Proof.
  induction l as [|a r IH]; simpl; [reflexivity|].
  destruct (Q a); simpl; rewrite ?andb_true_r, ?andb_false_r;
    [destruct (P a)|]; now rewrite IH.
Qed.

(** Leaving completed items out while collecting is the same as removing
    them from the full collection. *)
Lemma collect_pending (emails : list Email.t) :
  collect_action_items false emails
  = filter (fun x => negb (ActionItem.completed (action_item x)))
      (collect_action_items true emails).
Proof.
  unfold collect_action_items.
  induction emails as [|e r IH]; [reflexivity|].
  cbn [flat_map]. rewrite filter_app, <- IH. f_equal.
  rewrite filter_map_comm. f_equal.
  rewrite (filter_ext (fun a => true || negb (ActionItem.completed a))
             (fun _ => true)) by reflexivity.
  rewrite filter_all. apply filter_ext. reflexivity.
Qed.

Lemma get_all_action_items_pending (w : World) :
  get_all_action_items false w
  = filter (fun x => negb (ActionItem.completed (action_item x)))
      (get_all_action_items true w).
Proof.
  unfold get_all_action_items. cbv zeta.
  now rewrite collect_pending, sort_by_key_filter.
Qed.

(** C4. Whatever the store holds and in whatever order the entries were
    collected, [get_all_action_items] returns them rearranged so that every
    High entry stands before every Medium one, every Medium before every
    Low, and every entry whose priority is none of the three after all of
    those; the entries of one priority (and, among the unknown ones, of any
    priority) keep the order in which they were collected. *)
Theorem C4_priority_order_stable (include_completed : bool) (w : World) :
  let input :=
    collect_action_items include_completed (get_all_emails 0 1000 None w) in
  let out := get_all_action_items include_completed w in
  Permutation input out
  /\ all_before (fun x => entry_priority x = "High")
       (fun y => entry_priority y = "Medium") out
  /\ all_before (fun x => entry_priority x = "Medium")
       (fun y => entry_priority y = "Low") out
  /\ all_before (fun x => entry_priority x = "High")
       (fun y => entry_priority y = "Low") out
  /\ all_before known_priority (fun y => ~ known_priority y) out
  /\ (forall p : string,
        filter (fun x => String.eqb (entry_priority x) p) out
        = filter (fun x => String.eqb (entry_priority x) p) input)
  /\ filter (fun x => negb (Nat.leb (entry_key x) 2)) out
     = filter (fun x => negb (Nat.leb (entry_key x) 2)) input.
Proof.
  intros input out. subst out. unfold get_all_action_items. cbv zeta.
  fold input.
  pose proof (sort_by_key_sorted entry_key input) as Hs.
  repeat split.
  - apply sort_by_key_perm.
  - apply (sorted_all_before entry_key); [exact Hs|].
    unfold entry_key, entry_priority. intros x y -> ->. cbv. lia.
  - apply (sorted_all_before entry_key); [exact Hs|].
    unfold entry_key, entry_priority. intros x y -> ->. cbv. lia.
  - apply (sorted_all_before entry_key); [exact Hs|].
    unfold entry_key, entry_priority. intros x y -> ->. cbv. lia.
  - apply (sorted_all_before entry_key); [exact Hs|].
    intros x y Hx Hy. apply entry_key_known in Hx.
    apply entry_key_unknown in Hy. lia.
  - intros p. apply sort_by_key_stable.
    intros a b Ha Hb. apply String.eqb_eq in Ha, Hb.
    unfold entry_key. fold (entry_priority a). fold (entry_priority b).
    now rewrite Ha, Hb.
  - apply sort_by_key_stable.
    intros a b Ha Hb. apply negb_true_iff, Nat.leb_gt in Ha, Hb.
    assert (Hmax : forall x, entry_key x <= 3).
    { intros x. unfold entry_key, priority_order.
      repeat match goal with |- context [if ?c then _ else _] => destruct c end; lia. }
    pose proof (Hmax a). pose proof (Hmax b). lia.
Qed.

(** C5. With [include_completed = False] no completed item is returned:
    every entry of the result carries an action item whose [completed] is
    false. *)
Theorem C5_pending_only (w : World) :
  Forall (fun x => ActionItem.completed (action_item x) = false)
    (get_all_action_items false w).
Proof.
  rewrite get_all_action_items_pending. apply Forall_forall.
  intros x Hx. apply filter_In in Hx. destruct Hx as [_ Hx].
  now apply negb_true_iff in Hx.
Qed.

(** C8, as the code has it. [get_action_items_by_priority] asks for the
    aggregate with the default [include_completed = False]: it returns, in
    the order of the full aggregate and unchanged, exactly those of its
    entries whose priority is the given string and whose action item is
    not completed. *)
Theorem C8_by_priority_filters_pending (priority : string) (w : World) :
  get_action_items_by_priority priority w
  = filter
      (fun x => String.eqb (entry_priority x) priority
                && negb (ActionItem.completed (action_item x)))
      (get_all_action_items true w).
Proof.
  unfold get_action_items_by_priority. cbv zeta.
  rewrite get_all_action_items_pending. apply filter_filter.
Qed.

(* ================================================================ *)
(** * Completing an action item *)
(* ================================================================ *)

(** What the loop does to the list: the first item with the description
    is marked, and nothing else changes. *)
Lemma complete_first_spec (description : string) (items items' : list ActionItem.t) :
  complete_first description items = Some items' ->
  exists before a after,
    items = before ++ a :: after
    /\ Forall (fun b => ActionItem.description b <> description) before
    /\ ActionItem.description a = description
    /\ items' = before ++ ActionItem.set_completed true a :: after.
Proof.
  revert items'. induction items as [|a rest IH]; intros items' H; simpl in H.
  - discriminate.
  - destruct (String.eqb_spec (ActionItem.description a) description) as [E|E].
    + injection H as <-. exists [], a, rest. repeat split; auto.
    + destruct (complete_first description rest) as [rest'|]; [|discriminate].
      injection H as <-.
      destruct (IH rest' eq_refl) as (before & b & after & -> & Hb & Hd & ->).
      exists (a :: before), b, after. repeat split; auto.
Qed.

Lemma complete_first_idempotent (description : string)
  (items items' : list ActionItem.t) :
  complete_first description items = Some items' ->
  complete_first description items' = Some items'.
Proof.
  revert items'. induction items as [|a rest IH]; intros items' H; simpl in H.
  - discriminate.
  - destruct (String.eqb (ActionItem.description a) description) eqn:E.
    + injection H as <-. simpl. now rewrite E.
    + destruct (complete_first description rest) as [rest'|]; [|discriminate].
      injection H as <-. simpl. rewrite E. now rewrite (IH rest' eq_refl).
Qed.

Lemma get_email_inv (email_id : string) (w : World) (e : Email.t) :
  get_email email_id w = Some e ->
  Email.id e = email_id
  /\ valid_datetime (Email.timestamp e) = true
  /\ reason_ok (Email.category_reason e).
Proof.
  unfold get_email.
  destruct (find_one EmailDoc.id email_id (emails w)) as [doc|] eqn:F;
    [|discriminate].
  intros H. apply Email_validate_inv in H.
  destruct H as (Hid & Hv & Hr & _).
  apply find_one_id in F. repeat split; congruence.
Qed.

(** A saved email is the one [get_email] returns. *)
Lemma get_email_save_email (e : Email.t) (w : World) :
  valid_datetime (Email.timestamp e) = true ->
  reason_ok (Email.category_reason e) ->
  get_email (Email.id e) (snd (save_email e w)) = Some e.
Proof.
  intros Hv Hr. unfold get_email, save_email. simpl.
  rewrite find_one_update_one by (destruct e; reflexivity).
  now apply Email_validate_dump.
Qed.

Lemma save_email_twice (e : Email.t) (w : World) :
  snd (save_email e (snd (save_email e w))) = snd (save_email e w).
Proof.
  unfold save_email, with_emails. simpl.
  rewrite update_one_twice by (destruct e; reflexivity). reflexivity.
Qed.

(** C3. Once [mark_action_item_complete] has returned true, the same call
    returns true again and leaves the store as the first call left it. The
    first call found the first item whose description is exactly the given
    one and stored the email with that item completed: in its place stands
    an item with [completed] true and the same description, priority and
    deadline, and every other item is as it was. *)
Theorem C3_mark_complete_idempotent (email_id description : string)
  (w w1 : World) :
  mark_action_item_complete email_id description w = (true, w1) ->
  mark_action_item_complete email_id description w1 = (true, w1)
  /\ exists email before a marked after,
       get_email email_id w = Some email
       /\ Email.action_items email = before ++ a :: after
       /\ Forall (fun b => ActionItem.description b <> description) before
       /\ ActionItem.description a = description
       /\ ActionItem.completed marked = true
       /\ ActionItem.description marked = ActionItem.description a
       /\ ActionItem.priority marked = ActionItem.priority a
       /\ ActionItem.deadline marked = ActionItem.deadline a
       /\ marked = ActionItem.set_completed true a
       /\ get_email email_id w1
          = Some (Email.set_action_items (before ++ marked :: after) email)
       /\ exists email1,
            get_email email_id w1 = Some email1
            /\ Email.action_items email1 = before ++ marked :: after
            /\ (forall item, In item (Email.action_items email1) ->
                  ActionItem.description item = description ->
                  In item after \/ ActionItem.completed item = true).
Proof.
  unfold mark_action_item_complete at 1.
  destruct (get_email email_id w) as [email|] eqn:G; [|discriminate].
  destruct (complete_first description (Email.action_items email))
    as [items|] eqn:C; [|discriminate].
  set (email' := Email.set_action_items items email).
  intros H. simpl in H. injection H as <-.
  destruct (get_email_inv _ _ _ G) as (Hid & Hv & Hr).
  assert (Hid' : Email.id email' = email_id) by (destruct email; exact Hid).
  assert (G' : get_email email_id (snd (save_email email' w)) = Some email').
  { rewrite <- Hid'. apply get_email_save_email; destruct email; assumption. }
  change (with_emails _ w) with (snd (save_email email' w)).
  split.
  - unfold mark_action_item_complete. rewrite G'.
    assert (C' : complete_first description (Email.action_items email') = Some items).
    { replace (Email.action_items email') with items by (destruct email; reflexivity).
      eapply complete_first_idempotent. exact C. }
    rewrite C'.
    replace (Email.set_action_items items email') with email'
      by (destruct email; reflexivity).
    simpl. f_equal.
    change (with_emails _ (with_emails _ w))
      with (snd (save_email email' (snd (save_email email' w)))).
    apply save_email_twice.
  - destruct (complete_first_spec _ _ _ C) as (before & a & after & Hi & Hb & Hd & Hi').
    exists email, before, a, (ActionItem.set_completed true a), after.
    subst items.
    split; [reflexivity|]. split; [exact Hi|]. split; [exact Hb|].
    split; [exact Hd|].
    split; [reflexivity|]. split; [reflexivity|]. split; [reflexivity|].
    split; [reflexivity|]. split; [reflexivity|]. split; [exact G'|].
    exists email'. split; [exact G'|].
    split; [destruct email; reflexivity|].
    intros item Hin Hdesc.
    replace (Email.action_items email')
      with (before ++ ActionItem.set_completed true a :: after) in Hin
      by (destruct email; reflexivity).
    apply in_app_or in Hin. destruct Hin as [Hin|[<-|Hin]].
    + rewrite Forall_forall in Hb. now destruct (Hb item Hin).
    + right. reflexivity.
    + now left.
Qed.

(* ================================================================ *)
(** * Drafts: saving and reloading *)
(* ================================================================ *)

(** One run of [save_draft]: the clock is read once, the object given is
    stamped with the reading, and its dump replaces (or becomes) the
    document of that id. *)
Lemma save_draft_run (draft : EmailDraft.t) (w : World) :
  let stamped := EmailDraft.set_updated_at (now_at (clock_reads w)) draft in
  save_draft draft w
  = (inr (EmailDraft.id draft, stamped),
     with_drafts
       (update_one DraftDoc.id (EmailDraft.id draft) (EmailDraft_dump stamped)
          (drafts w))
       (tick_clock w)).
Proof. reflexivity. Qed.

Lemma get_draft_after_save (x : EmailDraft.t) (coll : list DraftDoc.t) (w : World) :
  valid_datetime (EmailDraft.created_at x) = true ->
  valid_datetime (EmailDraft.updated_at x) = true ->
  get_draft (EmailDraft.id x)
    (with_drafts (update_one DraftDoc.id (EmailDraft.id x) (EmailDraft_dump x) coll) w)
  = Some x.
Proof.
  intros Hc Hu. unfold get_draft. simpl.
  rewrite find_one_update_one by reflexivity.
  now apply EmailDraft_validate_dump.
Qed.

(** C7. A draft saved with [save_draft] and reloaded with [get_draft] by
    the same id comes back with the recipient, subject, body, [created_at]
    and [updated_at] of the draft as it was persisted (indeed with every
    field): the stored timestamps are the ISO-8601 texts, and reading them
    back gives the datetimes they were written from. *)
Theorem C7_draft_round_trip (draft : EmailDraft.t) (w : World) :
  valid_datetime (EmailDraft.created_at draft) = true ->
  valid_datetime (now_at (clock_reads w)) = true ->
  exists persisted w1 doc reloaded,
    save_draft draft w = (inr (EmailDraft.id draft, persisted), w1)
    /\ find_one DraftDoc.id (EmailDraft.id draft) (drafts w1) = Some doc
    /\ DraftDoc.created_at doc = isoformat (EmailDraft.created_at persisted)
    /\ DraftDoc.updated_at doc = isoformat (EmailDraft.updated_at persisted)
    /\ parse_datetime (DraftDoc.created_at doc)
       = Some (EmailDraft.created_at persisted)
    /\ parse_datetime (DraftDoc.updated_at doc)
       = Some (EmailDraft.updated_at persisted)
    /\ get_draft (EmailDraft.id draft) w1 = Some reloaded
    /\ EmailDraft.recipient reloaded = EmailDraft.recipient persisted
    /\ EmailDraft.subject reloaded = EmailDraft.subject persisted
    /\ EmailDraft.body reloaded = EmailDraft.body persisted
    /\ EmailDraft.created_at reloaded = EmailDraft.created_at persisted
    /\ EmailDraft.updated_at reloaded = EmailDraft.updated_at persisted
    /\ reloaded = persisted.
Proof.
  intros Hc Hn.
  set (persisted := EmailDraft.set_updated_at (now_at (clock_reads w)) draft).
  exists persisted. eexists. exists (EmailDraft_dump persisted), persisted.
  split; [apply save_draft_run|].
  split; [simpl; now apply find_one_update_one|].
  split; [reflexivity|]. split; [reflexivity|].
  split; [now apply parse_datetime_isoformat|].
  split; [now apply parse_datetime_isoformat|].
  split; [|repeat split; reflexivity].
  apply (get_draft_after_save persisted); assumption.
Qed.

(** C10. [save_draft] reads the clock and writes the reading over
    [updated_at], on the object it was given and in the document it stores:
    whatever [updated_at] the caller supplied, the stored text is that of
    the save time and the reloaded draft carries the save time; every other
    field is stored, and comes back, as supplied. The save leaves
    [updated_at] as it was exactly when the caller had supplied the very
    reading the clock gives at the save. *)
Theorem C10_save_draft_stamps_updated_at (draft : EmailDraft.t) (w : World) :
  valid_datetime (EmailDraft.created_at draft) = true ->
  valid_datetime (now_at (clock_reads w)) = true ->
  let t := now_at (clock_reads w) in
  exists left_behind w1,
    save_draft draft w = (inr (EmailDraft.id draft, left_behind), w1)
    /\ left_behind
       = EmailDraft.mk (EmailDraft.id draft) (EmailDraft.original_email_id draft)
           (EmailDraft.recipient draft) (EmailDraft.subject draft)
           (EmailDraft.body draft) (EmailDraft.created_at draft) t
           (EmailDraft.category draft) (EmailDraft.action_items draft)
           (EmailDraft.suggested_followups draft) (EmailDraft.is_sent draft)
           (EmailDraft.is_saved draft)
    /\ find_one DraftDoc.id (EmailDraft.id draft) (drafts w1)
       = Some (DraftDoc.mk (EmailDraft.id draft)
                 (EmailDraft.original_email_id draft)
                 (EmailDraft.recipient draft) (EmailDraft.subject draft)
                 (EmailDraft.body draft)
                 (isoformat (EmailDraft.created_at draft)) (isoformat t)
                 (EmailDraft.category draft) (EmailDraft.action_items draft)
                 (EmailDraft.suggested_followups draft)
                 (EmailDraft.is_sent draft) (EmailDraft.is_saved draft))
    /\ get_draft (EmailDraft.id draft) w1 = Some left_behind
    /\ EmailDraft.updated_at left_behind = t
    /\ (EmailDraft.updated_at left_behind = EmailDraft.updated_at draft
        <-> EmailDraft.updated_at draft = t)
    /\ (left_behind = draft <-> EmailDraft.updated_at draft = t)
    /\ clock_reads w1 = S (clock_reads w).
Proof.
  intros Hc Hn t.
  exists (EmailDraft.set_updated_at t draft). eexists.
  split; [apply save_draft_run|].
  split; [reflexivity|].
  split; [simpl; now apply find_one_update_one|].
  split.
  { apply (get_draft_after_save (EmailDraft.set_updated_at t draft)); assumption. }
  split; [reflexivity|].
  split; [cbn; split; intros E; now rewrite E|].
  split; [|reflexivity].
  split.
  - intros E. rewrite <- E. reflexivity.
  - intros E. destruct draft. cbn in *. now rewrite E.
Qed.

(* ================================================================ *)
(** * The reply draft *)
(* ================================================================ *)

Lemma generate_text_first_answer (prompt text : string) (w : World) :
  endpoint (llm_calls w) prompt = inr text ->
  generate_text prompt w = (inr text, tick_llm w).
Proof. intros H. unfold generate_text. simpl. now rewrite H. Qed.

(** The follow-up suggestions never fail the reply. *)
Lemma _generate_followups_returns (original_email : Email.t)
  (reply_body : string) (w : World) :
  exists followups w', _generate_followups original_email reply_body w
                       = (inr followups, w').
Proof.
  unfold _generate_followups, try_except, bind.
  destruct (generate_text _ w) as [[e|response] w']; unfold ret;
    eexists; eexists; reflexivity.
Qed.

(** When the endpoint answers the call that asks for the reply,
    [generate_reply_draft] returns a draft. *)
Lemma generate_reply_draft_returns (original_email : Email.t)
  (additional_context custom_prompt : option string) (w : World) (text : string) :
  (forall prompt, endpoint (llm_calls w) prompt = inr text) ->
  exists draft w',
    generate_reply_draft original_email additional_context custom_prompt w
    = (inr draft, w').
Proof.
  intros H. unfold generate_reply_draft, draft_reply. unfold bind at 1 2.
  rewrite (generate_text_first_answer _ text) by apply H.
  unfold ret at 1. unfold bind at 1.
  destruct (_generate_followups_returns original_email (PyStr.strip text)
              (tick_llm w)) as (followups & w2 & ->).
  eexists. eexists. reflexivity.
Qed.

(** C6. The draft that [generate_reply_draft] returns has the subject of
    the original email when that subject starts with ["Re: "], and that
    subject with ["Re: "] put before it when it does not: "Status Update"
    gives "Re: Status Update", and "Re: Status Update" stays as it is. *)
Theorem C6_reply_subject (original_email : Email.t)
  (additional_context custom_prompt : option string) (w w' : World)
  (draft : EmailDraft.t) :
  generate_reply_draft original_email additional_context custom_prompt w
  = (inr draft, w') ->
  (has_prefix "Re: " (Email.subject original_email) ->
   EmailDraft.subject draft = Email.subject original_email)
  /\ (~ has_prefix "Re: " (Email.subject original_email) ->
      EmailDraft.subject draft = "Re: " +++ Email.subject original_email)
  /\ (Email.subject original_email = "Status Update" ->
      EmailDraft.subject draft = "Re: Status Update")
  /\ (Email.subject original_email = "Re: Status Update" ->
      EmailDraft.subject draft = "Re: Status Update").
Proof.
  unfold generate_reply_draft. unfold bind at 1.
  destruct (draft_reply _ additional_context _ w) as [[e|reply_body] w1];
    [discriminate|].
  unfold bind at 1.
  destruct (_generate_followups_returns original_email reply_body w1)
    as (followups & w2 & ->).
  intros H. cbv beta iota zeta delta [bind now ret save_draft fst snd] in H.
  injection H as <- _.
  cbn [EmailDraft.subject EmailDraft.set_updated_at].
  destruct (PyStr.startswith (Email.subject original_email) "Re: ") eqn:E.
  - apply startswith_spec in E. repeat split; intros H; try reflexivity.
    + contradiction.
    + rewrite H in E. destruct E as [rest E]. discriminate.
    + exact H.
  - assert (N : ~ has_prefix "Re: " (Email.subject original_email)).
    { intros P. apply startswith_spec in P. congruence. }
    repeat split; intros H; try reflexivity.
    + contradiction.
    + now rewrite H.
    + rewrite H in E. discriminate.
Qed.

(* ================================================================ *)
(** * The JSON helpers of the LLM service *)
(* ================================================================ *)

(** Calling the endpoint touches neither the collections, nor the index,
    nor the clock. *)
Lemma generate_attempts_frame (attempts : nat) (prompt : string) :
  forall w r w1,
    generate_attempts attempts prompt w = (r, w1) -> same_stores w w1.
Proof.
  induction attempts as [|n IH]; intros w r w1 H; simpl in H.
  - injection H as _ <-. repeat split.
  - destruct (endpoint (llm_calls w) prompt).
    + apply IH in H. destruct H as (? & ? & ? & ? & ?). repeat split; assumption.
    + injection H as _ <-. repeat split.
Qed.

Lemma categorize_email_frame (email_content : string)
  (custom_prompt : option string) (w w1 : World) (r : Exn + json) :
  categorize_email email_content custom_prompt w = (r, w1) -> same_stores w w1.
Proof.
  unfold categorize_email, bind.
  destruct (generate_text _ w) as [[e|response] w2] eqn:G; intros H.
  - injection H as _ <-. eapply generate_attempts_frame. exact G.
  - destruct (json_loads (response_clean response)) as [[]|];
      unfold ret, raise in H;
      injection H as _ <-; eapply generate_attempts_frame; exact G.
Qed.

(** C2. The JSON helpers catch [JSONDecodeError] and nothing else. When
    [json.loads] raises it on the text the model returned, the code fences
    stripped, [categorize_email] returns the default
    [{"category": "UNCATEGORIZED", "reason": "Unable to categorize"}] and
    [extract_action_items] returns the empty list: both return, and neither
    raises. When [json.loads] raises anything else, as it does on a text
    nested too deeply or on an integer too long, both helpers raise that
    exception. *)
Theorem C2_unparseable_response_degrades (email_content : string)
  (custom_prompt : option string) (w : World) (response : string) (e : Exn) :
  json_loads (response_clean response) = inl e ->
  (forall w1,
     generate_text (categorize_full_prompt email_content custom_prompt) w
     = (inr response, w1) ->
     (e = JSONDecodeError ->
      categorize_email email_content custom_prompt w
      = (inr (JDict [("category", JStr "UNCATEGORIZED");
                     ("reason", JStr "Unable to categorize")]), w1))
     /\ (e <> JSONDecodeError ->
         categorize_email email_content custom_prompt w = (inl e, w1)))
  /\ (forall w1,
        generate_text (extract_full_prompt email_content custom_prompt) w
        = (inr response, w1) ->
        (e = JSONDecodeError ->
         extract_action_items email_content custom_prompt w
         = (inr (JList []), w1))
        /\ (e <> JSONDecodeError ->
            extract_action_items email_content custom_prompt w = (inl e, w1))).
Proof.
  intros Hparse. split; intros w1 G.
  - unfold categorize_email, bind. rewrite G, Hparse.
    split; [intros ->; reflexivity|].
    intros Hne. destruct e; try reflexivity. now destruct Hne.
  - unfold extract_action_items, bind. rewrite G, Hparse.
    split; [intros ->; reflexivity|].
    intros Hne. destruct e; try reflexivity. now destruct Hne.
Qed.

(* ================================================================ *)
(** * Categorization: the agent coerces, the ingestion does not *)
(* ================================================================ *)

Lemma EmailCategory_call_label (c : EmailCategory) :
  EmailCategory_call (JStr (category_value c)) = inr c.
Proof. destruct c; reflexivity. Qed.

Lemma EmailCategory_call_unknown (label : json) :
  (forall c, label <> JStr (category_value c)) ->
  EmailCategory_call label = inl ValueError.
Proof.
  intros H. destruct label; try reflexivity. simpl.
  destruct (category_of_string s) as [c|] eqn:E; [|reflexivity].
  apply category_of_string_sound in E. subst s. now destruct (H c).
Qed.

Lemma EmailCategory_call_raises (label : json) (e : Exn) :
  EmailCategory_call label = inl e -> e = ValueError.
Proof.
  destruct label; simpl; try (intros H; now injection H).
  destruct (category_of_string s); [discriminate | intros H; now injection H].
Qed.

Lemma In_all_categories (c : EmailCategory) : In c all_categories.
Proof. destruct c; simpl; tauto. Qed.

(** The coercion of the agent on a dict: the label's category, and
    UNCATEGORIZED for any other entry or none. *)
Lemma category_or_uncategorized_dict (fields : list (string * json)) :
  exists c,
    category_or_uncategorized (JDict fields) = inr c
    /\ (forall c', assoc "category" fields = Some (JStr (category_value c')) -> c = c')
    /\ (assoc "category" fields = None -> c = UNCATEGORIZED)
    /\ ((forall c', assoc "category" fields <> Some (JStr (category_value c'))) ->
        c = UNCATEGORIZED).
Proof.
  unfold category_or_uncategorized, py_get, bind_exn.
  destruct (assoc "category" fields) as [label|] eqn:A.
  - destruct (EmailCategory_call label) as [e|c] eqn:E.
    + apply EmailCategory_call_raises in E as E'. subst e.
      exists UNCATEGORIZED. repeat split; try reflexivity.
      intros c' H. injection H as ->.
      rewrite EmailCategory_call_label in E. discriminate.
    + exists c. repeat split.
      * intros c' H. injection H as ->.
        rewrite EmailCategory_call_label in E. now injection E.
      * discriminate.
      * intros H. destruct label; try discriminate. simpl in E.
        destruct (category_of_string s) as [c0|] eqn:E0; [|discriminate].
        apply category_of_string_sound in E0. subst s. now destruct (H c0).
  - exists UNCATEGORIZED. repeat split; try reflexivity. discriminate.
Qed.

(** C1. After [categorize_single_email] has returned, the category of the
    email is one of the five members of the enum, and so is the category
    of the document it stored. When the categorization result is a dict,
    the call returns: with the category the label names, and with
    UNCATEGORIZED when the label is none of the five values (or missing). *)
Theorem C1_category_always_enum (email : Email.t)
  (custom_prompt : option string) (w : World) :
  (forall email' w',
     categorize_single_email email custom_prompt w = (inr email', w') ->
     In (Email.category email') all_categories
     /\ exists doc,
          find_one EmailDoc.id (Email.id email) (emails w') = Some doc
          /\ doc = Email_dump email'
          /\ In (EmailDoc.category doc) (map category_value all_categories))
  /\ (forall fields w1,
        categorize_email (agent_email_content email)
          (resolve_prompt "categorization" custom_prompt w) w
        = (inr (JDict fields), w1) ->
        exists email' w',
          categorize_single_email email custom_prompt w = (inr email', w')
          /\ (forall c, assoc "category" fields = Some (JStr (category_value c)) ->
              Email.category email' = c)
          /\ (assoc "category" fields = None ->
              Email.category email' = UNCATEGORIZED)
          /\ ((forall c, assoc "category" fields <> Some (JStr (category_value c))) ->
              Email.category email' = UNCATEGORIZED)).
Proof.
  split.
  - intros email' w'. unfold categorize_single_email. unfold bind at 1.
    destruct (categorize_email _ _ w) as [[e|result] w1]; [discriminate|].
    unfold bind at 1, lift at 1.
    destruct (category_or_uncategorized result) as [e|c]; [discriminate|].
    unfold bind at 1, lift at 1.
    destruct (py_get result "reason" _) as [e|reason]; [discriminate|].
    intros H. cbv beta iota zeta delta [bind ret save_email] in H.
    injection H as <- <-.
    split; [apply In_all_categories|].
    eexists. split; [simpl; apply find_one_update_one; reflexivity|].
    split; [reflexivity|].
    simpl. destruct c; auto 10.
  - intros fields w1 H. unfold categorize_single_email. unfold bind at 1.
    rewrite H. unfold bind at 1, lift at 1.
    destruct (category_or_uncategorized_dict fields) as (c & -> & H1 & H2 & H3).
    eexists. eexists. split; [reflexivity|].
    repeat split; assumption.
Qed.

(** A result that is not a dict has no [get]: the agent then raises
    [AttributeError], which its [except ValueError] does not catch, and
    stores nothing. *)
Lemma categorize_single_email_needs_dict (email : Email.t)
  (custom_prompt : option string) (w w1 : World) (result : json) :
  categorize_email (agent_email_content email)
    (resolve_prompt "categorization" custom_prompt w) w
  = (inr result, w1) ->
  (forall fields, result <> JDict fields) ->
  categorize_single_email email custom_prompt w = (inl AttributeError, w1).
Proof.
  intros H Hnot. unfold categorize_single_email. unfold bind at 1.
  rewrite H. unfold bind at 1, lift at 1.
  destruct result; try reflexivity. now destruct (Hnot items).
Qed.

(** C9. The ingestion pipeline does not coerce. When the categorization
    result is a dict whose [category] entry is none of the five values of
    the enum, [process_email] raises [ValueError]; the collections, the
    vector index and the clock are then as they were before the call: the
    email was neither saved nor indexed. *)
Theorem C9_process_email_rejects_unknown_label (email : Email.t)
  (categorization_prompt action_item_prompt : option string) (w w1 : World)
  (fields : list (string * json)) (label : json) :
  categorize_email (service_email_content email) categorization_prompt w
  = (inr (JDict fields), w1) ->
  assoc "category" fields = Some label ->
  (forall c, label <> JStr (category_value c)) ->
  process_email email categorization_prompt action_item_prompt w
  = (inl ValueError, w1)
  /\ emails w1 = emails w /\ vectors w1 = vectors w /\ same_stores w w1.
Proof.
  intros Hcat Hlabel Hunknown.
  apply categorize_email_frame in Hcat as Hframe.
  pose proof Hframe as (He & _ & _ & Hv & _).
  split; [|repeat split; solve [assumption | apply Hframe]].
  unfold process_email. cbv zeta. unfold bind at 1. rewrite Hcat.
  unfold bind at 1, lift at 1. unfold py_get. rewrite Hlabel.
  unfold bind_exn. now rewrite EmailCategory_call_unknown.
Qed.

(* ================================================================ *)
(** * The retry of the LLM service *)
(* ================================================================ *)

(** [generate_text] calls the endpoint once, twice or three times, and
    touches nothing else. It returns the answer of the last call it made,
    the calls before it having failed; it raises only after three failed
    calls, and then [RetryError], whatever the endpoint raised. *)
Theorem generate_text_retries (prompt : string) (w w' : World)
  (r : Exn + string) :
  generate_text prompt w = (r, w') ->
  same_stores w w'
  /\ exists k,
       1 <= k <= 3
       /\ llm_calls w' = llm_calls w + k
       /\ (forall i, i < k - 1 ->
           exists e, endpoint (llm_calls w + i) prompt = inl e)
       /\ match r with
          | inr text => endpoint (llm_calls w + (k - 1)) prompt = inr text
          | inl e =>
              e = RetryError /\ k = 3
              /\ exists e', endpoint (llm_calls w + 2) prompt = inl e'
          end.
Proof.
  intros H. split; [eapply generate_attempts_frame; exact H|].
  unfold generate_text in H. cbn [generate_attempts] in H.
  destruct (endpoint (llm_calls w) prompt) as [e0|t0] eqn:E0.
  - cbn [tick_llm llm_calls] in H.
    destruct (endpoint (S (llm_calls w)) prompt) as [e1|t1] eqn:E1.
    + destruct (endpoint (S (S (llm_calls w))) prompt) as [e2|t2] eqn:E2.
      * injection H as <- <-. exists 3. cbn [llm_calls tick_llm].
        repeat split; try lia.
        -- intros i Hi. destruct i as [|[|i]]; [| |lia].
           ++ rewrite Nat.add_0_r. eauto.
           ++ rewrite Nat.add_1_r. eauto.
        -- exists e2. now rewrite Nat.add_comm.
      * injection H as <- <-. exists 3. cbn [llm_calls tick_llm].
        repeat split; try lia.
        -- intros i Hi. destruct i as [|[|i]]; [| |lia].
           ++ rewrite Nat.add_0_r. eauto.
           ++ rewrite Nat.add_1_r. eauto.
        -- now rewrite Nat.add_comm.
    + injection H as <- <-. exists 2. cbn [llm_calls tick_llm].
      repeat split; try lia.
      * intros i Hi. destruct i as [|i]; [|lia]. rewrite Nat.add_0_r. eauto.
      * now rewrite Nat.add_1_r.
  - injection H as <- <-. exists 1. cbn [llm_calls tick_llm].
    repeat split; try lia.
    now rewrite Nat.add_0_r.
Qed.

(* ================================================================ *)
(** * The collections as maps from ids *)
(* ================================================================ *)

Lemma find_one_update_one_other {D : Type} (id_of : D -> string)
  (id id' : string) (doc : D) (coll : list D) :
  id_of doc = id -> id' <> id ->
  find_one id_of id' (update_one id_of id doc coll) = find_one id_of id' coll.
Proof.
  intros Hid Hne. unfold find_one.
  assert (Hdoc : String.eqb (id_of doc) id' = false).
  { rewrite Hid. apply String.eqb_neq. congruence. }
  induction coll as [|d rest IH]; simpl.
  - now rewrite Hdoc.
  - destruct (String.eqb_spec (id_of d) id) as [E|E]; simpl.
    + rewrite Hdoc. destruct (String.eqb_spec (id_of d) id'); [congruence|reflexivity].
    + destruct (String.eqb (id_of d) id'); [reflexivity | exact IH].
Qed.

(** The ids after an upsert: those there were, in their order, with the
    new id at the end when it was not among them. *)
Lemma update_one_ids {D : Type} (id_of : D -> string) (id : string) (doc : D)
  (coll : list D) :
  id_of doc = id ->
  map id_of (update_one id_of id doc coll)
  = if existsb (fun d => String.eqb (id_of d) id) coll
    then map id_of coll
    else map id_of coll ++ [id].
Proof.
  intros Hid. induction coll as [|d rest IH]; simpl.
  - now rewrite Hid.
  - destruct (String.eqb_spec (id_of d) id) as [E|E]; simpl.
    + now rewrite Hid, E.
    + rewrite IH. now destruct (existsb _ rest).
Qed.

Lemma existsb_id_In {D : Type} (id_of : D -> string) (id : string) (coll : list D) :
  existsb (fun d => String.eqb (id_of d) id) coll = true <-> In id (map id_of coll).
Proof.
  rewrite existsb_exists, in_map_iff. split.
  - intros [d [Hd E]]. apply String.eqb_eq in E. eauto.
  - intros [d [E Hd]]. exists d. split; [exact Hd | now apply String.eqb_eq].
Qed.

Lemma update_one_unique {D : Type} (id_of : D -> string) (id : string) (doc : D)
  (coll : list D) :
  id_of doc = id -> unique_ids id_of coll ->
  unique_ids id_of (update_one id_of id doc coll).
Proof.
  unfold unique_ids. intros Hid Hu. rewrite update_one_ids by exact Hid.
  destruct (existsb _ coll) eqn:E; [exact Hu|].
  apply NoDup_app; [exact Hu | repeat constructor; intros [] |].
  intros x Hx [<-|[]]. apply existsb_id_In in Hx. congruence.
Qed.

(** [get_email] after [save_email]: the saved email under its id, and what
    there was under every other id. *)
Theorem get_email_after_save_email (email : Email.t) (w : World) (email_id : string) :
  valid_datetime (Email.timestamp email) = true ->
  reason_ok (Email.category_reason email) ->
  get_email email_id (snd (save_email email w))
  = if String.eqb email_id (Email.id email) then Some email
    else get_email email_id w.
Proof.
  intros Hv Hr. destruct (String.eqb_spec email_id (Email.id email)) as [->|Hne].
  - now apply get_email_save_email.
  - unfold get_email, save_email. simpl.
    now rewrite find_one_update_one_other by (reflexivity || exact Hne).
Qed.

(** Saving keeps the ids of a collection pairwise different, and changes
    its size by one exactly when the id is new: no second document is ever
    stored under an id. This holds of the three saves alike, and each
    leaves the document under every other id where it was. *)
Theorem save_keeps_ids_unique (email : Email.t) (draft : EmailDraft.t)
  (prompt : PromptConfig.t) (w : World) :
  (unique_ids EmailDoc.id (emails w) ->
   unique_ids EmailDoc.id (emails (snd (save_email email w))))
  /\ (unique_ids DraftDoc.id (drafts w) ->
      unique_ids DraftDoc.id (drafts (snd (save_draft draft w))))
  /\ (unique_ids PromptDoc.id (prompts w) ->
      unique_ids PromptDoc.id (prompts (snd (save_prompt prompt w))))
  /\ List.length (emails (snd (save_email email w)))
     = (if existsb (fun d => String.eqb (EmailDoc.id d) (Email.id email)) (emails w)
        then List.length (emails w) else S (List.length (emails w)))
  /\ List.length (drafts (snd (save_draft draft w)))
     = (if existsb (fun d => String.eqb (DraftDoc.id d) (EmailDraft.id draft)) (drafts w)
        then List.length (drafts w) else S (List.length (drafts w)))
  /\ List.length (prompts (snd (save_prompt prompt w)))
     = (if existsb (fun d => String.eqb (PromptDoc.id d) (PromptConfig.id prompt))
             (prompts w)
        then List.length (prompts w) else S (List.length (prompts w)))
  /\ (forall other, other <> Email.id email ->
        find_one EmailDoc.id other (emails (snd (save_email email w)))
        = find_one EmailDoc.id other (emails w))
  /\ (forall other, other <> EmailDraft.id draft ->
        find_one DraftDoc.id other (drafts (snd (save_draft draft w)))
        = find_one DraftDoc.id other (drafts w))
  /\ (forall other, other <> PromptConfig.id prompt ->
        find_one PromptDoc.id other (prompts (snd (save_prompt prompt w)))
        = find_one PromptDoc.id other (prompts w)).
Proof.
  split; [|split; [|split; [|split; [|split; [|split; [|split; [|split]]]]]]].
  - intros Hu. simpl. now apply update_one_unique.
  - intros Hu. simpl. now apply update_one_unique.
  - intros Hu. simpl. now apply update_one_unique.
  - simpl. rewrite <- (length_map EmailDoc.id), update_one_ids by reflexivity.
    destruct (existsb _ (emails w)); rewrite ?length_app, length_map; simpl; lia.
  - simpl. rewrite <- (length_map DraftDoc.id), update_one_ids by reflexivity.
    destruct (existsb _ (drafts w)); rewrite ?length_app, length_map; simpl; lia.
  - simpl. rewrite <- (length_map PromptDoc.id), update_one_ids by reflexivity.
    destruct (existsb _ (prompts w)); rewrite ?length_app, length_map; simpl; lia.
  - intros other Hne. simpl.
    apply find_one_update_one_other; [reflexivity | exact Hne].
  - intros other Hne. simpl.
    apply find_one_update_one_other; [reflexivity | exact Hne].
  - intros other Hne. simpl.
    apply find_one_update_one_other; [reflexivity | exact Hne].
Qed.

Lemma find_all_false {D : Type} (f : D -> bool) (l : list D) :
  (forall x, In x l -> f x = false) -> find f l = None.
Proof.
  induction l as [|d rest IH]; intros H; simpl; [reflexivity|].
  rewrite (H d) by now left. apply IH. intros x Hx. apply H. now right.
Qed.

Lemma find_one_delete_one {D : Type} (id_of : D -> string) (id : string)
  (coll : list D) :
  unique_ids id_of coll -> find_one id_of id (delete_one id_of id coll) = None.
Proof.
  unfold unique_ids, find_one. induction coll as [|d rest IH]; intros Hu; simpl.
  - reflexivity.
  - inversion Hu as [|? ? Hnot Hrest]; subst.
    destruct (String.eqb_spec (id_of d) id) as [E|E].
    + apply find_all_false. intros x Hx. apply String.eqb_neq. intros Ex.
      apply Hnot. rewrite E, <- Ex. now apply in_map.
    + simpl. destruct (String.eqb_spec (id_of d) id); [contradiction|].
      now apply IH.
Qed.

Lemma find_one_delete_one_other {D : Type} (id_of : D -> string)
  (id id' : string) (coll : list D) :
  id' <> id ->
  find_one id_of id' (delete_one id_of id coll) = find_one id_of id' coll.
Proof.
  intros Hne. unfold find_one. induction coll as [|d rest IH]; simpl.
  - reflexivity.
  - destruct (String.eqb_spec (id_of d) id) as [E|E]; simpl.
    + destruct (String.eqb_spec (id_of d) id'); [congruence | reflexivity].
    + destruct (String.eqb (id_of d) id'); [reflexivity | exact IH].
Qed.


(** In a collection whose ids are pairwise different, [delete_draft]
    leaves no draft under the id and every other draft as it was; and it
    touches only the drafts. A draft that was just saved is gone as well. *)
Theorem delete_draft_removes (draft_id : string) (w : World) :
  unique_ids DraftDoc.id (drafts w) ->
  let w' := snd (delete_draft draft_id w) in
  get_draft draft_id w' = None
  /\ (forall other, other <> draft_id -> get_draft other w' = get_draft other w)
  /\ emails w' = emails w /\ prompts w' = prompts w /\ vectors w' = vectors w
  /\ (forall draft,
        EmailDraft.id draft = draft_id ->
        get_draft draft_id
          (snd (delete_draft draft_id (snd (save_draft draft w)))) = None).
Proof.
  intros Hu w'. subst w'. unfold get_draft, delete_draft. simpl.
  split; [now rewrite find_one_delete_one|].
  split; [intros other Hne; now rewrite find_one_delete_one_other|].
  repeat split.
  intros draft Hid. rewrite find_one_delete_one; [reflexivity|].
  now apply update_one_unique.
Qed.

(* ================================================================ *)
(** * What a page of the cursor holds *)
(* ================================================================ *)

Lemma insert_perm_gen {A : Type} (le : A -> A -> bool) (x : A) (l : list A) :
  Permutation (x :: l) (insert le x l).
Proof.
  induction l as [|y r IH]; simpl; [reflexivity|].
  destruct (le x y); [reflexivity|].
  rewrite perm_swap. now apply perm_skip.
Qed.

Lemma sort_perm_gen {A : Type} (le : A -> A -> bool) (l : list A) :
  Permutation l (sort le l).
Proof.
  induction l as [|x r IH]; simpl; [reflexivity|].
  rewrite <- insert_perm_gen. now apply perm_skip.
Qed.

Lemma map_option_In {A B : Type} (f : A -> option B) (l : list A) (l' : list B) :
  map_option f l = Some l' ->
  forall y, In y l' -> exists x, In x l /\ f x = Some y.
Proof.
  revert l'. induction l as [|x r IH]; intros l' H y Hy; simpl in H.
  - injection H as <-. destruct Hy.
  - destruct (f x) as [y0|] eqn:Fx; [|discriminate].
    destruct (map_option f r) as [ys|]; [|discriminate].
    injection H as <-. destruct Hy as [<-|Hy].
    + exists x. split; [now left | exact Fx].
    + destruct (IH ys eq_refl y Hy) as (x' & Hx' & Fx').
      exists x'. split; [now right | exact Fx'].
Qed.

Lemma map_option_length {A B : Type} (f : A -> option B) (l : list A) (l' : list B) :
  map_option f l = Some l' -> List.length l' = List.length l.
Proof.
  revert l'. induction l as [|x r IH]; intros l' H; simpl in H.
  - now injection H as <-.
  - destruct (f x); [|discriminate].
    destruct (map_option f r) as [ys|]; [|discriminate].
    injection H as <-. simpl. now rewrite (IH ys eq_refl).
Qed.

Lemma In_skipn {A : Type} (n : nat) (l : list A) (x : A) :
  In x (skipn n l) -> In x l.
Proof.
  revert l. induction n as [|n IH]; intros l H; simpl in H; [exact H|].
  destruct l as [|a r]; [destruct H|]. right. now apply IH.
Qed.

Lemma cursor_limit_positive {A : Type} (limit : nat) (l : list A) :
  0 < limit -> cursor_limit limit l = firstn limit l.
Proof. destruct limit; [lia | reflexivity]. Qed.

Lemma cursor_limit_all {A : Type} (limit : nat) (l : list A) :
  limit = 0 \/ List.length l <= limit -> cursor_limit limit l = l.
Proof.
  intros H. destruct limit as [|n]; [reflexivity|].
  apply firstn_all2. destruct H as [H|H]; [discriminate | exact H].
Qed.

Lemma In_firstn {A : Type} (n : nat) (l : list A) (x : A) :
  In x (firstn n l) -> In x l.
Proof.
  revert l. induction n as [|n IH]; intros l H; simpl in H; [destruct H|].
  destruct l as [|a r]; [destruct H|].
  destruct H as [<-|H]; [now left | right; now apply IH].
Qed.

Lemma In_cursor_limit {A : Type} (n : nat) (l : list A) (x : A) :
  In x (cursor_limit n l) -> In x l.
Proof. destruct n; [trivial | apply In_firstn]. Qed.

(** Every email [get_all_emails] returns is the validated form of a stored
    document that passes the category filter. *)
Lemma get_all_emails_stored (skip limit : nat) (category : option EmailCategory)
  (w : World) (e : Email.t) :
  In e (get_all_emails skip limit category w) ->
  exists doc,
    In doc (emails w) /\ Email_validate doc = Some e
    /\ forall c, category = Some c -> EmailDoc.category doc = category_value c.
Proof.
  unfold get_all_emails.
  match goal with
  | |- context [map_option Email_validate ?cur] =>
      destruct (map_option Email_validate cur) as [l|] eqn:M
  end; [|intros []].
  intros He. destruct (map_option_In _ _ _ M e He) as (doc & Hdoc & Hval).
  apply In_cursor_limit, In_skipn in Hdoc.
  eapply Permutation_in in Hdoc; [|apply Permutation_sym, sort_perm_gen].
  apply filter_In in Hdoc. destruct Hdoc as [Hin Hq].
  exists doc. repeat split; [exact Hin | exact Hval |].
  intros c ->. now apply String.eqb_eq in Hq.
Qed.

(* ================================================================ *)
(** * The statistics and the batch of the categorization agent *)
(* ================================================================ *)

Lemma filter_length_cons {A : Type} (f : A -> bool) (x : A) (l : list A) :
  List.length (filter f (x :: l))
  = (if f x then 1 else 0) + List.length (filter f l).
Proof. simpl. now destruct (f x). Qed.

(** A category text counts for exactly one of the five values, or for none
    when it is not a value of the enum. *)
Lemma category_counts_once (s : string) :
  list_sum
    (map (fun c => if String.eqb s (category_value c) then 1 else 0)
       all_categories)
  = match category_of_string s with Some _ => 1 | None => 0 end.
Proof.
  destruct (category_of_string s) as [c|] eqn:E.
  - apply category_of_string_sound in E. subst s. destruct c; reflexivity.
  - assert (H : forall c, String.eqb s (category_value c) = false).
    { intros c. destruct (String.eqb_spec s (category_value c)) as [->|]; [|reflexivity].
      rewrite category_of_string_value in E. discriminate. }
    unfold all_categories. cbn [map list_sum]. now rewrite !H.
Qed.

(** [get_category_statistics] has one entry for each of the five values of
    the enum, in the enum's order, also when the count is zero. Each count
    is that of the stored emails with that category, and the counts add up
    to the number of stored emails whose category is one of the five: at
    most the number of all emails. *)
Theorem get_category_statistics_covers_enum (w : World) :
  let stats := get_category_statistics w in
  map fst stats
  = ["URGENT"; "ACTION_REQUIRED"; "INFORMATIONAL"; "SPAM"; "UNCATEGORIZED"]
  /\ (forall c, assoc (category_value c) stats = Some (get_email_count (Some c) w))
  /\ list_sum (map snd stats)
     = List.length
         (filter
            (fun d => match category_of_string (EmailDoc.category d) with
                      | Some _ => true
                      | None => false
                      end)
            (emails w))
  /\ list_sum (map snd stats) <= get_email_count None w.
Proof.
  intros stats. subst stats.
  split; [reflexivity|]. split; [intros c; destruct c; reflexivity|].
  assert (Hsum :
    list_sum (map snd (get_category_statistics w))
    = List.length
        (filter
           (fun d => match category_of_string (EmailDoc.category d) with
                     | Some _ => true
                     | None => false
                     end)
           (emails w))).
  { unfold get_category_statistics, get_email_count, all_categories.
    cbn [map snd list_sum].
    induction (emails w) as [|d rest IH]; [reflexivity|].
    rewrite !filter_length_cons.
    pose proof (category_counts_once (EmailDoc.category d)) as Hd.
    unfold all_categories in Hd. cbn [map list_sum category_value] in Hd.
    cbn [category_value] in *. unfold list_sum in *. cbn [fold_right] in *.
    destruct (category_of_string (EmailDoc.category d)); cbv iota; lia. }
  split; [exact Hsum|].
  rewrite Hsum. unfold get_email_count.
  rewrite (filter_all (emails w)). apply filter_length_le.
Qed.

(** What one categorization leaves in the store: the ids of the emails
    stay as they are when the email's id was among them, the other
    collections and the clock are untouched, and nothing at all is stored
    when the call raises. *)
Lemma categorize_single_email_store (email : Email.t)
  (custom_prompt : option string) (w w' : World) (r : Exn + Email.t) :
  categorize_single_email email custom_prompt w = (r, w') ->
  prompts w' = prompts w /\ drafts w' = drafts w /\ vectors w' = vectors w
  /\ clock_reads w' = clock_reads w
  /\ (In (Email.id email) (map EmailDoc.id (emails w)) ->
      map EmailDoc.id (emails w') = map EmailDoc.id (emails w))
  /\ (forall e, r = inl e -> emails w' = emails w).
Proof.
  unfold categorize_single_email. unfold bind at 1.
  destruct (categorize_email _ _ w) as [[e|result] w1] eqn:C;
    apply categorize_email_frame in C; destruct C as (He & Hp & Hd & Hv & Hc).
  - intros H. injection H as <- <-.
    repeat split; try assumption; intros; congruence.
  - unfold bind at 1, lift at 1.
    destruct (category_or_uncategorized result) as [e|c].
    { intros H. injection H as <- <-.
      repeat split; try assumption; intros; congruence. }
    unfold bind at 1, lift at 1.
    destruct (py_get result "reason" _) as [e|reason].
    { intros H. injection H as <- <-.
      repeat split; try assumption; intros; congruence. }
    intros H. cbv beta iota zeta delta [bind ret save_email] in H.
    injection H as <- <-. cbn [emails prompts drafts vectors clock_reads with_emails].
    repeat split; try assumption; [|discriminate].
    intros Hin. rewrite update_one_ids by reflexivity.
    rewrite He in *. apply existsb_id_In in Hin.
    cbn [Email.id Email.set_category Email.set_category_reason]. now rewrite Hin.
Qed.

Lemma recategorize_loop_store (custom_prompt : option string) :
  forall (l : list Email.t) (count : nat) (w : World),
    (forall e, In e l -> In (Email.id e) (map EmailDoc.id (emails w))) ->
    let (n, w') := recategorize_loop l custom_prompt count w in
    count <= n <= count + List.length l
    /\ map EmailDoc.id (emails w') = map EmailDoc.id (emails w)
    /\ prompts w' = prompts w /\ drafts w' = drafts w /\ vectors w' = vectors w
    /\ clock_reads w' = clock_reads w.
Proof.
  induction l as [|email rest IH]; intros count w Hin; cbn [recategorize_loop].
  - cbn [List.length]. repeat split; lia.
  - destruct (categorize_single_email email custom_prompt w) as [r w1] eqn:C.
    apply categorize_single_email_store in C.
    destruct C as (Hp & Hd & Hv & Hc & Hids & _).
    specialize (Hids (Hin email (or_introl eq_refl))).
    assert (Hin1 : forall e, In e rest -> In (Email.id e) (map EmailDoc.id (emails w1))).
    { intros e He. rewrite Hids. apply Hin. now right. }
    destruct r as [e|email'].
    + specialize (IH count w1 Hin1).
      destruct (recategorize_loop rest custom_prompt count w1) as [n w'].
      destruct IH as (Hn & Hi & Hp' & Hd' & Hv' & Hc').
      cbn [List.length]. repeat split; try congruence; lia.
    + specialize (IH (S count) w1 Hin1).
      destruct (recategorize_loop rest custom_prompt (S count) w1) as [n w'].
      destruct IH as (Hn & Hi & Hp' & Hd' & Hv' & Hc').
      cbn [List.length]. repeat split; try congruence; lia.
Qed.

(** [recategorize_all_emails] always returns a count: at most the number
    of emails it read, itself at most 1000. Whatever failed on the way, the
    store holds the same emails under the same ids afterwards, none added
    and none removed, and the prompts, the drafts and the index are as they
    were. *)
Theorem recategorize_all_emails_keeps_collection (custom_prompt : option string)
  (w : World) :
  exists count w',
    recategorize_all_emails custom_prompt w = (inr count, w')
    /\ count <= List.length (get_all_emails 0 1000 None w)
    /\ count <= 1000
    /\ map EmailDoc.id (emails w') = map EmailDoc.id (emails w)
    /\ prompts w' = prompts w /\ drafts w' = drafts w /\ vectors w' = vectors w.
Proof.
  unfold recategorize_all_emails. cbv zeta.
  pose proof (recategorize_loop_store custom_prompt
                (get_all_emails 0 1000 None w) 0 w) as H.
  destruct (recategorize_loop (get_all_emails 0 1000 None w) custom_prompt 0 w)
    as [n w'].
  assert (Hstored : forall e, In e (get_all_emails 0 1000 None w) ->
                              In (Email.id e) (map EmailDoc.id (emails w))).
  { intros e He. apply get_all_emails_stored in He.
    destruct He as (doc & Hdoc & Hval & _).
    apply Email_validate_inv in Hval. destruct Hval as (-> & _).
    now apply in_map. }
  destruct (H Hstored) as (Hn & Hi & Hp & Hd & Hv & _).
  assert (Hlen : List.length (get_all_emails 0 1000 None w) <= 1000).
  { unfold get_all_emails.
    match goal with
    | |- context [map_option Email_validate ?cur] =>
        destruct (map_option Email_validate cur) as [l|] eqn:M
    end; [|simpl; lia].
    rewrite (map_option_length _ _ _ M). apply firstn_le_length. }
  exists n, w'. repeat split; try assumption; lia.
Qed.

(* ================================================================ *)
(** * Stripping *)
(* ================================================================ *)

Lemma lstrip_chars_skip (p : ascii -> bool) (ws l : list ascii) :
  Forall (fun c => p c = true) ws ->
  PyStr.lstrip_chars p (ws ++ l) = PyStr.lstrip_chars p l.
Proof.
  induction 1 as [|c ws Hc _ IH]; simpl; [reflexivity|]. now rewrite Hc.
Qed.

(** What [lstrip] leaves is the end of the list, and starts with a
    character that stays. *)
Lemma lstrip_chars_split (p : ascii -> bool) (l : list ascii) :
  exists ws, l = ws ++ PyStr.lstrip_chars p l
             /\ Forall (fun c => p c = true) ws
             /\ match PyStr.lstrip_chars p l with
                | [] => True
                | c :: _ => p c = false
                end.
Proof.
  induction l as [|c r IH]; simpl.
  - exists []. repeat split. constructor.
  - destruct (p c) eqn:E.
    + destruct IH as (ws & Hl & Hws & Hhead).
      exists (c :: ws). repeat split; [simpl; now f_equal | now constructor | exact Hhead].
    + exists []. repeat split; [constructor | exact E].
Qed.

Lemma last_cons_default {A : Type} (c : A) (r : list A) (d : A) :
  last (c :: r) d = last r c.
Proof.
  revert c d. induction r as [|a r IH]; intros c d; [reflexivity|].
  change (last (c :: a :: r) d) with (last (a :: r) d).
  now rewrite (IH a d), (IH a c).
Qed.

Lemma trimmed_chars (s : string) (c : ascii) (l : list ascii) :
  PyStr.chars s = l ++ [c] ->
  PyStr.isspace c = false ->
  match l with [] => True | c0 :: _ => PyStr.isspace c0 = false end ->
  trimmed s.
Proof.
  intros Hs Hc Hhead. unfold trimmed. rewrite Hs.
  destruct l as [|c0 r]; simpl app.
  - simpl. now split.
  - split; [exact Hhead|].
    rewrite <- (last_cons_default c0 (r ++ [c]) c0).
    change (c0 :: r ++ [c]) with ((c0 :: r) ++ [c]). now rewrite last_last.
Qed.

Lemma trimmed_inv (s : string) :
  trimmed s ->
  PyStr.chars s = []
  \/ exists l c, PyStr.chars s = l ++ [c] /\ PyStr.isspace c = false
                 /\ match l ++ [c] with
                    | [] => True
                    | c0 :: _ => PyStr.isspace c0 = false
                    end.
Proof.
  unfold trimmed. destruct (PyStr.chars s) as [|c0 r] eqn:E; [now left|].
  intros [H0 Hl]. right.
  destruct (exists_last (l := c0 :: r)) as (l & c & Hlc); [discriminate|].
  exists l, c. rewrite <- Hlc. repeat split; [|exact H0].
  rewrite <- (last_cons_default c0 r c0) in Hl. rewrite Hlc in Hl.
  now rewrite last_last in Hl.
Qed.

(** [strip] gives a string that neither starts nor ends with whitespace. *)
Lemma strip_trimmed (s : string) : trimmed (PyStr.strip s).
Proof.
  unfold PyStr.strip, PyStr.rstrip_chars.
  set (l1 := PyStr.lstrip_chars PyStr.isspace (PyStr.chars s)).
  destruct (lstrip_chars_split PyStr.isspace (PyStr.chars s)) as (_ & _ & _ & Hh1).
  fold l1 in Hh1.
  destruct (lstrip_chars_split PyStr.isspace (rev l1)) as (ws & Hrev & Hws & Hh2).
  destruct (PyStr.lstrip_chars PyStr.isspace (rev l1)) as [|c m] eqn:M.
  - unfold trimmed. now rewrite chars_of_chars.
  - apply (trimmed_chars _ c (rev m)).
    + rewrite chars_of_chars. reflexivity.
    + exact Hh2.
    + assert (Hl1 : l1 = rev m ++ c :: rev ws).
      { rewrite <- (rev_involutive l1), Hrev, rev_app_distr. simpl.
        now rewrite <- app_assoc. }
      destruct (rev m) as [|c0 m'] eqn:Rm; [exact I|].
      rewrite Hl1 in Hh1. exact Hh1.
Qed.

(** [strip] removes whitespace around a string that has none at its ends,
    and nothing else. *)
Lemma strip_padded (ws1 core ws2 : string) :
  all_space ws1 -> all_space ws2 -> trimmed core ->
  PyStr.strip (ws1 +++ core +++ ws2) = core.
Proof.
  unfold all_space. intros H1 H2 Hcore.
  unfold PyStr.strip, PyStr.rstrip_chars. rewrite !chars_append.
  rewrite lstrip_chars_skip by exact H1.
  apply chars_inj. rewrite chars_of_chars.
  assert (Hrev2 : Forall (fun c => PyStr.isspace c = true) (rev (PyStr.chars ws2))).
  { apply Forall_forall. intros c Hc. apply in_rev in Hc.
    rewrite Forall_forall in H2. now apply H2. }
  destruct (trimmed_inv core Hcore) as [E|(l & c & E & Hc & Hhead)]; rewrite E.
  - simpl app. destruct (lstrip_chars_split PyStr.isspace (PyStr.chars ws2))
      as (ws & Hl & _ & Hh).
    assert (Hnil : PyStr.lstrip_chars PyStr.isspace (PyStr.chars ws2) = []).
    { destruct (PyStr.lstrip_chars PyStr.isspace (PyStr.chars ws2)) as [|a r] eqn:L;
        [reflexivity|].
      rewrite Forall_forall in H2. rewrite (H2 a) in Hh; [discriminate|].
      rewrite Hl. apply in_or_app. right. now left. }
    rewrite Hnil. reflexivity.
  - assert (Hl : PyStr.lstrip_chars PyStr.isspace ((l ++ [c]) ++ PyStr.chars ws2)
                 = (l ++ [c]) ++ PyStr.chars ws2).
    { destruct (l ++ [c]) as [|c0 r] eqn:L; [now destruct l|].
      simpl. now rewrite Hhead. }
    rewrite Hl, rev_app_distr, lstrip_chars_skip by exact Hrev2.
    rewrite rev_app_distr. simpl. rewrite Hc. simpl.
    now rewrite rev_involutive.
Qed.

Lemma firstn_app_length {A : Type} (a b : list A) :
  firstn (List.length (a ++ b) - List.length b) (a ++ b) = a.
Proof.
  rewrite length_app, Nat.add_sub. rewrite firstn_app, Nat.sub_diag.
  simpl. rewrite app_nil_r. apply firstn_all.
Qed.

(** The cleaning removes the fences: a payload between [```json] and
    [```], with any whitespace around the fences, comes out stripped. *)
Theorem response_clean_unfences (ws1 payload ws2 : string) :
  all_space ws1 -> all_space ws2 ->
  response_clean (ws1 +++ ("```json" +++ payload +++ "```") +++ ws2)
  = PyStr.strip payload.
Proof.
  intros H1 H2. unfold response_clean.
  rewrite strip_padded; [|exact H1|exact H2|].
  2:{ destruct (exists_last (l := PyStr.chars ("```json" +++ payload +++ "``")))
        as (l & c & Hl).
      { rewrite chars_append. discriminate. }
      apply (trimmed_chars _ "`"%char (PyStr.chars ("```json" +++ payload +++ "``"))).
      - rewrite !chars_append. rewrite <- !app_assoc. reflexivity.
      - reflexivity.
      - rewrite chars_append. reflexivity. }
  assert (Hstart : PyStr.startswith ("```json" +++ payload +++ "```") "```json" = true).
  { apply startswith_spec. now exists (payload +++ "```"). }
  rewrite Hstart.
  assert (Hslice : PyStr.slice_from 7 ("```json" +++ payload +++ "```")
                   = payload +++ "```").
  { unfold PyStr.slice_from. rewrite chars_append. simpl skipn.
    apply of_chars_chars. }
  rewrite Hslice.
  assert (Hend : PyStr.endswith (payload +++ "```") "```" = true).
  { unfold PyStr.endswith. rewrite chars_append, rev_app_distr.
    apply is_prefix_spec. eauto. }
  rewrite Hend. unfold PyStr.slice_drop_last.
  rewrite chars_append.
  change 3 with (List.length (PyStr.chars "```")).
  rewrite firstn_app_length. now rewrite of_chars_chars.
Qed.

(** Three failed calls in a row make [generate_text] raise. *)
Lemma generate_text_all_fail (prompt : string) (w : World) :
  (forall i, i < 3 -> exists e, endpoint (llm_calls w + i) prompt = inl e) ->
  exists w', generate_text prompt w = (inl RetryError, w').
Proof.
  intros H. unfold generate_text. cbn [generate_attempts].
  destruct (H 0 ltac:(lia)) as (e0 & E0). rewrite Nat.add_0_r in E0. rewrite E0.
  destruct (H 1 ltac:(lia)) as (e1 & E1). rewrite Nat.add_1_r in E1.
  cbn [tick_llm llm_calls]. rewrite E1.
  destruct (H 2 ltac:(lia)) as (e2 & E2).
  replace (llm_calls w + 2) with (S (S (llm_calls w))) in E2 by lia.
  rewrite E2. eexists. reflexivity.
Qed.

(** The follow-up suggestions: at most three, each without whitespace at
    its ends; only the count of endpoint calls moves; and when the endpoint
    fails its next three calls the result is the empty list, not an
    exception. *)
Theorem _generate_followups_bounded (original_email : Email.t)
  (reply_body : string) (w : World) :
  exists followups w',
    _generate_followups original_email reply_body w = (inr followups, w')
    /\ List.length followups <= 3
    /\ Forall trimmed followups
    /\ same_stores w w'
    /\ ((forall i prompt, i < 3 ->
         exists e, endpoint (llm_calls w + i) prompt = inl e) ->
        followups = []).
Proof.
  unfold _generate_followups, try_except, bind.
  destruct (generate_text _ w) as [[e|response] w'] eqn:G.
  - exists [], w'. unfold ret.
    repeat split; try (simpl; lia); try constructor;
      try (eapply generate_attempts_frame; exact G).
  - exists (followup_lines response), w'. unfold ret.
    split; [reflexivity|]. split; [apply firstn_le_length|].
    split.
    + unfold followup_lines. apply Forall_forall. intros x Hx.
      apply In_firstn in Hx. apply in_map_iff in Hx.
      destruct Hx as (line & <- & _). apply strip_trimmed.
    + split; [eapply generate_attempts_frame; exact G|].
      intros Hfail. exfalso.
      match type of G with
      | generate_text ?p _ = _ =>
          destruct (generate_text_all_fail p w (fun i Hi => Hfail i p Hi))
            as (w1 & G1)
      end.
      rewrite G1 in G. discriminate.
Qed.

(* ================================================================ *)
(** * Extraction by the action-item agent *)
(* ================================================================ *)

(** What [ActionItemAgent.extract_action_items] does with the answer of the
    model. When [json.loads] raises [JSONDecodeError] on it, or it is an
    object without [action_items], the email is stored with no action items
    at all, whatever items it had. A list of valid items replaces the
    email's items wholesale. When [json.loads] raises anything else, the
    agent raises that exception, and when the answer decodes to something
    other than an object it raises [AttributeError]: in both cases nothing
    is stored. And whatever the model answers, the items the email came
    with play no part: the run is the same for any items it had. *)
Theorem agent_extract_action_items_outcomes (email : Email.t)
  (custom_prompt : option string) (w w1 : World) (response : string) :
  generate_text
    (extract_full_prompt (agent_email_content email)
       (resolve_prompt "action_item" custom_prompt w)) w
  = (inr response, w1) ->
  let decoded := json_loads (response_clean response) in
  let stored items :=
    (inr (Email.set_action_items items email),
     snd (save_email (Email.set_action_items items email) w1)) in
  (decoded = inl JSONDecodeError ->
   agent_extract_action_items email custom_prompt w = stored [])
  /\ (forall e,
        decoded = inl e -> e <> JSONDecodeError ->
        agent_extract_action_items email custom_prompt w = (inl e, w1)
        /\ emails w1 = emails w)
  /\ (forall fields,
        decoded = inr (JDict fields) -> assoc "action_items" fields = None ->
        agent_extract_action_items email custom_prompt w = stored [])
  /\ (forall fields data items,
        decoded = inr (JDict fields) ->
        assoc "action_items" fields = Some (JList data) ->
        map_exn ActionItem_call data = inr items ->
        agent_extract_action_items email custom_prompt w = stored items)
  /\ (forall v,
        decoded = inr v -> (forall fields, v <> JDict fields) ->
        agent_extract_action_items email custom_prompt w = (inl AttributeError, w1)
        /\ emails w1 = emails w)
  /\ (forall previous,
        agent_extract_action_items (Email.set_action_items previous email)
          custom_prompt w
        = agent_extract_action_items email custom_prompt w).
Proof.
  intros G decoded stored. subst decoded stored.
  assert (Hrun :
    agent_extract_action_items email custom_prompt w
    = match json_loads (response_clean response) with
      | inr result =>
          (action_items_data <- lift (py_get result "action_items" (JList [])) ;;
           items <- lift (bind_exn (py_iter action_items_data)
                            (map_exn ActionItem_call)) ;;
           _ <- save_email (Email.set_action_items items email) ;;
           ret (Email.set_action_items items email)) w1
      | inl JSONDecodeError =>
          (inr (Email.set_action_items [] email),
           snd (save_email (Email.set_action_items [] email) w1))
      | inl e => (inl e, w1)
      end).
  { unfold agent_extract_action_items, extract_action_items.
    unfold bind at 1 2. rewrite G. cbv beta.
    destruct (json_loads (response_clean response)) as [[]|]; reflexivity. }
  assert (Hsame : emails w1 = emails w).
  { apply generate_attempts_frame in G. apply G. }
  split; [|split; [|split; [|split; [|split]]]].
  - rewrite Hrun. intros ->. reflexivity.
  - rewrite Hrun. intros e -> Hne. split; [|exact Hsame].
    destruct e; try reflexivity. now destruct Hne.
  - rewrite Hrun. intros fields -> Hnone. unfold bind at 1, lift at 1, py_get.
    rewrite Hnone. reflexivity.
  - rewrite Hrun. intros fields data items -> Hsome Hitems.
    unfold bind at 1, lift at 1, py_get. rewrite Hsome.
    unfold bind at 1, lift at 1. cbn [py_iter bind_exn]. rewrite Hitems.
    reflexivity.
  - rewrite Hrun. intros v -> Hnot. split; [|exact Hsame].
    destruct v; try reflexivity. now destruct (Hnot items).
  - intros previous. clear. destruct email. reflexivity.
Qed.

(* ================================================================ *)
(** * An empty prompt override *)
(* ================================================================ *)

(** An override that is the empty string counts as no override: each agent
    then looks the active prompt up, and falls back on the default, exactly
    as when no override is given. *)
Theorem empty_custom_prompt_is_no_override (email : Email.t)
  (context : option string) (w : World) :
  categorize_single_email email (Some "") w
  = categorize_single_email email None w
  /\ agent_extract_action_items email (Some "") w
     = agent_extract_action_items email None w
  /\ generate_reply_draft email context (Some "") w
     = generate_reply_draft email context None w
  /\ process_email email (Some "") (Some "") w = process_email email None None w.
Proof.
  split; [|split; [|split]].
  - unfold categorize_single_email, resolve_prompt. cbn [PyStr.truthy String.eqb negb].
    destruct (get_active_prompt "categorization" w); reflexivity.
  - unfold agent_extract_action_items, resolve_prompt. cbn [PyStr.truthy String.eqb negb].
    destruct (get_active_prompt "action_item" w); reflexivity.
  - unfold generate_reply_draft, resolve_prompt. cbn [PyStr.truthy String.eqb negb].
    destruct (get_active_prompt "reply_draft" w); reflexivity.
  - reflexivity.
Qed.

(* ================================================================ *)
(** * What completing an item leaves alone *)
(* ================================================================ *)

Lemma complete_first_same_texts (description : string)
  (items items' : list ActionItem.t) :
  complete_first description items = Some items' ->
  map ActionItem.description items' = map ActionItem.description items
  /\ map ActionItem.priority items' = map ActionItem.priority items
  /\ map ActionItem.deadline items' = map ActionItem.deadline items
  /\ List.length items' = List.length items.
Proof.
  intros H. apply complete_first_spec in H.
  destruct H as (before & a & after & -> & _ & _ & ->).
  rewrite !map_app, !length_app. simpl. repeat split.
Qed.

Lemma mark_action_item_complete_run (email_id description : string)
  (w w1 : World) (r : bool) :
  mark_action_item_complete email_id description w = (r, w1) ->
  (r = false /\ w1 = w)
  \/ exists email items,
       r = true /\ get_email email_id w = Some email
       /\ complete_first description (Email.action_items email) = Some items
       /\ w1 = snd (save_email (Email.set_action_items items email) w).
Proof.
  unfold mark_action_item_complete.
  destruct (get_email email_id w) as [email|] eqn:G.
  - destruct (complete_first description (Email.action_items email))
      as [items|] eqn:C.
    + intros H. simpl in H. injection H as <- <-. right.
      exists email, items. repeat split. exact C.
    + intros H. injection H as <- <-. now left.
  - intros H. injection H as <- <-. now left.
Qed.

(** [mark_action_item_complete] changes nothing at all when it returns
    false. When it returns true it has rewritten one email only: every other
    email, the prompts, the drafts and the index are as before, no email was
    added or removed, and in the email itself only [completed] flags differ:
    the descriptions, priorities and deadlines of its items are the same. *)
Theorem mark_action_item_complete_frame (email_id description : string)
  (w w1 : World) (r : bool) :
  mark_action_item_complete email_id description w = (r, w1) ->
  (r = false -> w1 = w)
  /\ (forall other, other <> email_id -> get_email other w1 = get_email other w)
  /\ map EmailDoc.id (emails w1) = map EmailDoc.id (emails w)
  /\ prompts w1 = prompts w /\ drafts w1 = drafts w /\ vectors w1 = vectors w
  /\ (forall email email1,
        get_email email_id w = Some email ->
        get_email email_id w1 = Some email1 ->
        email1 = Email.set_action_items (Email.action_items email1) email
        /\ map ActionItem.description (Email.action_items email1)
           = map ActionItem.description (Email.action_items email)
        /\ map ActionItem.priority (Email.action_items email1)
           = map ActionItem.priority (Email.action_items email)
        /\ map ActionItem.deadline (Email.action_items email1)
           = map ActionItem.deadline (Email.action_items email)).
Proof.
  intros H. apply mark_action_item_complete_run in H.
  destruct H as [[-> ->]|(email & items & -> & G & C & ->)].
  - split; [reflexivity|]. split; [reflexivity|].
    split; [reflexivity|]. split; [reflexivity|].
    split; [reflexivity|]. split; [reflexivity|].
    intros email email1 H0 H1. rewrite H0 in H1. injection H1 as <-.
    split; [now destruct email|]. now repeat split.
  - set (email' := Email.set_action_items items email).
    destruct (get_email_inv _ _ _ G) as (Hid & Hv & Hr).
    assert (Hid' : Email.id email' = email_id) by (destruct email; exact Hid).
    split; [discriminate|].
    split.
    { intros other Hne. unfold get_email, save_email. simpl.
      rewrite find_one_update_one_other; [reflexivity | reflexivity | congruence]. }
    split.
    { simpl. rewrite update_one_ids by reflexivity.
      assert (Hin : existsb (fun d => String.eqb (EmailDoc.id d) (Email.id email))
                      (emails w) = true).
      { apply existsb_id_In. rewrite Hid. unfold get_email in G.
        destruct (find_one EmailDoc.id email_id (emails w)) as [doc|] eqn:F;
          [|discriminate].
        apply find_one_id in F as Fid. rewrite <- Fid.
        apply in_map. unfold find_one in F. now apply find_some in F. }
      now rewrite Hin. }
    split; [reflexivity|]. split; [reflexivity|]. split; [reflexivity|].
    intros email0 email1 H0 H1. rewrite G in H0. injection H0 as <-.
    rewrite <- Hid' in H1.
    rewrite get_email_save_email in H1 by (destruct email; assumption).
    injection H1 as <-.
    destruct (complete_first_same_texts _ _ _ C) as (Hd & Hp & Hdl & _).
    destruct email; simpl in *. repeat split; assumption.
Qed.

(* ================================================================ *)
(** * The ingestion pipeline *)
(* ================================================================ *)

Lemma extract_action_items_frame (email_content : string)
  (custom_prompt : option string) (w w1 : World) (r : Exn + json) :
  extract_action_items email_content custom_prompt w = (r, w1) -> same_stores w w1.
Proof.
  unfold extract_action_items, bind.
  destruct (generate_text _ w) as [[e|response] w2] eqn:G; intros H.
  - injection H as _ <-. eapply generate_attempts_frame. exact G.
  - destruct (json_loads (response_clean response)) as [[]|];
      unfold ret, raise, lift in H;
      injection H as _ <-; eapply generate_attempts_frame; exact G.
Qed.

(** One run of [process_email]. It raised before anything was written; or
    it saved the email and the index then refused the record; or it saved
    the email and wrote the record. *)
Lemma process_email_run (email : Email.t)
  (categorization_prompt action_item_prompt : option string) (w w' : World)
  (r : Exn + Email.t) :
  process_email email categorization_prompt action_item_prompt w = (r, w') ->
  prompts w' = prompts w /\ drafts w' = drafts w
  /\ ((exists e, r = inl e /\ emails w' = emails w /\ vectors w' = vectors w)
      \/ exists category reason items w2,
           let saved :=
             Email.set_action_items items
               (Email.set_category_reason reason
                  (Email.set_category category email)) in
           let record :=
             Vector.mk (Email.id email) (service_email_content email)
               (Vector.mk_metadata (Email.sender email) (Email.subject email)
                  (PyStr.slice_to 200 (Email.body email))
                  (category_value category)
                  (isoformat (Email.timestamp email))) in
           emails w'
           = update_one EmailDoc.id (Email.id email) (Email_dump saved) (emails w)
           /\ match r with
              | inl e => index_upsert w2 record = inl e /\ vectors w' = vectors w
              | inr processed =>
                  processed = Email.set_embedding_id (Some (Email.id email)) saved
                  /\ vectors w'
                     = update_one Vector.id (Email.id email) record (vectors w)
              end).
Proof.
  unfold process_email. cbv zeta. unfold bind at 1.
  destruct (categorize_email _ _ w) as [[e|result] w1] eqn:C;
    apply categorize_email_frame in C; destruct C as (He & Hp & Hd & Hv & _).
  { intros H. injection H as <- <-.
    split; [assumption|]. split; [assumption|]. left. exists e. auto. }
  unfold bind at 1, lift at 1.
  destruct (bind_exn (py_get result "category" _) EmailCategory_call) as [e|c].
  { intros H. injection H as <- <-.
    split; [assumption|]. split; [assumption|]. left. exists e. auto. }
  unfold bind at 1, lift at 1.
  destruct (py_get result "reason" _) as [e|reason].
  { intros H. injection H as <- <-.
    split; [assumption|]. split; [assumption|]. left. exists e. auto. }
  unfold bind at 1.
  destruct (extract_action_items _ _ w1) as [[e|data] w2] eqn:X;
    apply extract_action_items_frame in X; destruct X as (He2 & Hp2 & Hd2 & Hv2 & _).
  { intros H. injection H as <- <-.
    split; [congruence|]. split; [congruence|]. left. exists e.
    repeat split; congruence. }
  unfold bind at 1, lift at 1.
  destruct (bind_exn (py_iter data) (map_exn ActionItem_call)) as [e|items].
  { intros H. injection H as <- <-.
    split; [congruence|]. split; [congruence|]. left. exists e.
    repeat split; congruence. }
  intros H. cbv beta iota zeta delta [bind ret save_email upsert_email] in H.
  match type of H with
  | context [index_upsert ?w0 ?rec] =>
      destruct (index_upsert w0 rec) as [e|u] eqn:U;
      injection H as <- <-;
      cbn [prompts drafts emails vectors with_emails with_vectors];
      (split; [congruence|]); (split; [congruence|]);
      right; exists c, reason, items, w0; cbv zeta;
      (split; [now rewrite He2, He|])
  end.
  - split; [exact U | congruence].
  - split; [reflexivity | now rewrite Hv2, Hv].
Qed.


Lemma update_one_keeps_ids {D : Type} (id_of : D -> string) (id : string)
  (doc : D) (coll : list D) (x : string) :
  id_of doc = id ->
  In x (map id_of coll) -> In x (map id_of (update_one id_of id doc coll)).
Proof.
  intros Hid Hx. rewrite update_one_ids by exact Hid.
  destruct (existsb _ coll); [exact Hx | apply in_or_app; now left].
Qed.

Lemma update_one_has_id {D : Type} (id_of : D -> string) (id : string)
  (doc : D) (coll : list D) :
  id_of doc = id -> In id (map id_of (update_one id_of id doc coll)).
Proof.
  intros Hid. rewrite update_one_ids by exact Hid.
  destruct (existsb _ coll) eqn:E; [now apply existsb_id_In in E|].
  apply in_or_app. right. now left.
Qed.

(** A batch is run part after part. *)
Lemma process_email_batch_app
  (categorization_prompt action_item_prompt : option string) :
  forall (l1 l2 : list Email.t) (w : World),
    process_email_batch (l1 ++ l2) categorization_prompt action_item_prompt w
    = (fst (process_email_batch l1 categorization_prompt action_item_prompt w)
         ++ fst (process_email_batch l2 categorization_prompt action_item_prompt
                   (snd (process_email_batch l1 categorization_prompt
                           action_item_prompt w))),
       snd (process_email_batch l2 categorization_prompt action_item_prompt
              (snd (process_email_batch l1 categorization_prompt
                      action_item_prompt w)))).
Proof.
  induction l1 as [|email rest IH]; intros l2 w; cbn [app process_email_batch].
  - cbn [fst snd app]. now destruct (process_email_batch l2 _ _ w).
  - destruct (process_email email categorization_prompt action_item_prompt w)
      as [[e|p] w1].
    + apply IH.
    + rewrite (IH l2 w1).
      destruct (process_email_batch rest categorization_prompt action_item_prompt w1)
        as [r1 w2].
      reflexivity.
Qed.

Lemma process_email_batch_run
  (categorization_prompt action_item_prompt : option string) :
  forall (l : list Email.t) (w : World),
    let result := fst (process_email_batch l categorization_prompt action_item_prompt w) in
    let w' := snd (process_email_batch l categorization_prompt action_item_prompt w) in
    subseq (map Email.id result) (map Email.id l)
    /\ Forall (fun p => Email.embedding_id p = Some (Email.id p)) result
    /\ (forall x, In x (map EmailDoc.id (emails w)) -> In x (map EmailDoc.id (emails w')))
    /\ (forall x, In x (map Vector.id (vectors w)) -> In x (map Vector.id (vectors w')))
    /\ Forall (fun p => In (Email.id p) (map EmailDoc.id (emails w'))
                        /\ In (Email.id p) (map Vector.id (vectors w'))) result
    /\ prompts w' = prompts w /\ drafts w' = drafts w.
Proof.
  induction l as [|email rest IH]; intros w; cbn [process_email_batch].
  - cbn [fst snd map]. repeat split; auto; constructor.
  - destruct (process_email email categorization_prompt action_item_prompt w)
      as [r w1] eqn:P.
    apply process_email_run in P. destruct P as (Hp & Hd & P).
    specialize (IH w1). cbv zeta in IH.
    destruct (process_email_batch rest categorization_prompt action_item_prompt w1)
      as [result w'] eqn:B.
    cbn [fst snd] in IH. destruct IH as (Hs & Hemb & He & Hv & Hin & Hp' & Hd').
    destruct P as [(e & -> & Pe & Pv) | (c & reason & items & w2 & P)].
    { cbn [fst snd map].
      split; [now constructor|]. split; [exact Hemb|].
      split; [intros x Hx; apply He; now rewrite Pe|].
      split; [intros x Hx; apply Hv; now rewrite Pv|].
      split; [exact Hin|]. split; congruence. }
    cbv zeta in P. destruct P as (Pe & P).
    destruct r as [e|processed].
    + destruct P as (_ & Pv). cbn [fst snd map].
      split; [now constructor|]. split; [exact Hemb|].
      split.
      { intros x Hx. apply He. rewrite Pe. now apply update_one_keeps_ids. }
      split; [intros x Hx; apply Hv; now rewrite Pv|].
      split; [exact Hin|]. split; congruence.
    + destruct P as (-> & Pv). cbn [fst snd map].
      split; [now constructor|].
      split; [constructor; [reflexivity | exact Hemb]|].
      split.
      { intros x Hx. apply He. rewrite Pe. now apply update_one_keeps_ids. }
      split.
      { intros x Hx. apply Hv. rewrite Pv. now apply update_one_keeps_ids. }
      split; [|split; congruence].
      constructor; [|exact Hin]. split.
      * apply He. rewrite Pe. now apply update_one_has_id.
      * apply Hv. rewrite Pv. now apply update_one_has_id.
Qed.

(** [process_email_batch] returns the emails that went through, in the
    order given. An email is in the result exactly when it is what
    [process_email] returned for one of the emails of the batch, run in the
    state the emails before it had left; the ids of the result are those of
    the input with the failed ones left out. Each returned email carries
    its own id as [embedding_id], and at the end of the batch it is present
    in the store and in the index. No email or index record that was there
    before the batch is lost, and the prompts and drafts are untouched. *)
Theorem process_email_batch_keeps_order
  (categorization_prompt action_item_prompt : option string)
  (l : list Email.t) (w : World) :
  let batch l w :=
    process_email_batch l categorization_prompt action_item_prompt w in
  let went_through p :=
    exists before email after w',
      l = before ++ email :: after
      /\ process_email email categorization_prompt action_item_prompt
           (snd (batch before w))
         = (inr p, w') in
  (forall p, In p (fst (batch l w)) <-> went_through p)
  /\ subseq (map Email.id (fst (batch l w))) (map Email.id l)
  /\ List.length (fst (batch l w)) <= List.length l
  /\ Forall (fun p => Email.embedding_id p = Some (Email.id p)
                      /\ In (Email.id p) (map EmailDoc.id (emails (snd (batch l w))))
                      /\ In (Email.id p) (map Vector.id (vectors (snd (batch l w)))))
       (fst (batch l w))
  /\ (forall x, In x (map EmailDoc.id (emails w)) ->
                In x (map EmailDoc.id (emails (snd (batch l w)))))
  /\ (forall x, In x (map Vector.id (vectors w)) ->
                In x (map Vector.id (vectors (snd (batch l w)))))
  /\ prompts (snd (batch l w)) = prompts w /\ drafts (snd (batch l w)) = drafts w.
Proof.
  cbv zeta.
  split.
  { intros p. split.
    - revert w. induction l as [|email rest IH]; intros w Hin;
        cbn [process_email_batch] in Hin; [destruct Hin|].
      destruct (process_email email categorization_prompt action_item_prompt w)
        as [[e|q] w1] eqn:P.
      + destruct (IH w1 Hin) as (before & x & after & w' & -> & Hrun).
        exists (email :: before), x, after, w'. split; [reflexivity|].
        cbn [process_email_batch]. now rewrite P.
      + destruct (process_email_batch rest categorization_prompt
                    action_item_prompt w1) as [r1 w2] eqn:B.
        cbn [fst] in Hin. destruct Hin as [<-|Hin].
        * exists [], email, rest, w1. split; [reflexivity | exact P].
        * assert (Hin' : In p (fst (process_email_batch rest categorization_prompt
                                      action_item_prompt w1)))
            by (now rewrite B).
          destruct (IH w1 Hin') as (before & x & after & w' & -> & Hrun).
          exists (email :: before), x, after, w'. split; [reflexivity|].
          cbn [process_email_batch]. rewrite P.
          destruct (process_email_batch before categorization_prompt
                      action_item_prompt w1); exact Hrun.
    - intros (before & email & after & w' & -> & Hrun).
      rewrite process_email_batch_app. cbn [fst]. apply in_or_app. right.
      cbn [process_email_batch]. rewrite Hrun.
      destruct (process_email_batch after categorization_prompt
                  action_item_prompt w'). now left. }
  pose proof (process_email_batch_run categorization_prompt action_item_prompt l w)
    as H. cbv zeta in H.
  destruct H as (Hs & Hemb & He & Hv & Hin & Hp & Hd).
  split; [exact Hs|]. split.
  { rewrite <- (length_map Email.id (fst _)), <- (length_map Email.id l).
    clear - Hs. induction Hs; simpl; lia. }
  split.
  { rewrite Forall_forall in *. intros p Hp0.
    destruct (Hin p Hp0). repeat split; auto. }
  repeat split; assumption.
Qed.

(* ================================================================ *)
(** * Drafts written from instructions and refined *)
(* ================================================================ *)

(** A draft written from instructions goes to the recipient and under the
    subject that were supplied; its body is the text the model answered to
    the prompt built from them, with the surrounding whitespace stripped;
    it answers no email. The constructor reads the clock three times (id,
    [created_at], [updated_at]) and the save once more: the draft and its
    document carry the fourth reading as [updated_at], and when the
    readings are proper datetimes the draft can be reloaded under its id as
    returned. When the model fails, the call raises what the model call
    raised, and no draft is written and no clock read. Emails, prompts and
    the index are never touched. *)
Theorem generate_new_draft_outcomes (recipient subject instructions : string)
  (context : option string) (w w' : World) (r : Exn + EmailDraft.t) :
  generate_new_draft recipient subject instructions context w = (r, w') ->
  emails w' = emails w /\ prompts w' = prompts w /\ vectors w' = vectors w
  /\ match r with
     | inl e =>
         generate_text (new_draft_prompt recipient subject instructions context) w
         = (inl e, w')
         /\ drafts w' = drafts w /\ clock_reads w' = clock_reads w
     | inr draft =>
         (exists text w1,
            generate_text (new_draft_prompt recipient subject instructions context) w
            = (inr text, w1)
            /\ EmailDraft.body draft = PyStr.strip text)
         /\ EmailDraft.recipient draft = recipient
         /\ EmailDraft.subject draft = subject
         /\ trimmed (EmailDraft.body draft)
         /\ EmailDraft.original_email_id draft = None
         /\ EmailDraft.id draft = timestamp_str (now_at (clock_reads w))
         /\ EmailDraft.created_at draft = now_at (clock_reads w + 1)
         /\ EmailDraft.updated_at draft = now_at (clock_reads w + 3)
         /\ clock_reads w' = clock_reads w + 4
         /\ find_one DraftDoc.id (EmailDraft.id draft) (drafts w')
            = Some (EmailDraft_dump draft)
         /\ (valid_datetime (now_at (clock_reads w + 1)) = true ->
             valid_datetime (now_at (clock_reads w + 3)) = true ->
             get_draft (EmailDraft.id draft) w' = Some draft)
     end.
Proof.
  unfold generate_new_draft, bind at 1.
  destruct (generate_text _ w) as [[e|body] w1] eqn:G;
    pose proof (generate_attempts_frame _ _ _ _ _ G) as (He & Hp & Hd & Hv & Hc).
  - intros H. injection H as <- <-. repeat split; assumption.
  - intros H. cbv beta iota zeta delta [bind ret now save_draft] in H.
    injection H as <- <-.
    cbn [emails prompts vectors drafts clock_reads with_drafts tick_clock
         EmailDraft.set_updated_at EmailDraft.recipient EmailDraft.subject
         EmailDraft.body EmailDraft.original_email_id EmailDraft.id
         EmailDraft.created_at EmailDraft.updated_at].
    rewrite Hc.
    replace (clock_reads w + 1) with (S (clock_reads w)) by lia.
    replace (clock_reads w + 3) with (S (S (S (clock_reads w)))) by lia.
    replace (clock_reads w + 4) with (S (S (S (S (clock_reads w))))) by lia.
    split; [assumption|]. split; [assumption|]. split; [assumption|].
    split; [exists body, w1; split; reflexivity|].
    split; [reflexivity|]. split; [reflexivity|].
    split; [apply strip_trimmed|].
    split; [reflexivity|]. split; [reflexivity|]. split; [reflexivity|].
    split; [reflexivity|]. split; [reflexivity|].
    split; [apply find_one_update_one; reflexivity|].
    intros V1 V3.
    match goal with
    | |- get_draft _ (with_drafts (update_one _ _ (EmailDraft_dump ?x) ?coll) ?w0)
         = _ =>
        exact (get_draft_after_save x coll w0 V1 V3)
    end.
Qed.

(** Refining a draft changes its body and its [updated_at] and nothing
    else: id, recipient, subject, [created_at] and the rest are those of
    the draft given. The body is the text the model answered to the
    refinement prompt, stripped. The method reads the clock itself and the
    save reads it again: the [updated_at] kept is the later reading, and
    the document stored under the id is the dump of the draft returned;
    every other draft is as before. When the model fails, the call raises
    what the model call raised, with the drafts as they were. *)
Theorem refine_draft_changes_body_only (draft : EmailDraft.t)
  (refinement_instruction : string) (w w' : World) (r : Exn + EmailDraft.t) :
  refine_draft draft refinement_instruction w = (r, w') ->
  emails w' = emails w /\ prompts w' = prompts w /\ vectors w' = vectors w
  /\ match r with
     | inl e =>
         generate_text (refine_prompt draft refinement_instruction) w = (inl e, w')
         /\ drafts w' = drafts w /\ clock_reads w' = clock_reads w
     | inr refined =>
         (exists text w1,
            generate_text (refine_prompt draft refinement_instruction) w
            = (inr text, w1)
            /\ EmailDraft.body refined = PyStr.strip text)
         /\ EmailDraft_set_body (EmailDraft.body draft)
              (EmailDraft.set_updated_at (EmailDraft.updated_at draft) refined)
            = draft
         /\ trimmed (EmailDraft.body refined)
         /\ EmailDraft.updated_at refined = now_at (clock_reads w + 1)
         /\ clock_reads w' = clock_reads w + 2
         /\ find_one DraftDoc.id (EmailDraft.id draft) (drafts w')
            = Some (EmailDraft_dump refined)
         /\ (forall other, other <> EmailDraft.id draft ->
               find_one DraftDoc.id other (drafts w')
               = find_one DraftDoc.id other (drafts w))
     end.
Proof.
  unfold refine_draft, bind at 1.
  destruct (generate_text _ w) as [[e|body] w1] eqn:G;
    pose proof (generate_attempts_frame _ _ _ _ _ G) as (He & Hp & Hd & Hv & Hc).
  - intros H. injection H as <- <-. repeat split; assumption.
  - intros H. cbv beta iota zeta delta [bind ret now save_draft] in H.
    injection H as <- <-.
    cbn [emails prompts vectors drafts clock_reads with_drafts tick_clock].
    rewrite Hc, Hd.
    replace (clock_reads w + 1) with (S (clock_reads w)) by lia.
    replace (clock_reads w + 2) with (S (S (clock_reads w))) by lia.
    split; [assumption|]. split; [assumption|]. split; [assumption|].
    split; [exists body, w1; split; [reflexivity | destruct draft; reflexivity]|].
    split; [destruct draft; reflexivity|].
    split; [apply strip_trimmed|].
    split; [reflexivity|]. split; [reflexivity|].
    split.
    + apply find_one_update_one. reflexivity.
    + intros other Hne. apply find_one_update_one_other; [reflexivity|].
      cbn. congruence.
Qed.

(* ================================================================ *)
(** * One document with a label outside the enum *)
(* ================================================================ *)

Lemma map_option_fails {A B : Type} (f : A -> option B) (l : list A) (x : A) :
  In x l -> f x = None -> map_option f l = None.
Proof.
  induction l as [|a r IH]; intros Hin Hx; [destruct Hin|].
  simpl. destruct Hin as [->|Hin].
  - now rewrite Hx.
  - rewrite (IH Hin Hx). now destruct (f a).
Qed.

Lemma Email_validate_unknown_label (doc : EmailDoc.t) :
  category_of_string (EmailDoc.category doc) = None -> Email_validate doc = None.
Proof.
  intros H. unfold Email_validate. rewrite H.
  now destruct (parse_datetime (EmailDoc.timestamp doc)).
Qed.

Lemma get_all_emails_unreadable (limit : nat) (w : World) (doc : EmailDoc.t) :
  In doc (emails w) -> Email_validate doc = None ->
  limit = 0 \/ List.length (emails w) <= limit ->
  get_all_emails 0 limit None w = [].
Proof.
  intros Hin Hv Hlen. unfold get_all_emails.
  rewrite (map_option_fails Email_validate _ doc); [reflexivity| |exact Hv].
  cbn [skipn]. rewrite filter_all.
  rewrite cursor_limit_all.
  - apply (Permutation_in doc (sort_perm_gen _ (emails w))). exact Hin.
  - rewrite <- (Permutation_length (sort_perm_gen _ (emails w))). exact Hlen.
Qed.

(** The listing validates the whole page at once, inside one try: one
    stored document whose category label is none of the five values of the
    enum makes [get_all_emails] return the empty list for every page that
    contains it. With such a document among at most 1000 stored, every
    reader of the listing sees an empty inbox although the count is
    positive: no action items, nothing to recategorize (and the model is
    not called), and the summary says the inbox is empty. *)
Theorem one_unknown_label_hides_the_inbox (w : World) (doc : EmailDoc.t) :
  In doc (emails w) ->
  category_of_string (EmailDoc.category doc) = None ->
  List.length (emails w) <= 1000 ->
  0 < get_email_count None w
  /\ (forall limit, limit = 0 \/ List.length (emails w) <= limit ->
        get_all_emails 0 limit None w = [])
  /\ (forall include_completed, get_all_action_items include_completed w = [])
  /\ (forall priority, get_action_items_by_priority priority w = [])
  /\ (forall custom_prompt, recategorize_all_emails custom_prompt w = (inr 0, w))
  /\ (forall max_emails, max_emails = 0 \/ List.length (emails w) <= max_emails ->
        summarize_inbox max_emails w = ("Your inbox is empty.", w)).
Proof.
  intros Hin Hlabel Hlen.
  pose proof (Email_validate_unknown_label doc Hlabel) as Hv.
  pose proof (fun limit H => get_all_emails_unreadable limit w doc Hin Hv H) as Hall.
  assert (H1000 : get_all_emails 0 1000 None w = []) by (apply Hall; now right).
  split.
  { unfold get_email_count. rewrite filter_all.
    destruct (emails w); [destruct Hin | simpl; lia]. }
  split; [exact Hall|].
  split.
  { intros inc. unfold get_all_action_items. now rewrite H1000. }
  split.
  { intros p. unfold get_action_items_by_priority, get_all_action_items.
    now rewrite H1000. }
  split.
  { intros cp. unfold recategorize_all_emails. now rewrite H1000. }
  intros m Hm. unfold summarize_inbox. now rewrite (Hall m Hm).
Qed.

(* ================================================================ *)
(** * Questions over the index *)
(* ================================================================ *)

Lemma map_exn_fails {A B : Type} (f : A -> Exn + B) (e : Exn) (l : list A) (x : A) :
  (forall y e', f y = inl e' -> e' = e) ->
  In x l -> f x = inl e -> map_exn f l = inl e.
Proof.
  intros Hall. induction l as [|a r IH]; intros Hin Hx; [destruct Hin|].
  simpl. destruct (f a) as [e'|b] eqn:Fa.
  - simpl. now rewrite (Hall a e' Fa).
  - destruct Hin as [->|Hin]; [congruence|].
    simpl. now rewrite (IH Hin Hx).
Qed.


Lemma urgent_line_fails (result : Match) (e : Exn) :
  urgent_line result = inl e -> e = AttributeError.
Proof.
  unfold urgent_line, metadata_get.
  destruct (match_metadata result); simpl; congruence.
Qed.

Lemma lstrip_chars_keeps (p : ascii -> bool) (c : ascii) :
  forall l : list ascii,
    In c l -> p c = false -> In c (PyStr.lstrip_chars p l).
Proof.
  induction l as [|x r IH]; intros Hin Hc; [destruct Hin|].
  simpl. destruct (p x) eqn:E; [|exact Hin].
  destruct Hin as [->|Hin]; [congruence | now apply IH].
Qed.

(** Stripping leaves something of a text that is not all whitespace. *)
Lemma strip_nonempty (s : string) (c : ascii) :
  In c (PyStr.chars s) -> PyStr.isspace c = false -> PyStr.strip s <> "".
Proof.
  intros Hin Hc. unfold PyStr.strip, PyStr.rstrip_chars.
  assert (H : In c (rev (PyStr.lstrip_chars PyStr.isspace
                           (rev (PyStr.lstrip_chars PyStr.isspace (PyStr.chars s)))))).
  { apply in_rev. rewrite rev_involutive.
    apply lstrip_chars_keeps; [|exact Hc].
    apply in_rev. rewrite rev_involutive.
    now apply lstrip_chars_keeps. }
  intros E. apply (f_equal PyStr.chars) in E. rewrite chars_of_chars in E.
  rewrite E in H. destruct H.
Qed.

Lemma context_part_cases (result : Match) :
  (match_metadata result = None /\ context_part result = inl AttributeError)
  \/ (match_metadata result <> None
      /\ exists part, context_part result = inr part /\ part <> "").
Proof.
  unfold context_part, metadata_get.
  destruct (match_metadata result) as [items|]; [right | now left].
  split; [discriminate|]. cbn [bind_exn]. eexists. split; [reflexivity|].
  apply (strip_nonempty _ "S"%char); [|reflexivity].
  unfold lines. cbn [String.concat]. rewrite !chars_append.
  apply in_or_app. right. apply in_or_app. right.
  apply in_or_app. left. apply in_or_app. left.
  simpl. now left.
Qed.

Lemma map_exn_context_parts (results : list Match) :
  (exists result,
     In result results /\ match_metadata result = None
     /\ map_exn context_part results = inl AttributeError)
  \/ (Forall (fun result => match_metadata result <> None) results
      /\ exists parts,
           map_exn context_part results = inr parts
           /\ List.length parts = List.length results
           /\ Forall (fun part => part <> "") parts).
Proof.
  induction results as [|x rest IH].
  - right. split; [constructor|]. exists []. repeat split. constructor.
  - destruct (context_part_cases x) as [(Hm & Hx) | (Hm & part & Hx & Hpart)].
    + left. exists x. split; [now left|]. split; [exact Hm|].
      simpl. now rewrite Hx.
    + destruct IH as [(r & Hin & Hr & Hfail) | (Hall & parts & Hparts & Hlen & Hne)].
      * left. exists r. split; [now right|]. split; [exact Hr|].
        simpl. rewrite Hx. simpl. now rewrite Hfail.
      * right. split; [now constructor|]. exists (part :: parts).
        split; [simpl; rewrite Hx; simpl; now rewrite Hparts|].
        split; [simpl; now rewrite Hlen | now constructor].
Qed.

Lemma concat_nonempty (sep part : string) (parts : list string) :
  part <> "" -> String.concat sep (part :: parts) <> "".
Proof.
  intros Hne. destruct part as [|c part]; [now destruct Hne|].
  destruct parts; simpl; discriminate.
Qed.

(** The runs of [answer_query], by what the index and the model answer. *)
Lemma answer_query_run (query : string) (top_k : nat) (w : World) :
  let failed e := mk_answer ("Error processing query: " +++ exn_str e) [] "error" in
  (exists e,
     index_query w query top_k = inl e
     /\ answer_query query top_k w = (failed e, w))
  \/ (exists results result,
        index_query w query top_k = inr results
        /\ In result results /\ match_metadata result = None
        /\ answer_query query top_k w = (failed AttributeError, w))
  \/ (index_query w query top_k = inr []
      /\ answer_query query top_k w = (mk_answer no_information [] "low", w))
  \/ (exists results relevant_context,
        index_query w query top_k = inr results
        /\ results <> []
        /\ Forall (fun result => match_metadata result <> None) results
        /\ get_relevant_context query top_k w = (inr relevant_context, w)
        /\ relevant_context <> ""
        /\ ((exists e w1,
               answer_question query relevant_context w = (inl e, w1)
               /\ answer_query query top_k w = (failed e, w1))
            \/ (exists text w1 e,
                  answer_question query relevant_context w = (inr text, w1)
                  /\ index_query w1 query 3 = inl e
                  /\ answer_query query top_k w = (failed e, w1))
            \/ (exists text w1 found,
                  answer_question query relevant_context w = (inr text, w1)
                  /\ index_query w1 query 3 = inr found
                  /\ answer_query query top_k w
                     = (mk_answer text found
                          (if Nat.leb 2 (List.length found) then "high"
                           else "medium"), w1)))).
Proof.
  cbv zeta.
  assert (Hctx : get_relevant_context query top_k w
                 = match index_query w query top_k with
                   | inl e => (inl e, w)
                   | inr results =>
                       match map_exn context_part results with
                       | inl e => (inl e, w)
                       | inr parts => (inr (String.concat context_separator parts), w)
                       end
                   end).
  { unfold get_relevant_context, search_similar_emails, bind, lift, ret.
    destruct (index_query w query top_k) as [e|results]; [reflexivity|].
    now destruct (map_exn context_part results). }
  assert (Hrun : answer_query query top_k w
                 = match get_relevant_context query top_k w with
                   | (inl e, w0) =>
                       (mk_answer ("Error processing query: " +++ exn_str e) []
                          "error", w0)
                   | (inr relevant_context, w0) =>
                       if negb (PyStr.truthy relevant_context)
                       then (mk_answer no_information [] "low", w0)
                       else
                         match answer_question query relevant_context w0 with
                         | (inl e, w1) =>
                             (mk_answer ("Error processing query: " +++ exn_str e)
                                [] "error", w1)
                         | (inr text, w1) =>
                             match index_query w1 query 3 with
                             | inl e =>
                                 (mk_answer
                                    ("Error processing query: " +++ exn_str e)
                                    [] "error", w1)
                             | inr found =>
                                 (mk_answer text found
                                    (if Nat.leb 2 (List.length found) then "high"
                                     else "medium"), w1)
                             end
                         end
                   end).
  { unfold answer_query. unfold bind at 1.
    destruct (get_relevant_context query top_k w) as [[e|ctx] w0]; [reflexivity|].
    destruct (negb (PyStr.truthy ctx)); [reflexivity|].
    unfold bind at 1.
    destruct (answer_question query ctx w0) as [[e|text] w1]; [reflexivity|].
    unfold bind, search_similar_emails, ret.
    now destruct (index_query w1 query 3). }
  rewrite Hrun, Hctx. clear Hrun.
  destruct (index_query w query top_k) as [e|results] eqn:Q.
  { left. exists e. split; reflexivity. }
  right.
  destruct (map_exn_context_parts results)
    as [(result & Hin & Hm & Hfail) | (Hall & parts & Hparts & Hlen & Hne)].
  { left. exists results, result. rewrite Hfail. repeat split; assumption. }
  right. rewrite Hparts.
  destruct results as [|first rest].
  { left. destruct parts; [|discriminate]. split; reflexivity. }
  right. destruct parts as [|part parts]; [discriminate|].
  inversion Hne as [|? ? Hpart Hrest]; subst.
  pose proof (concat_nonempty context_separator part parts Hpart) as Hc.
  assert (T : PyStr.truthy (String.concat context_separator (part :: parts)) = true).
  { unfold PyStr.truthy. apply negb_true_iff. now apply String.eqb_neq. }
  rewrite T. cbn [negb].
  exists (first :: rest), (String.concat context_separator (part :: parts)).
  split; [reflexivity|]. split; [discriminate|]. split; [exact Hall|].
  split; [reflexivity|]. split; [exact Hc|].
  destruct (answer_question query _ w) as [[e|text] w1].
  { left. exists e, w1. split; reflexivity. }
  right.
  destruct (index_query w1 query 3) as [e|found] eqn:Q3.
  { left. exists text, w1, e. repeat split. exact Q3. }
  right. exists text, w1, found. repeat split. exact Q3.
Qed.

Lemma answer_question_frame (question context : string) (w w1 : World)
  (r : Exn + string) :
  answer_question question context w = (r, w1) -> same_stores w w1.
Proof.
  unfold answer_question, bind.
  destruct (generate_text _ w) as [[e|text] w2] eqn:G; intros H;
    injection H as _ <-; eapply generate_attempts_frame; exact G.
Qed.

(** [answer_query] never raises and writes nothing. Its confidence is one
    of four texts. [low] means the search found nothing: the index
    answered with no match, the fixed apology is returned and the model
    was not called. [error] comes with no sources. [medium] and [high] mean
    that the model answered the question over a context that is not empty
    and that the second search returned the sources, at least two of them
    for [high] and fewer for [medium]; the answer is the model's, stripped.
    When the search itself fails the answer is the error text for that
    exception, and when one of the matches has no metadata the answer is
    the error text for an [AttributeError]; in both cases the model was not
    called. And when the search returns matches that all have metadata, the
    context is not empty and the model is asked: the outcome is the model's
    answer with the sources of the second search, or the error text of
    whichever of the two failed. *)
Theorem answer_query_confidence (query : string) (top_k : nat) (w : World) :
  let a := fst (answer_query query top_k w) in
  let w' := snd (answer_query query top_k w) in
  let failed e := mk_answer ("Error processing query: " +++ exn_str e) [] "error" in
  (forall results,
     index_query w query top_k = inr results -> results <> [] ->
     Forall (fun result => match_metadata result <> None) results ->
     exists relevant_context,
       get_relevant_context query top_k w = (inr relevant_context, w)
       /\ relevant_context <> ""
       /\ answer_query query top_k w
          = match answer_question query relevant_context w with
            | (inl e, w1) => (failed e, w1)
            | (inr text, w1) =>
                match index_query w1 query 3 with
                | inl e => (failed e, w1)
                | inr found =>
                    (mk_answer text found
                       (if Nat.leb 2 (List.length found) then "high"
                        else "medium"), w1)
                end
            end)
  /\ same_stores w w'
  /\ In (confidence a) ["low"; "medium"; "high"; "error"]
  /\ (confidence a = "low" ->
        index_query w query top_k = inr []
        /\ a = mk_answer no_information [] "low" /\ w' = w)
  /\ (confidence a = "error" -> sources a = [])
  /\ (confidence a = "high" -> 2 <= List.length (sources a))
  /\ (confidence a = "medium" -> List.length (sources a) < 2)
  /\ (confidence a = "medium" \/ confidence a = "high" ->
        exists relevant_context,
          get_relevant_context query top_k w = (inr relevant_context, w)
          /\ relevant_context <> ""
          /\ answer_question query relevant_context w = (inr (answer a), w')
          /\ index_query w' query 3 = inr (sources a))
  /\ (index_query w query top_k = inr [] ->
        a = mk_answer no_information [] "low" /\ w' = w)
  /\ (forall e, index_query w query top_k = inl e ->
        a = mk_answer ("Error processing query: " +++ exn_str e) [] "error"
        /\ w' = w)
  /\ (forall results result,
        index_query w query top_k = inr results ->
        In result results -> match_metadata result = None ->
        a = mk_answer ("Error processing query: " +++ exn_str AttributeError)
              [] "error"
        /\ w' = w).
Proof.
  cbv zeta.
  split.
  { intros results Q Hne Hall.
    destruct (answer_query_run query top_k w)
      as [(e & Q' & _)
         | [(results' & result & Q' & Hin & Hm & _)
           | [(Q' & _)
             | (results' & ctx & Q' & _ & _ & Hctx & Hc & Hrun)]]].
    - rewrite Q in Q'. discriminate.
    - rewrite Q in Q'. injection Q' as <-.
      rewrite Forall_forall in Hall. now destruct (Hall result Hin).
    - rewrite Q in Q'. injection Q' as ->. now destruct Hne.
    - exists ctx. split; [exact Hctx|]. split; [exact Hc|].
      destruct Hrun as [(e & w1 & A & Hr)
                       | [(text & w1 & e & A & Q3 & Hr)
                         | (text & w1 & found & A & Q3 & Hr)]];
        rewrite A, ?Q3; exact Hr. }
  assert (Hsame : same_stores w w) by (repeat split).
  destruct (answer_query_run query top_k w)
    as [(e & Q & ->)
       | [(results & result & Q & Hin & Hm & ->)
         | [(Q & ->)
           | (results & ctx & Q & Hne & Hall & Hctx & Hc & Hrun)]]];
    cbn [fst snd confidence sources answer].
  - split; [exact Hsame|]. split; [simpl; auto|].
    split; [discriminate|]. split; [reflexivity|]. split; [discriminate|].
    split; [discriminate|]. split; [intros [|]; discriminate|].
    split; [rewrite Q; discriminate|]. split.
    + intros e' E. rewrite Q in E. injection E as <-. split; reflexivity.
    + intros ? ? E. rewrite Q in E. discriminate.
  - split; [exact Hsame|]. split; [simpl; auto|].
    split; [discriminate|]. split; [reflexivity|]. split; [discriminate|].
    split; [discriminate|]. split; [intros [|]; discriminate|].
    split.
    { intros E. rewrite Q in E. injection E as ->. destruct Hin. }
    split; [intros e E; rewrite Q in E; discriminate|].
    intros ? ? _ _ _. split; reflexivity.
  - split; [exact Hsame|]. split; [simpl; auto|].
    split; [intros _; repeat split; exact Q|]. split; [discriminate|].
    split; [discriminate|]. split; [discriminate|].
    split; [intros [|]; discriminate|].
    split; [intros _; split; reflexivity|].
    split; [intros e E; rewrite Q in E; discriminate|].
    intros results result E Hin _. rewrite Q in E. injection E as <-.
    destruct Hin.
  - assert (Hno : forall results' result,
              index_query w query top_k = inr results' ->
              In result results' -> match_metadata result = None -> False).
    { intros results' result E Hin Hm. rewrite Q in E. injection E as <-.
      rewrite Forall_forall in Hall. now apply (Hall result Hin). }
    assert (Hempty : index_query w query top_k = inr [] -> False).
    { intros E. rewrite Q in E. injection E as ->. now destruct Hne. }
    destruct Hrun as [(e & w1 & A & ->)
                     | [(text & w1 & e & A & Q3 & ->)
                       | (text & w1 & found & A & Q3 & ->)]];
      cbn [fst snd confidence sources answer];
      pose proof (answer_question_frame _ _ _ _ _ A) as F.
    + split; [exact F|]. split; [simpl; auto|].
      split; [discriminate|]. split; [reflexivity|]. split; [discriminate|].
      split; [discriminate|]. split; [intros [|]; discriminate|].
      split; [intros E; destruct (Hempty E)|].
      split; [intros e' E; rewrite Q in E; discriminate|].
      intros ? ? E Hin Hm. destruct (Hno _ _ E Hin Hm).
    + split; [exact F|]. split; [simpl; auto|].
      split; [discriminate|]. split; [reflexivity|]. split; [discriminate|].
      split; [discriminate|]. split; [intros [|]; discriminate|].
      split; [intros E; destruct (Hempty E)|].
      split; [intros e' E; rewrite Q in E; discriminate|].
      intros ? ? E Hin Hm. destruct (Hno _ _ E Hin Hm).
    + split; [exact F|].
      destruct (Nat.leb_spec 2 (List.length found)) as [L|L].
      * split; [simpl; auto|]. split; [discriminate|]. split; [discriminate|].
        split; [intros _; exact L|]. split; [discriminate|].
        split; [intros _; exists ctx; repeat split; assumption|].
        split; [intros E; destruct (Hempty E)|].
        split; [intros e' E; rewrite Q in E; discriminate|].
        intros ? ? E Hin Hm. destruct (Hno _ _ E Hin Hm).
      * split; [simpl; auto|]. split; [discriminate|]. split; [discriminate|].
        split; [discriminate|]. split; [intros _; exact L|].
        split; [intros _; exists ctx; repeat split; assumption|].
        split; [intros E; destruct (Hempty E)|].
        split; [intros e' E; rewrite Q in E; discriminate|].
        intros ? ? E Hin Hm. destruct (Hno _ _ E Hin Hm).
Qed.

(* ================================================================ *)
(** * The listing: pages, filter and order *)
(* ================================================================ *)

Lemma compare_cons_same (c : ascii) (s1 s2 : string) :
  String.compare (String c s1) (String c s2) = String.compare s1 s2.
Proof.
  simpl. unfold Ascii.compare. now rewrite N.compare_refl.
Qed.

Lemma compare_digit (a b : N) :
  (a < 10)%N -> (b < 10)%N -> Ascii.compare (digit a) (digit b) = (a ?= b)%N.
Proof.
  intros Ha Hb. unfold Ascii.compare, digit.
  rewrite !N_ascii_embedding by lia.
  destruct (N.compare_spec a b) as [E|E|E].
  - subst. apply N.compare_refl.
  - apply N.compare_lt_iff. lia.
  - apply N.compare_gt_iff. lia.
Qed.

(** Two numbers written with the same number of digits compare as texts the
    way they compare as numbers, and what follows them decides a tie. *)
Lemma compare_zfill (w : nat) : forall (x y : N) (r1 r2 : list ascii),
  (x < 10 ^ N.of_nat w)%N -> (y < 10 ^ N.of_nat w)%N ->
  String.compare (PyStr.of_chars (zfill w x ++ r1))
                 (PyStr.of_chars (zfill w y ++ r2))
  = match (x ?= y)%N with
    | Eq => String.compare (PyStr.of_chars r1) (PyStr.of_chars r2)
    | c => c
    end.
Proof.
  induction w as [|w IH]; intros x y r1 r2 Hx Hy.
  - simpl in Hx, Hy. assert (x = 0%N) by lia. assert (y = 0%N) by lia. subst.
    reflexivity.
  - cbn [zfill]. 
    set (p := (10 ^ N.of_nat w)%N) in *.
    assert (Hp : (0 < p)%N) by (apply N.neq_0_lt_0, N.pow_nonzero; lia).
    assert (HS : (10 ^ N.of_nat (S w) = 10 * p)%N).
    { rewrite Nat2N.inj_succ, N.pow_succ_r'. reflexivity. }
    rewrite HS in Hx, Hy.
    pose proof (N.div_mod x p ltac:(lia)) as Dx.
    pose proof (N.div_mod y p ltac:(lia)) as Dy.
    pose proof (N.mod_lt x p ltac:(lia)) as Mx.
    pose proof (N.mod_lt y p ltac:(lia)) as My.
    assert (Qx : (x / p < 10)%N) by (apply N.Div0.div_lt_upper_bound; lia).
    assert (Qy : (y / p < 10)%N) by (apply N.Div0.div_lt_upper_bound; lia).
    cbn [app PyStr.of_chars string_of_list_ascii String.compare].
    rewrite compare_digit by assumption.
    change (string_of_list_ascii ?l) with (PyStr.of_chars l).
    rewrite (IH (x mod p)%N (y mod p)%N r1 r2 Mx My).
    set (qx := (x / p)%N) in *. set (qy := (y / p)%N) in *.
    set (mx := (x mod p)%N) in *. set (my := (y mod p)%N) in *.
    destruct (N.compare_spec qx qy) as [E|E|E].
    + destruct (N.compare_spec mx my) as [F|F|F].
      * replace x with y by lia. now rewrite N.compare_refl.
      * symmetry. assert (x < y)%N by nia. 
        destruct (N.compare_spec x y); try lia. reflexivity.
      * symmetry. assert (y < x)%N by nia.
        destruct (N.compare_spec x y); try lia. reflexivity.
    + symmetry. assert (x < y)%N by nia.
      destruct (N.compare_spec x y); try lia. reflexivity.
    + symmetry. assert (y < x)%N by nia.
      destruct (N.compare_spec x y); try lia. reflexivity.
Qed.

Lemma compare_sep (c : ascii) (r1 r2 : list ascii) :
  String.compare (PyStr.of_chars (c :: r1)) (PyStr.of_chars (c :: r2))
  = String.compare (PyStr.of_chars r1) (PyStr.of_chars r2).
Proof. apply compare_cons_same. Qed.

Lemma compare_fraction (ua ub : N) :
  (ua < 10 ^ N.of_nat 6)%N -> (ub < 10 ^ N.of_nat 6)%N ->
  String.compare
    (PyStr.of_chars (if (ua =? 0)%N then [] else "."%char :: zfill 6 ua))
    (PyStr.of_chars (if (ub =? 0)%N then [] else "."%char :: zfill 6 ub))
  = (ua ?= ub)%N.
Proof.
  intros Ha Hb.
  destruct (N.eqb_spec ua 0) as [->|Na], (N.eqb_spec ub 0) as [->|Nb].
  - reflexivity.
  - symmetry. apply N.compare_lt_iff. lia.
  - symmetry. apply N.compare_gt_iff. lia.
  - rewrite compare_sep.
    rewrite <- (app_nil_r (zfill 6 ua)), <- (app_nil_r (zfill 6 ub)).
    rewrite compare_zfill by assumption.
    now destruct (ua ?= ub)%N.
Qed.

Local Ltac by_compare :=
  symmetry;
  first [ apply N.compare_eq_iff | apply N.compare_lt_iff | apply N.compare_gt_iff ];
  unfold chronological;
  cbn [year month day hour minute second microsecond]; lia.

(** The ISO texts of two datetimes compare, character by character, the
    way the datetimes do in time. *)
Lemma compare_isoformat (a b : datetime) :
  valid_datetime a = true -> valid_datetime b = true ->
  String.compare (isoformat a) (isoformat b)
  = (chronological a ?= chronological b)%N.
Proof.
  intros Va Vb.
  destruct (valid_datetime_bounds a Va) as (Ay & Amo & Ad & Ah & Ami & As & Aus).
  destruct (valid_datetime_bounds b Vb) as (By & Bmo & Bd & Bh & Bmi & Bs & Bus).
  destruct a as [y mo da h mi se us], b as [y' mo' da' h' mi' se' us'].
  cbn [year month day hour minute second microsecond] in *.
  unfold isoformat, isoformat_chars.
  cbn [year month day hour minute second microsecond].
  rewrite compare_zfill, compare_sep by assumption.
  rewrite compare_zfill, compare_sep by assumption.
  rewrite compare_zfill, compare_sep by assumption.
  rewrite compare_zfill, compare_sep by assumption.
  rewrite compare_zfill, compare_sep by assumption.
  rewrite compare_zfill by assumption.
  rewrite compare_fraction by assumption.
  change (10 ^ N.of_nat 4)%N with 10000%N in *.
  change (10 ^ N.of_nat 2)%N with 100%N in *.
  change (10 ^ N.of_nat 6)%N with 1000000%N in *.
  destruct (N.compare_spec y y'); [subst y'| by_compare | by_compare].
  destruct (N.compare_spec mo mo'); [subst mo'| by_compare | by_compare].
  destruct (N.compare_spec da da'); [subst da'| by_compare | by_compare].
  destruct (N.compare_spec h h'); [subst h'| by_compare | by_compare].
  destruct (N.compare_spec mi mi'); [subst mi'| by_compare | by_compare].
  destruct (N.compare_spec se se'); [subst se'| by_compare | by_compare].
  destruct (N.compare_spec us us'); [subst us'| by_compare | by_compare].
  by_compare.
Qed.


Lemma leb_isoformat (a b : datetime) :
  valid_datetime a = true -> valid_datetime b = true ->
  (String.leb (isoformat b) (isoformat a) = true <-> not_earlier a b).
Proof.
  intros Va Vb. unfold String.leb, not_earlier.
  rewrite (compare_isoformat b a Vb Va).
  destruct (N.compare_spec (chronological b) (chronological a)); split;
    intros; try reflexivity; try discriminate; lia.
Qed.

Lemma insert_In {A : Type} (le : A -> A -> bool) (x : A) (l : list A) (z : A) :
  In z (insert le x l) -> z = x \/ In z l.
Proof.
  intros H. apply (Permutation_in z (Permutation_sym (insert_perm_gen le x l))) in H.
  destruct H as [<-|H]; [now left | now right].
Qed.

Lemma insert_strongly_sorted {A : Type} (le : A -> A -> bool) (x : A) :
  forall l : list A,
    (forall a b, le a b = false -> le b a = true) ->
    (forall a b c, In a (x :: l) -> In b (x :: l) -> In c (x :: l) ->
                   le a b = true -> le b c = true -> le a c = true) ->
    StronglySorted (fun a b => le a b = true) l ->
    StronglySorted (fun a b => le a b = true) (insert le x l).
Proof.
  induction l as [|y r IH]; intros Htot Htr Hs.
  - simpl. constructor; constructor.
  - apply StronglySorted_inv in Hs. destruct Hs as (Hr & Hy).
    simpl. destruct (le x y) eqn:E.
    + constructor; [constructor; assumption|].
      constructor; [exact E|].
      rewrite Forall_forall in *. intros z Hz.
      apply (Htr x y z); simpl; auto.
    + constructor.
      * apply IH; [exact Htot| |exact Hr].
        intros a b c Ha Hb Hc. apply Htr; simpl in *; tauto.
      * rewrite Forall_forall in *. intros z Hz.
        apply insert_In in Hz. destruct Hz as [->|Hz]; [now apply Htot | now apply Hy].
Qed.

Lemma sort_strongly_sorted {A : Type} (le : A -> A -> bool) :
  forall l : list A,
    (forall a b, le a b = false -> le b a = true) ->
    (forall a b c, In a l -> In b l -> In c l ->
                   le a b = true -> le b c = true -> le a c = true) ->
    StronglySorted (fun a b => le a b = true) (sort le l).
Proof.
  induction l as [|x r IH]; intros Htot Htr.
  - constructor.
  - simpl. apply insert_strongly_sorted; [exact Htot| |].
    + assert (Hin : forall z, In z (x :: sort le r) -> In z (x :: r)).
      { intros z [<-|Hz]; [now left|]. right.
        apply (Permutation_in z (Permutation_sym (sort_perm_gen le r))). exact Hz. }
      intros a b c Ha Hb Hc. apply Htr; now apply Hin.
    + apply IH; [exact Htot|]. intros a b c Ha Hb Hc. apply Htr; now right.
Qed.

Lemma StronglySorted_skipn {A : Type} (R : A -> A -> Prop) (n : nat) :
  forall l : list A, StronglySorted R l -> StronglySorted R (skipn n l).
Proof.
  induction n as [|n IH]; intros l H; [exact H|].
  destruct l as [|a r]; [exact H|]. simpl. apply IH.
  now apply StronglySorted_inv in H.
Qed.

Lemma StronglySorted_firstn {A : Type} (R : A -> A -> Prop) (n : nat) :
  forall l : list A, StronglySorted R l -> StronglySorted R (firstn n l).
Proof.
  induction n as [|n IH]; intros l H; [constructor|].
  destruct l as [|a r]; [constructor|]. simpl.
  apply StronglySorted_inv in H. destruct H as (Hr & Ha).
  constructor; [now apply IH|].
  rewrite Forall_forall in *. intros z Hz. apply Ha. now apply In_firstn in Hz.
Qed.

Lemma map_option_sorted {A B : Type} (f : A -> option B)
  (R : A -> A -> Prop) (R' : B -> B -> Prop) :
  forall (l : list A) (l' : list B),
    (forall a b a' b', In a l -> In b l -> f a = Some a' -> f b = Some b' ->
                       R a b -> R' a' b') ->
    map_option f l = Some l' ->
    StronglySorted R l -> StronglySorted R' l'.
Proof.
  induction l as [|x r IH]; intros l' Hrel H Hs; simpl in H.
  - injection H as <-. constructor.
  - destruct (f x) as [y|] eqn:Fx; [|discriminate].
    destruct (map_option f r) as [ys|] eqn:M; [|discriminate].
    injection H as <-.
    apply StronglySorted_inv in Hs. destruct Hs as (Hr & Hx).
    constructor.
    + apply (IH ys); [|reflexivity|exact Hr].
      intros a b a' b' Ha Hb. apply Hrel; now right.
    + rewrite Forall_forall in *. intros z Hz.
      destruct (map_option_In f r ys M z Hz) as (d & Hd & Fd).
      apply (Hrel x d); auto; [now left | now right].
Qed.

Lemma canonical_timestamp_validated (d : EmailDoc.t) (e : Email.t) :
  canonical_timestamp d -> Email_validate d = Some e ->
  valid_datetime (Email.timestamp e) = true
  /\ EmailDoc.timestamp d = isoformat (Email.timestamp e).
Proof.
  intros (t & Vt & Ht) H. unfold Email_validate in H.
  rewrite Ht, (parse_datetime_isoformat t Vt) in H.
  destruct (category_of_string (EmailDoc.category d)); [|discriminate].
  destruct (EmailDoc.category_reason d); try discriminate;
    injection H as <-; simpl; auto.
Qed.

(** For a positive [limit] (to the store, a limit of 0 means none), a page
    of the listing has at most [limit] emails, each the validated form of
    a stored document; with a category given, every one of them is
    of that category; and, the stored timestamps being ISO texts as
    [save_email] writes them, the page is ordered newest first: no email
    is earlier than one that follows it. The order is that of the texts in
    the store, which for ISO texts is the order in time. *)
Theorem get_all_emails_newest_first (skip limit : nat)
  (category : option EmailCategory) (w : World) :
  0 < limit ->
  Forall canonical_timestamp (emails w) ->
  let page := get_all_emails skip limit category w in
  List.length page <= limit
  /\ Forall (fun e => exists doc, In doc (emails w) /\ Email_validate doc = Some e)
       page
  /\ (forall c, category = Some c -> Forall (fun e => Email.category e = c) page)
  /\ StronglySorted
       (fun a b => not_earlier (Email.timestamp a) (Email.timestamp b)) page.
Proof.
  intros Hpos Hcan page.
  assert (Hstored : forall e, In e page ->
            exists doc, In doc (emails w) /\ Email_validate doc = Some e
              /\ forall c, category = Some c ->
                           EmailDoc.category doc = category_value c).
  { intros e. apply get_all_emails_stored. }
  split; [|split; [|split]].
  - subst page. unfold get_all_emails.
    rewrite cursor_limit_positive by exact Hpos.
    match goal with
    | |- context [map_option Email_validate ?cur] =>
        destruct (map_option Email_validate cur) as [l|] eqn:M
    end; [|simpl; lia].
    rewrite (map_option_length _ _ _ M). apply firstn_le_length.
  - rewrite Forall_forall. intros e He.
    destruct (Hstored e He) as (doc & Hin & Hv & _). now exists doc.
  - intros c Hc. rewrite Forall_forall. intros e He.
    destruct (Hstored e He) as (doc & Hin & Hv & Hcat).
    specialize (Hcat c Hc). unfold Email_validate in Hv.
    destruct (parse_datetime (EmailDoc.timestamp doc)); [|discriminate].
    rewrite Hcat, category_of_string_value in Hv.
    destruct (EmailDoc.category_reason doc); try discriminate;
      now injection Hv as <-.
  - subst page. unfold get_all_emails.
    rewrite cursor_limit_positive by exact Hpos.
    match goal with
    | |- context [map_option Email_validate (firstn _ (skipn _ (sort ?le ?l)))] =>
        set (leb := le); set (docs := l)
    end.
    assert (Hdocs : forall d, In d docs -> canonical_timestamp d).
    { intros d Hd. subst docs. apply filter_In in Hd.
      rewrite Forall_forall in Hcan. now apply Hcan. }
    assert (Hleb : forall a b ta tb,
              valid_datetime ta = true -> valid_datetime tb = true ->
              EmailDoc.timestamp a = isoformat ta ->
              EmailDoc.timestamp b = isoformat tb ->
              (leb a b = true <-> not_earlier ta tb)).
    { intros a b ta tb Va Vb Ea Eb. unfold leb. rewrite Ea, Eb.
      now apply leb_isoformat. }
    assert (Hsorted : StronglySorted (fun a b => leb a b = true) (sort leb docs)).
    { apply sort_strongly_sorted.
      - intros a b H. unfold leb in *. unfold String.leb in *.
        rewrite String.compare_antisym.
        destruct (String.compare (EmailDoc.timestamp b) (EmailDoc.timestamp a));
          simpl in *; congruence.
      - intros a b c Ha Hb Hc.
        destruct (Hdocs a Ha) as (ta & Va & Ea).
        destruct (Hdocs b Hb) as (tb & Vb & Eb).
        destruct (Hdocs c Hc) as (tc & Vc & Ec).
        rewrite (Hleb a b ta tb), (Hleb b c tb tc), (Hleb a c ta tc) by assumption.
        unfold not_earlier. lia. }
    destruct (map_option Email_validate (firstn limit (skipn skip (sort leb docs))))
      as [l|] eqn:M; [|constructor].
    apply (map_option_sorted Email_validate (fun a b => leb a b = true) _ _ l)
      with (3 := StronglySorted_firstn _ limit _
                   (StronglySorted_skipn _ skip _ Hsorted)); [|exact M].
    intros a b a' b' Ha Hb Fa Fb Hab.
    assert (Hin : forall d, In d (firstn limit (skipn skip (sort leb docs))) ->
                            In d docs).
    { intros d Hd. apply In_firstn, In_skipn in Hd.
      apply (Permutation_in d (Permutation_sym (sort_perm_gen leb docs))). exact Hd. }
    destruct (canonical_timestamp_validated a a' (Hdocs a (Hin a Ha)) Fa) as (Va & Ea).
    destruct (canonical_timestamp_validated b b' (Hdocs b (Hin b Hb)) Fb) as (Vb & Eb).
    now apply (Hleb a b _ _ Va Vb Ea Eb).
Qed.

(* ================================================================ *)
(** * Stored prompts *)
(* ================================================================ *)

Lemma PromptConfig_validate_dump (p : PromptConfig.t) :
  valid_datetime (PromptConfig.created_at p) = true ->
  valid_datetime (PromptConfig.updated_at p) = true ->
  PromptConfig_validate (PromptConfig_dump p) = Some p.
Proof.
  intros Hc Hu. unfold PromptConfig_validate, PromptConfig_dump. simpl.
  rewrite (parse_datetime_isoformat _ Hc), (parse_datetime_isoformat _ Hu).
  now destruct p.
Qed.

Lemma find_update_one_selected {D : Type} (id_of : D -> string)
  (selected : D -> bool) (id : string) (doc : D) :
  forall coll : list D,
    id_of doc = id ->
    (forall d, In d coll -> selected d = true -> id_of d = id) ->
    selected doc = true ->
    find selected (update_one id_of id doc coll) = Some doc.
Proof.
  induction coll as [|d rest IH]; intros Hid Honly Hsel; simpl.
  - now rewrite Hsel.
  - destruct (String.eqb_spec (id_of d) id) as [E|E]; simpl.
    + now rewrite Hsel.
    + destruct (selected d) eqn:S.
      * destruct E. apply Honly; [now left | exact S].
      * apply IH; auto. intros d' Hd'. apply Honly. now right.
Qed.

Lemma find_update_one_unselected {D : Type} (id_of : D -> string)
  (selected : D -> bool) (id : string) (doc : D) :
  forall coll : list D,
    id_of doc = id ->
    (forall d, In d coll -> selected d = true -> id_of d = id) ->
    unique_ids id_of coll ->
    selected doc = false ->
    find selected (update_one id_of id doc coll) = None.
Proof.
  unfold unique_ids.
  induction coll as [|d rest IH]; intros Hid Honly Hu Hsel; simpl.
  - now rewrite Hsel.
  - inversion Hu as [|? ? Hnot Hrest]; subst.
    destruct (String.eqb_spec (id_of d) (id_of doc)) as [E|E]; simpl.
    + rewrite Hsel. apply find_all_false. intros x Hx.
      destruct (selected x) eqn:S; [|reflexivity].
      destruct Hnot. rewrite E, <- (Honly x (or_intror Hx) S). now apply in_map.
    + destruct (selected d) eqn:S.
      * destruct E. apply Honly; [now left | exact S].
      * apply IH; auto. intros d' Hd'. apply Honly. now right.
Qed.

(** Saving a prompt decides what the agents use. Let the stored prompts
    hold no other active prompt of the saved prompt's type. If the saved
    prompt is active, it is the active prompt of its type from then on, an
    agent called without a prompt of its own uses its text, and a
    non-empty prompt passed to the agent still wins. If it is inactive
    (and the ids are unique, as the index demands), its type has no active
    prompt any more and the agents fall back on the default of the
    settings. Emails, drafts and the index are untouched. *)
Theorem save_prompt_sets_the_active_prompt (p : PromptConfig.t) (w : World) :
  valid_datetime (PromptConfig.created_at p) = true ->
  valid_datetime (PromptConfig.updated_at p) = true ->
  (forall d, In d (prompts w) ->
     PromptDoc.prompt_type d = PromptConfig.prompt_type p ->
     PromptDoc.is_active d = true ->
     PromptDoc.id d = PromptConfig.id p) ->
  let w' := snd (save_prompt p w) in
  (PromptConfig.is_active p = true ->
     get_active_prompt (PromptConfig.prompt_type p) w' = Some p
     /\ resolve_prompt (PromptConfig.prompt_type p) None w'
        = Some (PromptConfig.prompt_text p)
     /\ forall s, PyStr.truthy s = true ->
          resolve_prompt (PromptConfig.prompt_type p) (Some s) w' = Some s)
  /\ (PromptConfig.is_active p = false ->
      unique_ids PromptDoc.id (prompts w) ->
      get_active_prompt (PromptConfig.prompt_type p) w' = None
      /\ resolve_prompt (PromptConfig.prompt_type p) None w' = None)
  /\ emails w' = emails w /\ drafts w' = drafts w /\ vectors w' = vectors w.
Proof.
  intros Hc Hu Honly w'.
  assert (Hsel : forall d, In d (prompts w) ->
            String.eqb (PromptDoc.prompt_type d) (PromptConfig.prompt_type p)
            && PromptDoc.is_active d = true ->
            PromptDoc.id d = PromptConfig.id p).
  { intros d Hd H. apply andb_true_iff in H. destruct H as (Ht & Ha).
    apply String.eqb_eq in Ht. now apply Honly. }
  split; [|split].
  - intros Hact.
    assert (G : get_active_prompt (PromptConfig.prompt_type p) w' = Some p).
    { subst w'. unfold get_active_prompt, save_prompt.
      cbn [snd prompts with_prompts].
      rewrite (find_update_one_selected PromptDoc.id _ (PromptConfig.id p)
                 (PromptConfig_dump p));
        [now apply PromptConfig_validate_dump | reflexivity | exact Hsel |].
      cbn. now rewrite String.eqb_refl, Hact. }
    split; [exact G|]. split.
    + unfold resolve_prompt. now rewrite G.
    + intros s Hs. unfold resolve_prompt. now rewrite Hs.
  - intros Hact Huniq.
    assert (G : get_active_prompt (PromptConfig.prompt_type p) w' = None).
    { subst w'. unfold get_active_prompt, save_prompt.
      cbn [snd prompts with_prompts].
      rewrite (find_update_one_unselected PromptDoc.id _ (PromptConfig.id p)
                 (PromptConfig_dump p));
        [reflexivity | reflexivity | exact Hsel | exact Huniq |].
      cbn. now rewrite Hact, andb_false_r. }
    split; [exact G|]. unfold resolve_prompt. now rewrite G.
  - repeat split.
Qed.

(* ================================================================ *)
(** * The listing of drafts *)
(* ================================================================ *)

Lemma map_option_total {A B : Type} (f : A -> option B) :
  forall l : list A,
    Forall (fun x => f x <> None) l ->
    exists l', map_option f l = Some l' /\ Forall2 (fun x y => f x = Some y) l l'.
Proof.
  induction l as [|x r IH]; intros H.
  - exists []. split; [reflexivity | constructor].
  - inversion H as [|? ? Hx Hr]; subst.
    destruct (IH Hr) as (ys & M & F2).
    destruct (f x) as [y|] eqn:Fx; [|contradiction].
    exists (y :: ys). simpl. rewrite Fx, M. split; [reflexivity|].
    constructor; assumption.
Qed.

Lemma find_one_unique {D : Type} (id_of : D -> string) :
  forall (coll : list D) (d : D),
    unique_ids id_of coll -> In d coll ->
    find_one id_of (id_of d) coll = Some d.
Proof.
  unfold unique_ids, find_one.
  induction coll as [|x rest IH]; intros d Hu Hin; [destruct Hin|].
  inversion Hu as [|? ? Hnot Hrest]; subst. simpl.
  destruct Hin as [->|Hin].
  - now rewrite String.eqb_refl.
  - destruct (String.eqb_spec (id_of x) (id_of d)) as [E|E].
    + destruct Hnot. rewrite E. now apply in_map.
    + now apply IH.
Qed.

Lemma EmailDraft_validate_id (doc : DraftDoc.t) (d : EmailDraft.t) :
  EmailDraft_validate doc = Some d -> EmailDraft.id d = DraftDoc.id doc.
Proof.
  unfold EmailDraft_validate.
  destruct (parse_datetime (DraftDoc.created_at doc)); [|discriminate].
  destruct (parse_datetime (DraftDoc.updated_at doc)); [|discriminate].
  now intros [= <-].
Qed.

(** When every stored draft validates and the limit does not cut (it is 0,
    which to the store means no limit, or at least the number of drafts),
    the listing from the start shows every stored draft once: the ids
    listed are the stored ids, rearranged. With unique ids, each draft
    listed is the one [get_draft] loads under its id. With a positive
    limit the listing never has more entries than the limit. *)
Theorem get_all_drafts_lists_every_draft (limit : nat) (w : World) :
  Forall (fun doc => EmailDraft_validate doc <> None) (drafts w) ->
  limit = 0 \/ List.length (drafts w) <= limit ->
  Permutation (map EmailDraft.id (get_all_drafts 0 limit w))
              (map DraftDoc.id (drafts w))
  /\ (unique_ids DraftDoc.id (drafts w) ->
      Forall (fun d => get_draft (EmailDraft.id d) w = Some d)
        (get_all_drafts 0 limit w))
  /\ (forall skip, 0 < limit ->
        List.length (get_all_drafts skip limit w) <= limit).
Proof.
  intros Hall Hlimit.
  set (leb := fun a b : DraftDoc.t =>
                String.leb (DraftDoc.updated_at b) (DraftDoc.updated_at a)).
  assert (Hcur : cursor_limit limit (skipn 0 (sort leb (drafts w)))
                 = sort leb (drafts w)).
  { cbn [skipn]. unfold cursor_limit. destruct limit as [|n]; [reflexivity|].
    apply firstn_all2.
    rewrite <- (Permutation_length (sort_perm_gen leb (drafts w))).
    destruct Hlimit as [H|H]; [discriminate | exact H]. }
  assert (Hsorted : Forall (fun doc => EmailDraft_validate doc <> None)
                      (sort leb (drafts w))).
  { rewrite Forall_forall in *. intros doc Hdoc. apply Hall.
    apply (Permutation_in doc (Permutation_sym (sort_perm_gen leb (drafts w)))).
    exact Hdoc. }
  destruct (map_option_total EmailDraft_validate _ Hsorted) as (page & M & F2).
  assert (Hpage : get_all_drafts 0 limit w = page).
  { unfold get_all_drafts. fold leb. now rewrite Hcur, M. }
  split; [|split].
  - rewrite Hpage.
    assert (E : map EmailDraft.id page = map DraftDoc.id (sort leb (drafts w))).
    { clear - F2. induction F2 as [|doc d l l' H F IH]; [reflexivity|].
      simpl. now rewrite IH, (EmailDraft_validate_id doc d H). }
    rewrite E. apply Permutation_map, Permutation_sym, sort_perm_gen.
  - intros Hu. rewrite Hpage.
    assert (Hin : forall doc, In doc (sort leb (drafts w)) -> In doc (drafts w)).
    { intros doc. apply Permutation_in, Permutation_sym, sort_perm_gen. }
    clear - F2 Hu Hin. induction F2 as [|doc d l l' H F IH]; constructor.
    + unfold get_draft. rewrite (EmailDraft_validate_id doc d H).
      rewrite (find_one_unique DraftDoc.id (drafts w) doc Hu); [exact H|].
      apply Hin. now left.
    + apply IH. intros doc' Hdoc'. apply Hin. now right.
  - intros skip Hpos. unfold get_all_drafts. fold leb.
    match goal with
    | |- context [map_option EmailDraft_validate ?cur] =>
        destruct (map_option EmailDraft_validate cur) as [l|] eqn:M'
    end; [|simpl; lia].
    rewrite (map_option_length _ _ _ M'). unfold cursor_limit.
    destruct limit as [|n]; [lia|]. apply firstn_le_length.
Qed.

(* ================================================================ *)
(** * The search for urgent emails *)
(* ================================================================ *)

Lemma map_exn_total {A B : Type} (f : A -> Exn + B) (P : B -> Prop) :
  forall l : list A,
    Forall (fun x => exists y, f x = inr y /\ P y) l ->
    exists l', map_exn f l = inr l' /\ List.length l' = List.length l
               /\ Forall P l'.
Proof.
  induction l as [|x r IH]; intros H.
  - exists []. repeat split; constructor.
  - inversion H as [|? ? (y & Fx & Py) Hr]; subst.
    destruct (IH Hr) as (ys & M & Hlen & HP).
    exists (y :: ys). simpl. rewrite Fx, M. simpl.
    split; [reflexivity|]. split; [now rewrite Hlen | now constructor].
Qed.

(** [find_urgent_emails] never raises and writes nothing. No match gives
    the text [No urgent emails found.]; a failing search, or one match
    without metadata, gives [Error finding urgent emails.]; otherwise the
    answer is the heading followed by one line per match, each starting
    with a dash. *)
Theorem find_urgent_emails_outcomes (w : World) :
  let query := "urgent important immediate action required critical" in
  let response := fst (find_urgent_emails w) in
  snd (find_urgent_emails w) = w
  /\ (index_query w query 5 = inr [] -> response = "No urgent emails found.")
  /\ (forall e, index_query w query 5 = inl e ->
        response = "Error finding urgent emails.")
  /\ (forall results result,
        index_query w query 5 = inr results ->
        In result results -> match_metadata result = None ->
        response = "Error finding urgent emails.")
  /\ (forall results,
        index_query w query 5 = inr results -> results <> [] ->
        Forall (fun result => match_metadata result <> None) results ->
        exists urgent_items,
          List.length urgent_items = List.length results
          /\ Forall (has_prefix "- ") urgent_items
          /\ response = "Urgent/Important emails:" +++ PyStr.nl
                          +++ String.concat PyStr.nl urgent_items).
Proof.
  cbv zeta. unfold find_urgent_emails, search_similar_emails, bind, lift, ret.
  destruct (index_query w _ 5) as [e|results] eqn:Q.
  { cbn [fst snd]. split; [reflexivity|]. split; [discriminate|].
    split; [reflexivity|]. split; intros; discriminate. }
  destruct results as [|first rest].
  { cbn [fst snd]. split; [reflexivity|]. split; [reflexivity|].
    split; [discriminate|]. split.
    - intros ? ? [= <-] [].
    - intros ? [= <-] H. now destruct H. }
  destruct (map_exn urgent_line (first :: rest)) as [e|items] eqn:U.
  - cbn [fst snd]. split; [reflexivity|]. split; [discriminate|].
    split; [discriminate|]. split; [reflexivity|].
    intros results [= <-] _ Hmeta.
    destruct (map_exn_total urgent_line (has_prefix "- ") (first :: rest))
      as (l' & M & _).
    { rewrite Forall_forall in *. intros x Hx. specialize (Hmeta x Hx).
      unfold urgent_line, metadata_get.
      destruct (match_metadata x) as [items|]; [|contradiction].
      simpl. eexists. split; [reflexivity|]. eexists. reflexivity. }
    congruence.
  - cbn [fst snd]. split; [reflexivity|]. split; [discriminate|].
    split; [discriminate|]. split.
    + intros results result [= <-] Hin Hm.
      rewrite (map_exn_fails urgent_line AttributeError _ result) in U.
      * discriminate.
      * intros y e'. apply urgent_line_fails.
      * exact Hin.
      * unfold urgent_line, metadata_get. now rewrite Hm.
    + intros results [= <-] _ Hmeta.
      destruct (map_exn_total urgent_line (has_prefix "- ") (first :: rest))
        as (l' & M & Hlen & Hpre).
      { rewrite Forall_forall in *. intros x Hx. specialize (Hmeta x Hx).
        unfold urgent_line, metadata_get.
        destruct (match_metadata x) as [items'|]; [|contradiction].
        simpl. eexists. split; [reflexivity|]. eexists. reflexivity. }
      rewrite M in U. injection U as <-.
      exists l'. repeat split; assumption.
Qed.

(* ================================================================ *)
(** * The index *)
(* ================================================================ *)

(** [upsert_email] overwrites by id, when the embedding and the write go
    through. After two upserts under one id that both returned, each has
    returned the id, the index holds the second record under that id and
    still one record for it: the ids in the index are those after the first
    upsert. Records under other ids are found as before, unique ids stay
    unique, an upsert repeated with the same content and metadata changes
    nothing, and the document collections are untouched. An upsert that
    raises leaves everything as it was. *)
Theorem upsert_email_overwrites (email_id content content' : string)
  (metadata metadata' : Vector.Metadata) (w w1 w2 : World) (r1 r2 : string) :
  upsert_email email_id content metadata w = (inr r1, w1) ->
  upsert_email email_id content' metadata' w1 = (inr r2, w2) ->
  r1 = email_id /\ r2 = email_id
  /\ find_one Vector.id email_id (vectors w2)
     = Some (Vector.mk email_id content' metadata')
  /\ (forall other, other <> email_id ->
        find_one Vector.id other (vectors w2) = find_one Vector.id other (vectors w))
  /\ map Vector.id (vectors w2) = map Vector.id (vectors w1)
  /\ (unique_ids Vector.id (vectors w) -> unique_ids Vector.id (vectors w2))
  /\ (content' = content -> metadata' = metadata -> w2 = w1)
  /\ emails w2 = emails w /\ prompts w2 = prompts w /\ drafts w2 = drafts w
  /\ (forall id0 content0 metadata0 w0 e w0',
        upsert_email id0 content0 metadata0 w0 = (inl e, w0') -> w0' = w0).
Proof.
  unfold upsert_email. cbv zeta.
  destruct (index_upsert w _) as [e|u]; [discriminate|].
  intros H1. injection H1 as <- <-.
  destruct (index_upsert _ _) as [e|u']; [discriminate|].
  intros H2. injection H2 as <- <-.
  cbn [vectors with_vectors emails prompts drafts].
  split; [reflexivity|]. split; [reflexivity|].
  split; [now apply find_one_update_one|].
  split.
  { intros other Hne.
    rewrite !find_one_update_one_other; [reflexivity | reflexivity | exact Hne
                                         | reflexivity | exact Hne]. }
  split.
  { rewrite (update_one_ids Vector.id email_id (Vector.mk email_id content' metadata'))
      by reflexivity.
    match goal with
    | |- (if existsb ?p ?l then _ else _) = _ =>
        assert (E : existsb p l = true)
    end.
    { apply existsb_exists.
      pose proof (update_one_has_id Vector.id email_id
                    (Vector.mk email_id content metadata) (vectors w) eq_refl) as H.
      apply in_map_iff in H. destruct H as (x & Hx & Hin).
      exists x. split; [exact Hin | now apply String.eqb_eq]. }
    now rewrite E. }
  split.
  { intros Hu. apply update_one_unique; [reflexivity|].
    apply update_one_unique; [reflexivity | exact Hu]. }
  split.
  { intros -> ->. unfold with_vectors.
    cbn [emails prompts drafts vectors clock_reads llm_calls].
    f_equal. now apply update_one_twice. }
  split; [reflexivity|]. split; [reflexivity|]. split; [reflexivity|].
  intros id0 content0 metadata0 w0 e w0'.
  destruct (index_upsert w0 _); intros H; now injection H.
Qed.

(* ================================================================ *)
(** * The orchestrator: operations by id *)
(* ================================================================ *)




End Backend.

(* ================================================================== *)
(** * The back end on the sample collaborators *)
(* ================================================================== *)

Example isoformat_examples :
  isoformat (mk_datetime 2024 1 5 9 30 0 0) = "2024-01-05T09:30:00"
  /\ isoformat (mk_datetime 2024 1 5 9 30 0 1500) = "2024-01-05T09:30:00.001500"
  /\ DateTime.str (mk_datetime 987 12 31 23 59 59 0) = "0987-12-31 23:59:59"
  /\ parse_datetime "2024-02-29T23:59:59.999999"
     = Some (mk_datetime 2024 2 29 23 59 59 999999)
  /\ parse_datetime "2023-02-29T23:59:59" = None.
Proof. repeat split; vm_compute; reflexivity. Qed.

Example response_clean_example :
  response_clean Sample.important_response
  = "{" +++ PyStr.quoted "category" +++ ": " +++ PyStr.quoted "IMPORTANT"
      +++ ", " +++ PyStr.quoted "reason" +++ ": "
      +++ PyStr.quoted "From the manager" +++ "}"
  /\ Sample.json_loads (response_clean Sample.important_response)
     = inr (JDict Sample.important_fields)
  /\ Sample.json_loads (response_clean Sample.plain_response)
     = inl JSONDecodeError.
Proof. repeat split; vm_compute; reflexivity. Qed.

(** The sample decoder on a few texts: numbers, escapes, the words the
    decoder accepts beyond JSON, a text with something after the value, and
    the text of five thousand brackets, on which the nesting runs out
    before the end of the text is seen. *)
Example json_loads_examples :
  Sample.json_loads "[-12, 1.5e3, true, null]"
  = inr (JList [JInt (-12); JFloat "1.5e3"; JBool true; JNull])
  /\ Sample.json_loads ("{" +++ PyStr.quoted "a\nb" +++ ": NaN}")
     = inr (JDict [("a" +++ PyStr.nl +++ "b", JFloat "NaN")])
  /\ Sample.json_loads "01" = inl JSONDecodeError
  /\ Sample.json_loads "[1, 2" = inl JSONDecodeError
  /\ Sample.json_loads (response_clean Sample.deep_response) = inl RecursionError.
Proof. repeat split; vm_compute; reflexivity. Qed.

(** The aggregate of the sample inbox: the newer email comes first out of
    the store, and the sort then puts the two High items first, in that
    order, and the item of unknown priority last. *)
Example aggregate_example :
  map (fun x => (email_id x, ActionItem.description (action_item x),
                 ActionItem.priority (action_item x)))
    (get_all_action_items true Sample.inbox)
  = [("e2", "File expenses", "High"); ("e1", "Send report", "High");
     ("e1", "Send report", "Medium"); ("e1", "Book room", "Low");
     ("e2", "Read memo", "Whenever")].
Proof. vm_compute. reflexivity. Qed.

(** The agent coerces the unknown label of the sample answer. *)
Lemma C1_witness :
  exists email' w',
    categorize_single_email Sample.settings Sample.json_loads
      (Sample.endpoint [inr Sample.important_response])
      Sample.status_email None Sample.empty_world
    = (inr email', w')
    /\ Email.category email' = UNCATEGORIZED.
Proof.
  destruct (C1_category_always_enum Sample.settings Sample.json_loads
              (Sample.endpoint [inr Sample.important_response])
              Sample.status_email None Sample.empty_world) as [_ HB].
  destruct (HB Sample.important_fields (tick_llm Sample.empty_world))
    as (email' & w' & Hrun & _ & _ & Hunknown).
  - vm_compute. reflexivity.
  - exists email', w'. split; [exact Hrun|].
    apply Hunknown. intros c. destruct c; discriminate.
Defined.

(** Both helpers degrade on the sample answer that is not JSON. *)
Lemma C2_witness :
  categorize_email Sample.settings Sample.json_loads
    (Sample.endpoint [inr Sample.plain_response]) "Subject: hello" None
    Sample.empty_world
  = (inr (JDict [("category", JStr "UNCATEGORIZED");
                 ("reason", JStr "Unable to categorize")]),
     tick_llm Sample.empty_world)
  /\ extract_action_items Sample.settings Sample.json_loads
       (Sample.endpoint [inr Sample.plain_response]) "Subject: hello" None
       Sample.empty_world
     = (inr (JList []), tick_llm Sample.empty_world).
Proof.
  destruct (C2_unparseable_response_degrades Sample.settings Sample.json_loads
              (Sample.endpoint [inr Sample.plain_response]) "Subject: hello"
              None Sample.empty_world Sample.plain_response JSONDecodeError)
    as [Hc Ha].
  - vm_compute. reflexivity.
  - split.
    + apply (Hc (tick_llm Sample.empty_world)); reflexivity.
    + apply (Ha (tick_llm Sample.empty_world)); reflexivity.
Defined.

(** C2 as the specification words it fails on the text of five thousand
    opening brackets: the text is not JSON, no value comes out of the
    decoder, and yet neither helper returns its default: the
    [RecursionError] the decoder raises passes the [except] clause of both
    and reaches the caller. *)
Lemma C2_counterexample :
  (forall v, Sample.json_loads (response_clean Sample.deep_response) <> inr v)
  /\ categorize_email Sample.settings Sample.json_loads
       (Sample.endpoint [inr Sample.deep_response]) "Subject: hello" None
       Sample.empty_world
     = (inl RecursionError, tick_llm Sample.empty_world)
  /\ extract_action_items Sample.settings Sample.json_loads
       (Sample.endpoint [inr Sample.deep_response]) "Subject: hello" None
       Sample.empty_world
     = (inl RecursionError, tick_llm Sample.empty_world)
  /\ ~ (forall response w w1,
          (forall v, Sample.json_loads (response_clean response) <> inr v) ->
          generate_text (Sample.endpoint [inr Sample.deep_response])
            (extract_full_prompt Sample.settings "Subject: hello" None) w
          = (inr response, w1) ->
          extract_action_items Sample.settings Sample.json_loads
            (Sample.endpoint [inr Sample.deep_response]) "Subject: hello" None w
          = (inr (JList []), w1)).
Proof.
  assert (D : Sample.json_loads (response_clean Sample.deep_response)
              = inl RecursionError) by (vm_compute; reflexivity).
  assert (X : extract_action_items Sample.settings Sample.json_loads
                (Sample.endpoint [inr Sample.deep_response]) "Subject: hello" None
                Sample.empty_world
              = (inl RecursionError, tick_llm Sample.empty_world))
    by (vm_compute; reflexivity).
  split; [intros v; rewrite D; discriminate|].
  split; [vm_compute; reflexivity|].
  split; [exact X|].
  intros H.
  specialize (H Sample.deep_response Sample.empty_world (tick_llm Sample.empty_world)).
  rewrite X in H.
  assert (F : (inl RecursionError, tick_llm Sample.empty_world)
              = (inr (JList []), tick_llm Sample.empty_world) :> (Exn + json) * World).
  { apply H; [intros v; rewrite D; discriminate | vm_compute; reflexivity]. }
  discriminate F.
Qed.

(** Completing "Send report" in the sample inbox, twice: the second call
    returns true and changes nothing, and the email holds an item of that
    description that is completed. *)
Lemma C3_witness :
  mark_action_item_complete "e1" "Send report"
    (snd (mark_action_item_complete "e1" "Send report" Sample.inbox))
  = (true, snd (mark_action_item_complete "e1" "Send report" Sample.inbox))
  /\ exists email1 before marked after,
       get_email "e1"
         (snd (mark_action_item_complete "e1" "Send report" Sample.inbox))
       = Some email1
       /\ Email.action_items email1 = before ++ marked :: after
       /\ ActionItem.description marked = "Send report"
       /\ ActionItem.completed marked = true.
Proof.
  destruct (C3_mark_complete_idempotent "e1" "Send report" Sample.inbox
              (snd (mark_action_item_complete "e1" "Send report" Sample.inbox)))
    as (Hagain & email & before & a & marked & after & _ & _ & _
        & Hdesc & Hflag & Hsame & _ & _ & _ & _ & email1 & Hget1 & Hitems1 & _).
  - vm_compute. reflexivity.
  - split; [exact Hagain|]. exists email1, before, marked, after.
    split; [exact Hget1|]. split; [exact Hitems1|].
    split; [now rewrite Hsame | exact Hflag].
Defined.

(** The reply to the sample email. *)
Lemma C6_witness :
  exists draft w',
    generate_reply_draft Sample.settings Sample.now_at Sample.timestamp_str
      (Sample.endpoint [inr " Thanks, will do. "])
      Sample.status_email None None Sample.empty_world
    = (inr draft, w')
    /\ EmailDraft.subject draft = "Re: Status Update".
Proof.
  destruct (generate_reply_draft_returns Sample.settings Sample.now_at
              Sample.timestamp_str (Sample.endpoint [inr " Thanks, will do. "])
              Sample.status_email None None Sample.empty_world
              " Thanks, will do. " (fun _ => eq_refl))
    as (draft & w' & Hrun).
  exists draft, w'. split; [exact Hrun|].
  destruct (C6_reply_subject _ _ _ _ _ _ _ _ _ _ Hrun) as (_ & _ & Hstatus & _).
  apply Hstatus. reflexivity.
Defined.

(** Saving the sample draft and reloading it. *)
Lemma C7_witness :
  exists reloaded,
    get_draft "d1" (snd (save_draft Sample.now_at Sample.reply_draft Sample.empty_world))
    = Some reloaded
    /\ EmailDraft.body reloaded = "Will do."
    /\ EmailDraft.created_at reloaded = mk_datetime 2024 1 5 10 0 0 0
    /\ EmailDraft.updated_at reloaded = mk_datetime 2024 3 1 12 0 0 250000.
Proof.
  destruct (C7_draft_round_trip Sample.now_at Sample.reply_draft Sample.empty_world)
    as (persisted & w1 & doc & reloaded & Hsave & _ & _ & _ & _ & _ & Hget
        & _ & _ & Hbody & Hcreated & Hupdated & _).
  - vm_compute. reflexivity.
  - vm_compute. reflexivity.
  - rewrite save_draft_run in Hsave. injection Hsave as <- <-.
    exists reloaded. split; [exact Hget|].
    rewrite Hbody, Hcreated, Hupdated. repeat split.
Defined.

(** The ingestion raises on the unknown label of the sample answer. *)
Lemma C9_witness :
  process_email Sample.settings Sample.json_loads Sample.pydantic_bool
    (Sample.endpoint [inr Sample.important_response]) Sample.index_up
    Sample.status_email None None Sample.empty_world
  = (inl ValueError, tick_llm Sample.empty_world)
  /\ emails (tick_llm Sample.empty_world) = []
  /\ vectors (tick_llm Sample.empty_world) = [].
Proof.
  destruct (C9_process_email_rejects_unknown_label Sample.settings
              Sample.json_loads Sample.pydantic_bool
              (Sample.endpoint [inr Sample.important_response]) Sample.index_up
              Sample.status_email None None Sample.empty_world
              (tick_llm Sample.empty_world) Sample.important_fields
              (JStr "IMPORTANT"))
    as (Hrun & He & Hv & _).
  - vm_compute. reflexivity.
  - reflexivity.
  - intros c. destruct c; discriminate.
  - repeat split; assumption.
Defined.

(** Saving the sample draft: the supplied [updated_at] is replaced by the
    reading of the clock. *)
Lemma C10_witness :
  exists left_behind w1,
    save_draft Sample.now_at Sample.reply_draft Sample.empty_world
    = (inr ("d1", left_behind), w1)
    /\ EmailDraft.updated_at left_behind = mk_datetime 2024 3 1 12 0 0 250000
    /\ EmailDraft.created_at left_behind = mk_datetime 2024 1 5 10 0 0 0
    /\ get_draft "d1" w1 = Some left_behind.
Proof.
  destruct (C10_save_draft_stamps_updated_at Sample.now_at Sample.reply_draft
              Sample.empty_world)
    as (left_behind & w1 & Hsave & Hleft & _ & Hget & _).
  - vm_compute. reflexivity.
  - vm_compute. reflexivity.
  - exists left_behind, w1. split; [exact Hsave|].
    rewrite Hleft. repeat split. rewrite <- Hleft. exact Hget.
Defined.

(** C10 as the specification words it fails on a draft whose [updated_at]
    is the very reading the clock gives at the save, which is what
    [refine_draft] supplies when the clock has not moved between its own
    reading and that of the save: the save leaves [updated_at], and the
    whole draft, as supplied, and the reloaded draft carries the value the
    caller supplied. *)
Lemma C10_counterexample :
  let supplied := EmailDraft.set_updated_at (Sample.now_at 0) Sample.reply_draft in
  let saved := save_draft Sample.now_at supplied Sample.empty_world in
  fst saved = inr ("d1", supplied)
  /\ get_draft "d1" (snd saved) = Some supplied
  /\ ~ (forall draft w left_behind w1,
          save_draft Sample.now_at draft w
          = (inr (EmailDraft.id draft, left_behind), w1) ->
          EmailDraft.updated_at left_behind <> EmailDraft.updated_at draft).
Proof.
  cbv zeta. split; [vm_compute; reflexivity|]. split; [vm_compute; reflexivity|].
  intros H.
  apply (H (EmailDraft.set_updated_at (Sample.now_at 0) Sample.reply_draft)
           Sample.empty_world
           (EmailDraft.set_updated_at (Sample.now_at 0) Sample.reply_draft)
           (snd (save_draft Sample.now_at
                   (EmailDraft.set_updated_at (Sample.now_at 0) Sample.reply_draft)
                   Sample.empty_world)));
    vm_compute; reflexivity.
Qed.

(** C8 as the specification words it fails on the sample inbox: the filter
    of the full aggregate keeps the completed High item "File expenses",
    which [get_action_items_by_priority] does not return. *)
Lemma C8_counterexample :
  map (fun x => ActionItem.description (action_item x))
    (get_action_items_by_priority "High" Sample.inbox)
  = ["Send report"]
  /\ map (fun x => ActionItem.description (action_item x))
       (filter (fun x => String.eqb (entry_priority x) "High")
          (get_all_action_items true Sample.inbox))
     = ["File expenses"; "Send report"]
  /\ get_action_items_by_priority "High" Sample.inbox
     <> filter (fun x => String.eqb (entry_priority x) "High")
          (get_all_action_items true Sample.inbox).
Proof.
  repeat split; try (vm_compute; reflexivity).
  vm_compute. discriminate.
Qed.

(** An endpoint that fails twice and then answers. *)
Lemma generate_text_retries_witness :
  generate_text
    (Sample.endpoint [inl (EndpointError "busy"); inl (EndpointError "busy"); inr "ok"])
    "prompt" Sample.empty_world
  = (inr "ok", mk_world [] [] [] [] 0 3)
  /\ same_stores Sample.empty_world (mk_world [] [] [] [] 0 3).
Proof.
  split; [reflexivity|].
  apply (generate_text_retries
           (Sample.endpoint [inl (EndpointError "busy"); inl (EndpointError "busy"); inr "ok"])
           "prompt" Sample.empty_world (mk_world [] [] [] [] 0 3) (inr "ok")).
  reflexivity.
Defined.

Lemma get_email_after_save_email_witness :
  get_email "e1" (snd (save_email Sample.status_email Sample.inbox))
  = Some Sample.status_email
  /\ get_email "e2" (snd (save_email Sample.status_email Sample.inbox))
     = get_email "e2" Sample.inbox.
Proof.
  split.
  - apply (get_email_after_save_email Sample.status_email Sample.inbox "e1");
      [reflexivity | exact I].
  - apply (get_email_after_save_email Sample.status_email Sample.inbox "e2");
      [reflexivity | exact I].
Defined.

Lemma delete_draft_removes_witness :
  get_draft "d1"
    (snd (delete_draft "d1"
            (snd (save_draft Sample.now_at Sample.reply_draft Sample.empty_world))))
  = None.
Proof.
  apply (delete_draft_removes Sample.now_at "d1" Sample.empty_world);
    [constructor | reflexivity].
Defined.

(** The cleaning on the sample answer. *)
Lemma response_clean_unfences_witness :
  response_clean
    ("" +++ ("```json"
             +++ (PyStr.nl +++ "{" +++ PyStr.quoted "category" +++ ": "
                    +++ PyStr.quoted "IMPORTANT" +++ ", " +++ PyStr.quoted "reason"
                    +++ ": " +++ PyStr.quoted "From the manager" +++ "}" +++ PyStr.nl)
             +++ "```") +++ PyStr.nl)
  = "{" +++ PyStr.quoted "category" +++ ": " +++ PyStr.quoted "IMPORTANT"
      +++ ", " +++ PyStr.quoted "reason" +++ ": "
      +++ PyStr.quoted "From the manager" +++ "}".
Proof.
  rewrite response_clean_unfences.
  - reflexivity.
  - constructor.
  - repeat constructor.
Defined.

(** The agent on the answer that is not JSON: the three items of the
    sample email's document are gone. *)
Lemma agent_extract_action_items_outcomes_witness :
  agent_extract_action_items Sample.settings Sample.json_loads Sample.pydantic_bool
    (Sample.endpoint [inr Sample.plain_response])
    (Email.set_action_items [ActionItem.mk "Send report" "High" None true]
       Sample.status_email)
    None Sample.inbox
  = (inr Sample.status_email,
     snd (save_email Sample.status_email (tick_llm Sample.inbox))).
Proof.
  destruct (agent_extract_action_items_outcomes Sample.settings Sample.json_loads
              Sample.pydantic_bool (Sample.endpoint [inr Sample.plain_response])
              (Email.set_action_items [ActionItem.mk "Send report" "High" None true]
                 Sample.status_email)
              None Sample.inbox (tick_llm Sample.inbox) Sample.plain_response)
    as (Hnone & _).
  - reflexivity.
  - apply Hnone. reflexivity.
Defined.

(** Completing an item the sample inbox does not have. *)
Lemma mark_action_item_complete_frame_witness :
  snd (mark_action_item_complete "e1" "send report" Sample.inbox) = Sample.inbox.
Proof.
  destruct (mark_action_item_complete_frame "e1" "send report" Sample.inbox
              (snd (mark_action_item_complete "e1" "send report" Sample.inbox))
              false) as (Hsame & _).
  - vm_compute. reflexivity.
  - now apply Hsame.
Defined.



(** The same email with the index in reach: it comes back indexed under
    its id, while the stored document has no [embedding_id]. *)
Example process_email_example :
  exists processed w' doc,
    process_email Sample.settings Sample.json_loads Sample.pydantic_bool
      (Sample.endpoint [inr Sample.urgent_response; inr Sample.plain_response])
      Sample.index_up Sample.status_email None None Sample.empty_world
    = (inr processed, w')
    /\ Email.embedding_id processed = Some "e1"
    /\ map Vector.id (vectors w') = ["e1"]
    /\ find_one EmailDoc.id "e1" (emails w') = Some doc
    /\ EmailDoc.category doc = "URGENT"
    /\ EmailDoc.embedding_id doc = None.
Proof. do 3 eexists. repeat split; vm_compute; reflexivity. Qed.

(** Two upserts of the sample email's record. *)
Lemma upsert_email_overwrites_witness :
  exists w2,
    upsert_email Sample.index_up "e1" "second"
      (Vector.mk_metadata "a" "b" "c" "URGENT" "2024-01-05T09:30:00")
      (snd (upsert_email Sample.index_up "e1" "first"
              (Vector.mk_metadata "a" "b" "c" "SPAM" "2024-01-05T09:30:00")
              Sample.empty_world))
    = (inr "e1", w2)
    /\ map Vector.id (vectors w2) = ["e1"]
    /\ find_one Vector.id "e1" (vectors w2)
       = Some (Vector.mk "e1" "second"
                 (Vector.mk_metadata "a" "b" "c" "URGENT" "2024-01-05T09:30:00")).
Proof.
  destruct (upsert_email_overwrites Sample.index_up "e1" "first" "second"
              (Vector.mk_metadata "a" "b" "c" "SPAM" "2024-01-05T09:30:00")
              (Vector.mk_metadata "a" "b" "c" "URGENT" "2024-01-05T09:30:00")
              Sample.empty_world
              (snd (upsert_email Sample.index_up "e1" "first"
                      (Vector.mk_metadata "a" "b" "c" "SPAM" "2024-01-05T09:30:00")
                      Sample.empty_world))
              (snd (upsert_email Sample.index_up "e1" "second"
                      (Vector.mk_metadata "a" "b" "c" "URGENT" "2024-01-05T09:30:00")
                      (snd (upsert_email Sample.index_up "e1" "first"
                              (Vector.mk_metadata "a" "b" "c" "SPAM"
                                 "2024-01-05T09:30:00")
                              Sample.empty_world))))
              "e1" "e1")
    as (_ & _ & Hfind & _ & Hids & _).
  - reflexivity.
  - reflexivity.
  - eexists. split; [reflexivity|]. split; [exact Hids | exact Hfind].
Defined.

(** A new draft from one answer of the model, padded with blank lines. *)
Lemma generate_new_draft_outcomes_witness :
  exists draft w',
    generate_new_draft Sample.now_at Sample.timestamp_str
      (Sample.endpoint [inr (PyStr.nl +++ "See you on Monday." +++ PyStr.nl)])
      "bob@example.com" "Meeting" "Confirm the meeting" None Sample.empty_world
    = (inr draft, w')
    /\ EmailDraft.recipient draft = "bob@example.com"
    /\ EmailDraft.subject draft = "Meeting"
    /\ EmailDraft.body draft = "See you on Monday."
    /\ get_draft (EmailDraft.id draft) w' = Some draft.
Proof.
  destruct (generate_new_draft Sample.now_at Sample.timestamp_str
              (Sample.endpoint [inr (PyStr.nl +++ "See you on Monday." +++ PyStr.nl)])
              "bob@example.com" "Meeting" "Confirm the meeting" None
              Sample.empty_world)
    as [r w'] eqn:H.
  pose proof (generate_new_draft_outcomes _ _ _ _ _ _ _ _ _ _ H) as T.
  vm_compute in H. injection H as <- <-.
  destruct T as (_ & _ & _ & _ & Hr & Hs & _ & _ & _ & _ & _ & _ & _ & Hget).
  eexists. eexists.
  split; [reflexivity|]. split; [exact Hr|]. split; [exact Hs|].
  split; [reflexivity|].
  apply Hget; reflexivity.
Defined.

(** Refining the sample draft. *)
Lemma refine_draft_changes_body_only_witness :
  exists refined w',
    refine_draft Sample.now_at (Sample.endpoint [inr " Done. "])
      Sample.reply_draft "Shorter" Sample.empty_world
    = (inr refined, w')
    /\ EmailDraft.body refined = "Done."
    /\ EmailDraft.updated_at refined = Sample.now_at 1
    /\ find_one DraftDoc.id "d1" (drafts w') = Some (EmailDraft_dump refined).
Proof.
  destruct (refine_draft Sample.now_at (Sample.endpoint [inr " Done. "])
              Sample.reply_draft "Shorter" Sample.empty_world)
    as [r w'] eqn:H.
  pose proof (refine_draft_changes_body_only _ _ _ _ _ _ _ H) as T.
  vm_compute in H. injection H as <- <-.
  destruct T as (_ & _ & _ & _ & _ & _ & Hu & _ & Hf & _).
  eexists. eexists.
  split; [reflexivity|]. split; [reflexivity|]. split; [exact Hu | exact Hf].
Defined.

(** The sample inbox with one foreign document added. *)
Lemma one_unknown_label_hides_the_inbox_witness :
  0 < get_email_count None
        (with_emails [Sample.report_doc; Sample.foreign_doc] Sample.empty_world)
  /\ get_all_action_items true
       (with_emails [Sample.report_doc; Sample.foreign_doc] Sample.empty_world)
     = [].
Proof.
  destruct (one_unknown_label_hides_the_inbox Sample.settings
              Sample.json_loads (Sample.endpoint [])
              (with_emails [Sample.report_doc; Sample.foreign_doc] Sample.empty_world)
              Sample.foreign_doc)
    as (Hcount & _ & Hitems & _).
  - simpl. right. left. reflexivity.
  - reflexivity.
  - simpl. lia.
  - split; [exact Hcount | apply Hitems].
Defined.

(** The sample inbox, listed. *)
Lemma get_all_emails_newest_first_witness :
  StronglySorted
    (fun a b => not_earlier (Email.timestamp a) (Email.timestamp b))
    (get_all_emails 0 50 None Sample.inbox)
  /\ map Email.id (get_all_emails 0 50 None Sample.inbox) = ["e2"; "e1"].
Proof.
  destruct (get_all_emails_newest_first 0 50 None Sample.inbox) as (_ & _ & _ & H).
  - lia.
  - repeat constructor.
    + exists (mk_datetime 2024 1 5 9 30 0 0). split; reflexivity.
    + exists (mk_datetime 2024 1 6 8 0 0 500000). split; reflexivity.
  - split; [exact H | reflexivity].
Defined.


(** A first prompt for the categorization, saved in the empty store. *)
Lemma save_prompt_sets_the_active_prompt_witness :
  resolve_prompt "categorization" None
    (snd (save_prompt
            (PromptConfig.mk "p1" "Terse" "categorization" "One word only."
               (mk_datetime 2024 2 1 8 0 0 0) (mk_datetime 2024 2 1 8 0 0 0)
               true 1)
            Sample.empty_world))
  = Some "One word only.".
Proof.
  destruct (save_prompt_sets_the_active_prompt
              (PromptConfig.mk "p1" "Terse" "categorization" "One word only."
                 (mk_datetime 2024 2 1 8 0 0 0) (mk_datetime 2024 2 1 8 0 0 0)
                 true 1)
              Sample.empty_world)
    as (Hactive & _).
  - reflexivity.
  - reflexivity.
  - intros d [].
  - destruct Hactive as (_ & Hresolve & _); [reflexivity | exact Hresolve].
Defined.


(** The listing after the sample draft was saved. *)
Lemma get_all_drafts_lists_every_draft_witness :
  Permutation
    (map EmailDraft.id
       (get_all_drafts 0 50
          (snd (save_draft Sample.now_at Sample.reply_draft Sample.empty_world))))
    ["d1"].
Proof.
  destruct (get_all_drafts_lists_every_draft 50
              (snd (save_draft Sample.now_at Sample.reply_draft Sample.empty_world)))
    as (H & _).
  - repeat constructor. discriminate.
  - right. simpl. lia.
  - exact H.
Defined.
